(** * Launch Control XL 3 programmer: byte-offset patching engine

  A shallow embedding of the SysEx template generator
  ([lib/sysex_generator.py], [launchcontrol_xl3_programmer.py]) and of the
  frame splitter and colour patcher of [lib/led_mapper.py], with the
  properties stated about them.

  Python integers are [Z]; a [bytearray] is a [list Z] whose cells hold
  values in [0, 256); bytearray objects live in an object store so that
  cloning and in-place patching are visible; exceptions are values of
  [exn] threaded through a state-and-error monad. *)

From Stdlib Require Import ZArith Lia.
From stdpp Require Import base option list strings pretty gmap.

Local Open Scope Z_scope.

(** ** Python object model *)

Module Py.

Abbreviation bytearray := (list Z) (only parsing).

(** Address of a bytearray object in the store. *)
Abbreviation loc := nat (only parsing).

(** The object store: cell [l] holds the contents of the bytearray at
    address [l]; allocation appends a cell. *)
Abbreviation store := (list (list Z)) (only parsing).

Inductive exn : Type :=
| ValueError (msg : string)
| IndexError (msg : string).

(** Computations that read and mutate the store and may raise. *)
Definition M (A : Type) : Type := store → (exn + A) * store.

#[global] Instance M_ret : MRet M := λ A a σ, (inr a, σ).

#[global] Instance M_bind : MBind M := λ A B k m σ,
  match m σ with
  | (inl e, σ') => (inl e, σ')
  | (inr a, σ') => k a σ'
  end.

Definition raise {A : Type} (e : exn) : M A := λ σ, (inl e, σ).

(** [for x in xs: body(x)] *)
Fixpoint for_each {A : Type} (xs : list A) (body : A → M unit) : M unit :=
  match xs with
  | [] => mret tt
  | x :: xs' => body x ;; for_each xs' body
  end.

(** [enumerate(xs)] *)
Fixpoint enumerate_from {A : Type} (start : Z) (xs : list A) : list (Z * A) :=
  match xs with
  | [] => []
  | x :: xs' => (start, x) :: enumerate_from (start + 1) xs'
  end.

Definition enumerate {A : Type} (xs : list A) : list (Z * A) :=
  enumerate_from 0 xs.

(** Index normalisation of [seq[i]]: a negative index counts from the
    end; [None] is an index out of range. *)
Definition py_index (len : nat) (i : Z) : option nat :=
  if bool_decide (0 ≤ i < Z.of_nat len) then Some (Z.to_nat i)
  else if bool_decide (- Z.of_nat len ≤ i < 0) then Some (Z.to_nat (Z.of_nat len + i))
  else None.

(** [bytearray(src)]: a fresh object holding a copy of [src]. *)
Definition new_bytearray (src : list Z) : M loc :=
  λ σ, (inr (length σ), σ ++ [src]).

(** Contents of the object at [l]. *)
Definition deref (l : loc) : M bytearray := λ σ,
  match σ !! l with
  | Some b => (inr b, σ)
  | None => (inl (IndexError "dangling reference"), σ)
  end.

(** [messages[i]] on a Python list of references. *)
Definition list_getitem (messages : list loc) (i : Z) : M loc :=
  match py_index (length messages) i with
  | Some n =>
      match messages !! n with
      | Some l => mret l
      | None => raise (IndexError "list index out of range")
      end
  | None => raise (IndexError "list index out of range")
  end.

(** [b[pos] = v] on the bytearray at [l]: the index is checked first,
    then the value, which must be in [range(0, 256)]. *)
Definition bytearray_setitem (l : loc) (pos v : Z) : M unit := λ σ,
  match σ !! l with
  | None => (inl (IndexError "dangling reference"), σ)
  | Some b =>
      match py_index (length b) pos with
      | None => (inl (IndexError "bytearray index out of range"), σ)
      | Some p =>
          if bool_decide (0 ≤ v < 256)
          then (inr tt, <[l := <[p := v]> b]> σ)
          else (inl (ValueError "byte must be in range(0, 256)"), σ)
      end
  end.

(** [messages[msg_index][pos] = v] *)
Definition setitem2 (messages : list loc) (msg_index pos v : Z) : M unit :=
  l ← list_getitem messages msg_index; bytearray_setitem l pos v.

(** [[bytearray(msg) for msg in srcs]] *)
Fixpoint new_bytearrays (srcs : list (list Z)) : M (list loc) :=
  match srcs with
  | [] => mret []
  | src :: srcs' =>
      l ← new_bytearray src; ls ← new_bytearrays srcs'; mret (l :: ls)
  end.

(** [[bytearray(msg) for msg in refs]] where [refs] are bytearray objects. *)
Fixpoint copy_bytearrays (refs : list loc) : M (list loc) :=
  match refs with
  | [] => mret []
  | r :: refs' =>
      b ← deref r; l ← new_bytearray b; ls ← copy_bytearrays refs'; mret (l :: ls)
  end.

(** The contents a list of references points to, as [bytes(msg)] reads them. *)
Definition contents (σ : store) (refs : list loc) : list (option bytearray) :=
  (λ l, σ !! l) <$> refs.

End Py.

Import Py.

(** ** Constants *)

Module Constants.

(** Control map entries: [(msg_index, cc_pos, ch_pos, color_pos, flag_pos)],
    [flag_pos] is [-1] when the control has no mode flag. *)
Record control : Type := Ctl {
  msg_index : Z;
  cc_pos : Z;
  ch_pos : Z;
  color_pos : Z;
  flag_pos : Z
}.

Definition MAX_CC_VALUE : Z := 127.
Definition MIN_CC_VALUE : Z := 1.
Definition MAX_MIDI_CHANNEL : Z := 16.
Definition MIN_MIDI_CHANNEL : Z := 1.

(** Modelled from the spec: [SAFE_CC_MIN], [SAFE_CC_MAX] and
    [DEFAULT_MIN_CC_VALUE] are declared in [lib/constants.py], which is
    not part of the sources at hand; the assignable controller numbers
    are the range [1, 126] and numbering starts at 1 by default. *)
Definition SAFE_CC_MIN : Z := 1.
Definition SAFE_CC_MAX : Z := 126.
Definition DEFAULT_MIN_CC_VALUE : Z := 1.

(** The two factory-default frames, as embedded in
    [launchcontrol_xl3_programmer.py]. *)
Definition EMBEDDED_MSGS : list (list Z) := [
[
 0xf0; 0x00; 0x20; 0x29; 0x02; 0x15; 0x05; 0x00; 0x45; 0x00; 0x7f; 0x20; 0x10; 0x2a; 0x4e; 0x65;
 0x77; 0x20; 0x43; 0x75; 0x73; 0x74; 0x6f; 0x6d; 0x20; 0x4d; 0x6f; 0x64; 0x65; 0x49; 0x10; 0x02;
 0x05; 0x00; 0x01; 0x40; 0x00; 0x0d; 0x7f; 0x00; 0x49; 0x11; 0x02; 0x05; 0x00; 0x01; 0x40; 0x00;
 0x0e; 0x7f; 0x00; 0x49; 0x12; 0x02; 0x05; 0x00; 0x01; 0x40; 0x00; 0x0f; 0x7f; 0x00; 0x49; 0x13;
 0x02; 0x05; 0x00; 0x01; 0x40; 0x00; 0x10; 0x7f; 0x00; 0x49; 0x14; 0x02; 0x05; 0x00; 0x01; 0x40;
 0x00; 0x11; 0x7f; 0x00; 0x49; 0x15; 0x02; 0x05; 0x00; 0x01; 0x40; 0x00; 0x12; 0x7f; 0x00; 0x49;
 0x16; 0x02; 0x05; 0x00; 0x01; 0x40; 0x00; 0x13; 0x7f; 0x00; 0x49; 0x17; 0x02; 0x05; 0x00; 0x01;
 0x40; 0x00; 0x14; 0x7f; 0x00; 0x49; 0x18; 0x02; 0x09; 0x00; 0x01; 0x40; 0x00; 0x15; 0x7f; 0x00;
 0x49; 0x19; 0x02; 0x09; 0x00; 0x01; 0x40; 0x00; 0x16; 0x7f; 0x00; 0x49; 0x1a; 0x02; 0x09; 0x00;
 0x01; 0x40; 0x00; 0x17; 0x7f; 0x00; 0x49; 0x1b; 0x02; 0x09; 0x00; 0x01; 0x40; 0x00; 0x18; 0x7f;
 0x00; 0x49; 0x1c; 0x02; 0x09; 0x00; 0x01; 0x40; 0x00; 0x19; 0x7f; 0x00; 0x49; 0x1d; 0x02; 0x09;
 0x00; 0x01; 0x40; 0x00; 0x1a; 0x7f; 0x00; 0x49; 0x1e; 0x02; 0x09; 0x00; 0x01; 0x40; 0x00; 0x1b;
 0x7f; 0x00; 0x49; 0x1f; 0x02; 0x09; 0x00; 0x01; 0x40; 0x00; 0x1c; 0x7f; 0x00; 0x49; 0x20; 0x02;
 0x0d; 0x00; 0x01; 0x40; 0x00; 0x1d; 0x7f; 0x00; 0x49; 0x21; 0x02; 0x0d; 0x00; 0x01; 0x40; 0x00;
 0x1e; 0x7f; 0x00; 0x49; 0x22; 0x02; 0x0d; 0x00; 0x01; 0x40; 0x00; 0x1f; 0x7f; 0x00; 0x49; 0x23;
 0x02; 0x0d; 0x00; 0x01; 0x40; 0x00; 0x20; 0x7f; 0x00; 0x49; 0x24; 0x02; 0x0d; 0x00; 0x01; 0x40;
 0x00; 0x21; 0x7f; 0x00; 0x49; 0x25; 0x02; 0x0d; 0x00; 0x01; 0x40; 0x00; 0x22; 0x7f; 0x00; 0x49;
 0x26; 0x02; 0x0d; 0x00; 0x01; 0x40; 0x00; 0x23; 0x7f; 0x00; 0x49; 0x27; 0x02; 0x0d; 0x00; 0x01;
 0x40; 0x00; 0x24; 0x7f; 0x00; 0x60; 0x10; 0x60; 0x11; 0x60; 0x12; 0x60; 0x13; 0x60; 0x14; 0x60;
 0x15; 0x60; 0x16; 0x60; 0x17; 0x60; 0x18; 0x60; 0x19; 0x60; 0x1a; 0x60; 0x1b; 0x60; 0x1c; 0x60;
 0x1d; 0x60; 0x1e; 0x60; 0x1f; 0x60; 0x20; 0x60; 0x21; 0x60; 0x22; 0x60; 0x23; 0x60; 0x24; 0x60;
 0x25; 0x60; 0x26; 0x60; 0x27; 0xf7 ];
[
 0xf0; 0x00; 0x20; 0x29; 0x02; 0x15; 0x05; 0x00; 0x45; 0x03; 0x7f; 0x20; 0x10; 0x2a; 0x4e; 0x65;
 0x77; 0x20; 0x43; 0x75; 0x73; 0x74; 0x6f; 0x6d; 0x20; 0x4d; 0x6f; 0x64; 0x65; 0x49; 0x28; 0x02;
 0x00; 0x00; 0x01; 0x40; 0x00; 0x05; 0x7f; 0x00; 0x49; 0x29; 0x02; 0x00; 0x00; 0x01; 0x40; 0x00;
 0x06; 0x7f; 0x00; 0x49; 0x2a; 0x02; 0x00; 0x00; 0x01; 0x40; 0x00; 0x07; 0x7f; 0x00; 0x49; 0x2b;
 0x02; 0x00; 0x00; 0x01; 0x40; 0x00; 0x08; 0x7f; 0x00; 0x49; 0x2c; 0x02; 0x00; 0x00; 0x01; 0x40;
 0x00; 0x09; 0x7f; 0x00; 0x49; 0x2d; 0x02; 0x00; 0x00; 0x01; 0x40; 0x00; 0x0a; 0x7f; 0x00; 0x49;
 0x2e; 0x02; 0x00; 0x00; 0x01; 0x40; 0x00; 0x0b; 0x7f; 0x00; 0x49; 0x2f; 0x02; 0x00; 0x00; 0x01;
 0x40; 0x00; 0x0c; 0x7f; 0x00; 0x60; 0x28; 0x60; 0x29; 0x60; 0x2a; 0x60; 0x2b; 0x60; 0x2c; 0x60;
 0x2d; 0x60; 0x2e; 0x60; 0x2f; 0x49; 0x30; 0x02; 0x19; 0x03; 0x01; 0x50; 0x00; 0x25; 0x7f; 0x00;
 0x49; 0x31; 0x02; 0x19; 0x03; 0x01; 0x50; 0x00; 0x26; 0x7f; 0x00; 0x49; 0x32; 0x02; 0x19; 0x03;
 0x01; 0x50; 0x00; 0x27; 0x7f; 0x00; 0x49; 0x33; 0x02; 0x19; 0x03; 0x01; 0x50; 0x00; 0x28; 0x7f;
 0x00; 0x49; 0x34; 0x02; 0x19; 0x03; 0x01; 0x50; 0x00; 0x29; 0x7f; 0x00; 0x49; 0x35; 0x02; 0x19;
 0x03; 0x01; 0x50; 0x00; 0x2a; 0x7f; 0x00; 0x49; 0x36; 0x02; 0x19; 0x03; 0x01; 0x50; 0x00; 0x2b;
 0x7f; 0x00; 0x49; 0x37; 0x02; 0x19; 0x03; 0x01; 0x50; 0x00; 0x2c; 0x7f; 0x00; 0x49; 0x38; 0x02;
 0x25; 0x03; 0x01; 0x50; 0x00; 0x2d; 0x7f; 0x00; 0x49; 0x39; 0x02; 0x25; 0x03; 0x01; 0x50; 0x00;
 0x2e; 0x7f; 0x00; 0x49; 0x3a; 0x02; 0x25; 0x03; 0x01; 0x50; 0x00; 0x2f; 0x7f; 0x00; 0x49; 0x3b;
 0x02; 0x25; 0x03; 0x01; 0x50; 0x00; 0x30; 0x7f; 0x00; 0x49; 0x3c; 0x02; 0x25; 0x03; 0x01; 0x50;
 0x00; 0x31; 0x7f; 0x00; 0x49; 0x3d; 0x02; 0x25; 0x03; 0x01; 0x50; 0x00; 0x32; 0x7f; 0x00; 0x49;
 0x3e; 0x02; 0x25; 0x03; 0x01; 0x50; 0x00; 0x33; 0x7f; 0x00; 0x49; 0x3f; 0x02; 0x25; 0x03; 0x01;
 0x50; 0x00; 0x34; 0x7f; 0x00; 0x60; 0x30; 0x60; 0x31; 0x60; 0x32; 0x60; 0x33; 0x60; 0x34; 0x60;
 0x35; 0x60; 0x36; 0x60; 0x37; 0x60; 0x38; 0x60; 0x39; 0x60; 0x3a; 0x60; 0x3b; 0x60; 0x3c; 0x60;
 0x3d; 0x60; 0x3e; 0x60; 0x3f; 0xf7 ]
].

(** The control map of [launchcontrol_xl3_programmer.py], in canonical
    control order: 24 knobs in frame 0, then 8 sliders and 16 buttons in
    frame 1. *)
Definition CONTROLS : list control := [
 Ctl 0 37 34 32 35; Ctl 0 48 45 43 46; Ctl 0 59 56 54 57; Ctl 0 70 67 65 68;
 Ctl 0 81 78 76 79; Ctl 0 92 89 87 90; Ctl 0 103 100 98 101; Ctl 0 114 111 109 112;
 Ctl 0 125 122 120 123; Ctl 0 136 133 131 134; Ctl 0 147 144 142 145; Ctl 0 158 155 153 156;
 Ctl 0 169 166 164 167; Ctl 0 180 177 175 178; Ctl 0 191 188 186 189; Ctl 0 202 199 197 200;
 Ctl 0 213 210 208 211; Ctl 0 224 221 219 222; Ctl 0 235 232 230 233; Ctl 0 246 243 241 244;
 Ctl 0 257 254 252 255; Ctl 0 268 265 263 266; Ctl 0 279 276 274 277; Ctl 0 290 287 285 288;
 Ctl 1 37 34 32 35; Ctl 1 48 45 43 46; Ctl 1 59 56 54 57; Ctl 1 70 67 65 68;
 Ctl 1 81 78 76 79; Ctl 1 92 89 87 90; Ctl 1 103 100 98 101; Ctl 1 114 111 109 112;
 Ctl 1 141 138 136 139; Ctl 1 152 149 147 150; Ctl 1 163 160 158 161; Ctl 1 174 171 169 172;
 Ctl 1 185 182 180 183; Ctl 1 196 193 191 194; Ctl 1 207 204 202 205; Ctl 1 218 215 213 216;
 Ctl 1 229 226 224 227; Ctl 1 240 237 235 238; Ctl 1 251 248 246 249; Ctl 1 262 259 257 260;
 Ctl 1 273 270 268 271; Ctl 1 284 281 279 282; Ctl 1 295 292 290 293; Ctl 1 306 303 301 304
].

(** [len(CONTROLS)] *)
Definition N_CONTROLS : Z := Eval cbv in Z.of_nat (length CONTROLS).

(** Named colours, in dictionary (insertion) order. *)
Definition COLOR_MAP : list (string * Z) := [
  ("red", 0x05); ("orange", 0x09); ("yellow", 0x0d); ("lime", 0x11);
  ("green", 0x19); ("turquoise", 0x1d); ("cyan", 0x21);
  ("light_blue", 0x25); ("blue", 0x29); ("dark_blue", 0x2d);
  ("purple", 0x31); ("fuchsia", 0x35); ("pink", 0x39);
  ("off", 0x03); ("disabled", 0x00)
].

(** Modelled from the spec: [DEVICE_LAYOUT] is declared in
    [lib/constants.py], which is not part of the sources at hand.  The
    device grid has six rows of eight columns; the sections are the three
    knob rows (rows 0 to 2), the slider row (row 3) and the two button rows
    (rows 4 and 5), each listing its positions [(row, col)] left to right,
    as the editor of [lib/led_mapper.py] draws and navigates them. *)
Definition grid_row (row : Z) : list (Z * Z) :=
  (λ col, (row, col)) <$> [0; 1; 2; 3; 4; 5; 6; 7].

Definition DEVICE_LAYOUT : list (string * list (Z * Z)) := [
  ("knobs_top", grid_row 0); ("knobs_mid", grid_row 1);
  ("knobs_bot", grid_row 2); ("sliders", grid_row 3);
  ("buttons_top", grid_row 4); ("buttons_bot", grid_row 5)
].

(** [d.get(key)] on a dictionary kept as an association list. *)
Fixpoint dict_get {V : Type} (d : list (string * V)) (key : string) : option V :=
  match d with
  | [] => None
  | (k, v) :: d' => if bool_decide (k = key) then Some v else dict_get d' key
  end.

End Constants.

Import Constants.

#[global] Arguments EMBEDDED_MSGS : simpl never.
#[global] Arguments CONTROLS : simpl never.
#[global] Arguments COLOR_MAP : simpl never.

(** ** The library generator: [lib/sysex_generator.py] *)

Module Generator.

(** Channel assignment modes. *)
Inductive ChannelMode : Type :=
| PER_TEMPLATE
| GLOBAL.

(** CC numbering strategies. *)
Inductive CCMode : Type :=
| RESTART_PER_TEMPLATE
| CONTINUOUS.

(** The generator object: [self.base_messages] is a list of references to
    bytearray objects. *)
Record SysExTemplateGenerator : Type := {
  base_messages : list loc
}.

Definition __init__ : M SysExTemplateGenerator :=
  msgs ← new_bytearrays EMBEDDED_MSGS;
  mret {| base_messages := msgs |}.

Definition _validate_channel (channel_1_16 : Z) : M Z :=
  if bool_decide (MIN_MIDI_CHANNEL ≤ channel_1_16 ≤ MAX_MIDI_CHANNEL)
  then mret (channel_1_16 - 1)
  else raise (ValueError "Channel must be integer between 1 and 16").

Definition _validate_template_count (count : Z) : M Z :=
  if bool_decide (count < 1 ∨ count > 15)
  then raise (ValueError ("Template count must be integer between 1-15, got: "
                          +:+ pretty count))
  else mret count.

Definition _clone_messages (self : SysExTemplateGenerator) : M (list loc) :=
  copy_bytearrays (base_messages self).

(** The controller number computed for one control by the body of the loop
    of [_assign_continuous_controllers], before it is stored. *)
Definition cc_value_for (template_index : Z) (cc_mode : CCMode)
    (safe_min_cc available_ccs : Z) (cc_reverse : bool) (control_index : Z) : Z :=
  let cc_offset :=
    match cc_mode with
    | RESTART_PER_TEMPLATE => control_index
    | CONTINUOUS => template_index * N_CONTROLS + control_index
    end in
  if bool_decide (cc_offset >= available_ccs) then 0
  else if cc_reverse then
    let cc_value := SAFE_CC_MAX - cc_offset in
    if bool_decide (cc_value < SAFE_CC_MIN) then 0 else cc_value
  else
    let cc_value := safe_min_cc + cc_offset in
    if bool_decide (cc_value > SAFE_CC_MAX) then 0 else cc_value.

Definition _assign_continuous_controllers (messages : list loc)
    (template_index : Z) (cc_mode : CCMode) (min_cc_value : Z)
    (cc_reverse : bool) : M unit :=
  let safe_min_cc := Z.max min_cc_value SAFE_CC_MIN in
  let available_ccs := SAFE_CC_MAX - safe_min_cc + 1 in
  for_each (enumerate CONTROLS) (λ '(control_index, c),
    let cc_value :=
      cc_value_for template_index cc_mode safe_min_cc available_ccs
                   cc_reverse control_index in
    setitem2 messages (msg_index c) (cc_pos c) cc_value).

Definition _set_midi_channel (messages : list loc) (channel_1_16 : Z) : M unit :=
  zero_based_channel ← _validate_channel channel_1_16;
  for_each CONTROLS (λ c,
    setitem2 messages (msg_index c) (ch_pos c) zero_based_channel;;
    if bool_decide (flag_pos c >= 0)
    then setitem2 messages (msg_index c) (flag_pos c) 0x00
    else mret tt).

Definition _set_button_modes (messages : list loc) : M unit := mret tt.

Definition _get_channel_for_template (template_num : Z)
    (channel_mode : ChannelMode) (global_channel : option Z) : M Z :=
  match channel_mode with
  | GLOBAL =>
      match global_channel with
      | None =>
          raise (ValueError "Global channel must be specified for GLOBAL channel mode")
      | Some ch => mret ch
      end
  | PER_TEMPLATE => mret (Z.min template_num MAX_MIDI_CHANNEL)
  end.

Definition generate_template (self : SysExTemplateGenerator)
    (template_num : Z) (channel_mode : ChannelMode) (cc_mode : CCMode)
    (global_channel : option Z) (min_cc_value : Z) (cc_reverse : bool)
    : M (list loc) :=
  messages ← _clone_messages self;
  channel ← _get_channel_for_template template_num channel_mode global_channel;
  _set_midi_channel messages channel;;
  _set_button_modes messages;;
  let template_index := template_num - 1 in
  _assign_continuous_controllers messages template_index cc_mode
                                 min_cc_value cc_reverse;;
  mret messages.

End Generator.

(** ** The single-file generator: [launchcontrol_xl3_programmer.py] *)

Module Legacy.

Import Generator.

Definition cc_value_for (template_index : Z) (cc_mode : CCMode)
    (control_index : Z) : Z :=
  match cc_mode with
  | RESTART_PER_TEMPLATE => (control_index `mod` MAX_CC_VALUE) + MIN_CC_VALUE
  | CONTINUOUS =>
      let global_control_index := template_index * N_CONTROLS + control_index in
      (global_control_index `mod` MAX_CC_VALUE) + MIN_CC_VALUE
  end.

Definition _assign_continuous_controllers (messages : list loc)
    (template_index : Z) (cc_mode : CCMode) : M unit :=
  for_each (enumerate CONTROLS) (λ '(control_index, c),
    let cc_value := cc_value_for template_index cc_mode control_index in
    setitem2 messages (msg_index c) (cc_pos c) cc_value).

End Legacy.

(** ** The colour mapper: [lib/led_mapper.py] *)

Module LedMapper.

Record LEDColorMapper : Type := {
  colors : gmap (Z * Z) string;
  cursor_row : Z;
  cursor_col : Z;
  current_color_idx : Z
}.

Definition with_colors (self : LEDColorMapper) (cs : gmap (Z * Z) string)
    : LEDColorMapper :=
  {| colors := cs; cursor_row := cursor_row self;
     cursor_col := cursor_col self;
     current_color_idx := current_color_idx self |}.

Definition __init__ : LEDColorMapper :=
  {| colors :=
       foldl (λ cs section,
                foldl (λ cs' rc, <[rc := "off"%string]> cs') cs section.2)
             ∅ DEVICE_LAYOUT;
     cursor_row := 0; cursor_col := 0; current_color_idx := 0 |}.

(** [data[a:b]] for [0 <= a <= b]. *)
Definition slice (data : list Z) (a b : nat) : list Z :=
  take (b - a) (drop a data).

(** The inner loop of [_split_sysex_messages]:
    [while end < len(sysex_data) and sysex_data[end] != 0xF7: end += 1].
    [None] is fuel exhaustion. *)
Fixpoint scan_end (sysex_data : list Z) (end_ : nat) (fuel : nat) : option nat :=
  match fuel with
  | O => None
  | S fuel' =>
      match sysex_data !! end_ with
      | None => Some end_
      | Some b =>
          if bool_decide (b ≠ 0xF7)
          then scan_end sysex_data (S end_) fuel'
          else Some end_
      end
  end.

(** The outer loop of [_split_sysex_messages], from index [start] with the
    frames found so far.  [None] is fuel exhaustion. *)
Fixpoint split_loop (sysex_data : list Z) (start : nat)
    (messages : list bytearray) (fuel : nat) : option (list bytearray) :=
  match fuel with
  | O => None
  | S fuel' =>
      match sysex_data !! start with
      | None => Some messages
      | Some b =>
          if bool_decide (b ≠ 0xF0)
          then split_loop sysex_data (S start) messages fuel'
          else
            match scan_end sysex_data (S start) (S (length sysex_data)) with
            | None => None
            | Some end_ =>
                if bool_decide (end_ < length sysex_data)%nat
                then split_loop sysex_data (S end_)
                       (messages ++ [slice sysex_data start (S end_)]) fuel'
                else Some messages
            end
      end
  end.

Definition _split_sysex_messages (sysex_data : list Z) : option (list bytearray) :=
  split_loop sysex_data 0 [] (S (length sysex_data)).

(** [(None, None)] is rendered as [None]. *)
Definition _control_index_to_position (control_index : Z) : option (Z * Z) :=
  let all_positions :=
    foldl (λ acc section_name,
             acc ++ default [] (dict_get DEVICE_LAYOUT section_name))
          []
          ["knobs_top"; "knobs_mid"; "knobs_bot"; "sliders";
           "buttons_top"; "buttons_bot"]%string in
  if bool_decide (0 ≤ control_index < Z.of_nat (length all_positions))
  then all_positions !! Z.to_nat control_index
  else None.

(** The guard [msg_index < len(messages) and color_pos < len(messages[msg_index])].
    Every offset of [CONTROLS] is non-negative, so no index counts from the end. *)
Definition in_frame (messages : list bytearray) (c : control) : bool :=
  bool_decide (msg_index c < Z.of_nat (length messages))
  && bool_decide (color_pos c
                  < Z.of_nat (length (messages !!! Z.to_nat (msg_index c)))).

(** The search [for name, value in COLOR_MAP.items(): if value == color_value: ... break]
    with the default ['off']. *)
Fixpoint find_color_name (items : list (string * Z)) (color_value : Z) : string :=
  match items with
  | [] => "off"
  | (name, value) :: items' =>
      if bool_decide (value = color_value) then name
      else find_color_name items' color_value
  end.

Definition extract_step (messages : list bytearray)
    (cs : gmap (Z * Z) string) (ic : Z * control) : gmap (Z * Z) string :=
  let '(control_index, c) := ic in
  if in_frame messages c then
    let color_value :=
      (messages !!! Z.to_nat (msg_index c)) !!! Z.to_nat (color_pos c) in
    let color_name := find_color_name COLOR_MAP color_value in
    match _control_index_to_position control_index with
    | Some (row, col) => <[(row, col) := color_name]> cs
    | None => cs
    end
  else cs.

Definition _extract_colors_from_sysex (self : LEDColorMapper)
    (sysex_data : list Z) : option LEDColorMapper :=
  messages ← _split_sysex_messages sysex_data;
  Some (with_colors self
          (foldl (extract_step messages) (colors self) (enumerate CONTROLS))).

(** [COLOR_MAP.get(color_name, COLOR_MAP['off'])]; the key ['off'] is in the
    dictionary. *)
Definition color_value_of (color_name : string) : Z :=
  default (default 0 (dict_get COLOR_MAP "off")) (dict_get COLOR_MAP color_name).

Definition apply_step (cs : gmap (Z * Z) string)
    (messages : list bytearray) (ic : Z * control) : list bytearray :=
  let '(control_index, c) := ic in
  if in_frame messages c then
    match _control_index_to_position control_index with
    | Some (row, col) =>
        let color_name := default "off"%string (cs !! (row, col)) in
        let color_value := color_value_of color_name in
        let mi := Z.to_nat (msg_index c) in
        <[mi := <[Z.to_nat (color_pos c) := color_value]> (messages !!! mi)]> messages
    | None => messages
    end
  else messages.

(** The result is the byte string written to [output_path]. *)
Definition _apply_colors_to_sysex (self : LEDColorMapper)
    (original_data : list Z) : option (list Z) :=
  messages ← _split_sysex_messages original_data;
  let messages' := foldl (apply_step (colors self)) messages (enumerate CONTROLS) in
  Some (concat messages').

End LedMapper.

(** ** Patches as lists of keyed writes *)

Module Patch.

(** A write [((msg_index, pos), value)]. *)
Definition write : Type := (Z * Z) * Z.

(** The value of the last write to key [k], if any. *)
Fixpoint last_write {K V : Type} `{EqDecision K} (ws : list (K * V)) (k : K)
    : option V :=
  match ws with
  | [] => None
  | (k', v) :: ws' =>
      match last_write ws' k with
      | Some v' => Some v'
      | None => if decide (k' = k) then Some v else None
      end
  end.

(** [messages[j][o]] on frames held by value. *)
Definition lookup2 (ms : list bytearray) (j o : nat) : option Z :=
  ms !! j ≫= (λ m, m !! o).

(** One write on frames held by value; out of range it changes nothing. *)
Definition write2 (ms : list bytearray) (w : write) : list bytearray :=
  let j := Z.to_nat w.1.1 in
  <[j := <[Z.to_nat w.1.2 := w.2]> (ms !!! j)]> ms.

(** The frame lengths. *)
Definition shape (ms : list bytearray) : list nat := length <$> ms.

(** A write that [setitem2] accepts on frames of shape [sh]. *)
Definition valid_write (sh : list nat) (w : write) : Prop :=
  0 ≤ w.2 < 256 ∧ 0 ≤ w.1.1 ∧ 0 ≤ w.1.2 ∧
  ∃ n : nat, sh !! Z.to_nat w.1.1 = Some n ∧ (Z.to_nat w.1.2 < n)%nat.

(** The writes in store order. *)
Definition do_writes (messages : list loc) (ws : list write) : M unit :=
  for_each ws (λ w, setitem2 messages w.1.1 w.1.2 w.2).

(** The references [messages] point to the frames [ms] in the store. *)
Definition points_to (σ : store) (messages : list loc) (ms : list bytearray) : Prop :=
  Forall2 (λ l m, σ !! l = Some m) messages ms.

(** The writes of [Generator._set_midi_channel] for one control. *)
Definition channel_writes_of (zero_based_channel : Z) (c : control) : list write :=
  ((msg_index c, ch_pos c), zero_based_channel)
  :: (if bool_decide (flag_pos c >= 0)
      then [((msg_index c, flag_pos c), 0x00)] else []).

Definition channel_writes (zero_based_channel : Z) : list write :=
  CONTROLS ≫= channel_writes_of zero_based_channel.

(** The writes of a CC assignment loop that stores [f control_index]. *)
Definition cc_writes (f : Z → Z) : list write :=
  (λ ic : Z * control, ((msg_index ic.2, cc_pos ic.2), f ic.1))
    <$> enumerate CONTROLS.

#[global] Arguments channel_writes : simpl never.
#[global] Arguments cc_writes : simpl never.

End Patch.

(** ** Vocabulary of the properties *)

Module Spec.

Import Generator LedMapper Patch.

(** The CC byte of control [i] of template [t] as the assignment algorithm
    is described, over a control table of [N] entries: [lo] is the
    requested minimum clamped to the safe minimum, [hi] the safe maximum,
    [k] the logical offset. *)
Definition spec_cc_byte (N : Z) (i t : Z) (cc_mode : CCMode) (reverse : bool)
    (requested_min : Z) : Z :=
  let lo := Z.max requested_min SAFE_CC_MIN in
  let hi := SAFE_CC_MAX in
  let k :=
    match cc_mode with
    | RESTART_PER_TEMPLATE => i
    | CONTINUOUS => t * N + i
    end in
  if bool_decide (k >= hi - lo + 1) then 0
  else if reverse then (if bool_decide (hi - k < lo) then 0 else hi - k)
  else (if bool_decide (lo + k > hi) then 0 else lo + k).

(** The logical offset of control [i] of template [t] over [N] controls. *)
Definition logical_offset (N : Z) (i t : Z) (cc_mode : CCMode) : Z :=
  match cc_mode with
  | RESTART_PER_TEMPLATE => i
  | CONTINUOUS => t * N + i
  end.

(** Every CC, channel and mode-flag offset of the table lies inside the
    frame its control names. *)
Definition fits (ms : list bytearray) : Prop :=
  Forall (λ c : control,
            let len := Z.of_nat (length (ms !!! Z.to_nat (msg_index c))) in
            cc_pos c < len ∧ ch_pos c < len ∧ flag_pos c < len)
         CONTROLS.

(** [messages] are distinct objects of the store holding frames [ms] that
    the table fits. *)
Definition patchable (σ : store) (messages : list loc) (ms : list bytearray) : Prop :=
  NoDup messages ∧ points_to σ messages ms ∧ fits ms.

(** The generator's stored base messages hold the factory frames. *)
Definition generator_ok (σ : store) (self : SysExTemplateGenerator) : Prop :=
  points_to σ (base_messages self) EMBEDDED_MSGS.

(** Offset [o] of frame [j] is the CC, channel or mode-flag offset of some
    control. *)
Definition patched_offset (j o : nat) : Prop :=
  ∃ c, c ∈ CONTROLS ∧ msg_index c = Z.of_nat j
       ∧ (cc_pos c = Z.of_nat o ∨ ch_pos c = Z.of_nat o ∨ flag_pos c = Z.of_nat o).

(** Offset [o] of frame [j] is the colour offset of some control. *)
Definition color_offset (j o : nat) : Prop :=
  ∃ c, c ∈ CONTROLS ∧ msg_index c = Z.of_nat j ∧ color_pos c = Z.of_nat o.

(** The channel a valid request asks for. *)
Definition requested_channel (template_num : Z) (channel_mode : ChannelMode)
    (global_channel : option Z) : option Z :=
  match channel_mode with
  | PER_TEMPLATE => Some (Z.min template_num 16)
  | GLOBAL => global_channel
  end.

(** A well-formed frame: [0xF0], then bytes that are neither marker, then
    [0xF7]. *)
Definition well_formed_frame (f : list Z) : Prop :=
  ∃ body, f = 0xF0 :: body ++ [0xF7]
          ∧ Forall (λ b, b ≠ 0xF0 ∧ b ≠ 0xF7) body.

(** A complete span: it starts with [0xF0], ends with the first [0xF7]
    after it. *)
Definition complete_span (f : list Z) : Prop :=
  ∃ body, f = 0xF0 :: body ++ [0xF7] ∧ Forall (λ b, b ≠ 0xF7) body.

(** The frames a byte stream splits into, read off the stream from left to
    right: bytes before a start byte are skipped, a start byte followed by
    an end byte closes a frame at the first end byte, a start byte with
    no end byte after it ends the scan. *)
Inductive splits : list Z → list (list Z) → Prop :=
| splits_nil : splits [] []
| splits_skip b rest fs :
    b ≠ 0xF0 → splits rest fs → splits (b :: rest) fs
| splits_frame body rest fs :
    Forall (λ b, b ≠ 0xF7) body → splits rest fs →
    splits (0xF0 :: body ++ 0xF7 :: rest) ((0xF0 :: body ++ [0xF7]) :: fs)
| splits_open tail :
    Forall (λ b, b ≠ 0xF7) tail → splits (0xF0 :: tail) [].

(** Byte [b] is the code of some colour of the table. *)
Definition in_color_table (b : Z) : Prop := ∃ name, (name, b) ∈ COLOR_MAP.

(** The byte the colour table resolves the extracted name of [b] to. *)
Definition resolved (b : Z) : Z := color_value_of (find_color_name COLOR_MAP b).

End Spec.

(** ** Colour patches as lists of keyed writes *)

Module ColorPatch.

Import Generator LedMapper Patch.

(** The grid position of an enumerated control. *)
Definition position_of (ic : Z * control) : option (Z * Z) :=
  _control_index_to_position ic.1.

(** The colour name extraction records for a control of [messages]. *)
Definition extracted_name (messages : list bytearray) (c : control) : string :=
  find_color_name COLOR_MAP
    ((messages !!! Z.to_nat (msg_index c)) !!! Z.to_nat (color_pos c)).

(** The write [_apply_colors_to_sysex] performs for a control that has a
    grid position, under the colour mapping [cs]. *)
Definition color_write_of (cs : gmap (Z * Z) string) (ic : Z * control)
    : option write :=
  (λ p, ((msg_index ic.2, color_pos ic.2),
         color_value_of (default "off"%string (cs !! p))))
    <$> position_of ic.

Definition color_writes (cs : gmap (Z * Z) string) : list write :=
  omap (color_write_of cs) (enumerate CONTROLS).

End ColorPatch.

(** ** Writing template files: the rest of [lib/sysex_generator.py] *)

Module Batch.

Import Generator.

(** Exceptions of the file-writing layer: those of the generator, and the
    [IOError] raised for a failed directory creation or file write (the
    operating system's own message, appended by the source, is left out). *)
Inductive io_exn : Type :=
| Raised (e : exn)
| IOError (msg : string).

(** The file system: file contents by path, and the directories made. *)
Record filesystem : Type := {
  files : gmap string (list Z);
  directories : gset string
}.

(** What the operating system refuses: the paths on which creating a
    directory or writing a file fails. *)
Abbreviation environment := (string → bool) (only parsing).

(** Computations on the object store and the file system. *)
Definition W (A : Type) : Type :=
  store * filesystem → (io_exn + A) * (store * filesystem).

#[global] Instance W_ret : MRet W := λ A a w, (inr a, w).

#[global] Instance W_bind : MBind W := λ A B k m w,
  match m w with
  | (inl e, w') => (inl e, w')
  | (inr a, w') => k a w'
  end.

(** A generator computation inside the file-writing layer. *)
Definition lift {A : Type} (m : M A) : W A := λ w,
  match m w.1 with
  | (inl e, σ') => (inl (Raised e), (σ', w.2))
  | (inr a, σ') => (inr a, (σ', w.2))
  end.

(** [f"{n:02d}"]: decimal, padded with a zero to two characters. *)
Definition format_02d (n : Z) : string :=
  let s := pretty n in
  if bool_decide (String.length s < 2)%nat then "0" +:+ s else s.

(** [output_dir / f"{output_prefix}_T{template_num:02d}.syx"], paths kept
    as the strings they are built from. *)
Definition template_path (output_dir output_prefix : string) (template_num : Z)
    : string :=
  output_dir +:+ "/" +:+ output_prefix +:+ "_T" +:+ format_02d template_num
  +:+ ".syx".

(** [output_dir.mkdir(parents=True, exist_ok=True)] with its [except]
    clause. *)
Definition make_output_dir (env : environment) (output_dir : string) : W unit :=
  λ w,
    if env output_dir
    then (inl (IOError ("Failed to create output directory " +:+ output_dir)), w)
    else (inr tt, (w.1, {| files := files w.2;
                           directories := {[output_dir]} ∪ directories w.2 |})).

(** [b"".join(bytes(msg) for msg in messages)] *)
Fixpoint join_messages (messages : list loc) : M (list Z) :=
  match messages with
  | [] => mret []
  | l :: messages' =>
      b ← deref l; rest ← join_messages messages'; mret (b ++ rest)
  end.

(** [file_path.write_bytes(data)] with the [except] clause of
    [_write_sysex_file]. *)
Definition write_bytes (env : environment) (file_path : string) (data : list Z)
    : W unit :=
  λ w,
    if env file_path
    then (inl (IOError ("Failed to write file " +:+ file_path)), w)
    else (inr tt, (w.1, {| files := <[file_path := data]> (files w.2);
                           directories := directories w.2 |})).

Definition _write_sysex_file (env : environment) (file_path : string)
    (messages : list loc) : W unit :=
  combined_data ← lift (join_messages messages);
  write_bytes env file_path combined_data.

(** The loop of [generate_all_templates] over the template numbers still
    to do; an exception of the body is logged and raised again.  The
    logging calls, and the channel they look up once more for the log
    line, have no effect and are left out. *)
Fixpoint generate_loop (env : environment) (self : SysExTemplateGenerator)
    (template_nums : list Z) (channel_mode : ChannelMode) (cc_mode : CCMode)
    (global_channel : option Z) (output_prefix output_dir : string)
    (min_cc_value : Z) (cc_reverse : bool) (generated_files : list string)
    : W (list string) :=
  match template_nums with
  | [] => mret generated_files
  | template_num :: template_nums' =>
      messages ← lift (generate_template self template_num channel_mode cc_mode
                         global_channel min_cc_value cc_reverse);
      let output_file := template_path output_dir output_prefix template_num in
      _write_sysex_file env output_file messages;;
      generate_loop env self template_nums' channel_mode cc_mode global_channel
        output_prefix output_dir min_cc_value cc_reverse
        (generated_files ++ [output_file])
  end.

Definition generate_all_templates (env : environment)
    (self : SysExTemplateGenerator) (template_count : Z)
    (channel_mode : ChannelMode) (cc_mode : CCMode) (global_channel : option Z)
    (output_prefix : string) (output_dir : option string) (min_cc_value : Z)
    (cc_reverse : bool) : W (list string) :=
  template_count ← lift (_validate_template_count template_count);
  let output_dir := default "./outputs"%string output_dir in
  make_output_dir env output_dir;;
  generate_loop env self (seqZ 1 template_count) channel_mode cc_mode
    global_channel output_prefix output_dir min_cc_value cc_reverse [].

(** [frames] are the frames [generate_template] returns for template
    [template_num]: from any store in which the generator is set up, the
    call allocates them as new objects and returns their locations. *)
Definition frames_of_template (self : SysExTemplateGenerator) (template_num : Z)
    (channel_mode : ChannelMode) (cc_mode : CCMode) (global_channel : option Z)
    (min_cc_value : Z) (cc_reverse : bool) (frames : list bytearray) : Prop :=
  ∀ σ, Spec.generator_ok σ self →
       generate_template self template_num channel_mode cc_mode global_channel
         min_cc_value cc_reverse σ
       = (inr (seq (length σ) (length frames)), σ ++ frames).

End Batch.

Import Generator LedMapper Patch Spec ColorPatch Batch.

(** * Properties *)

(** ** Keyed writes *)

Section last_write_facts.
Context {K V : Type} `{EqDecision K}.
Implicit Types (ws : list (K * V)) (k : K) (v : V).

Lemma last_write_app ws1 ws2 k :
  last_write (ws1 ++ ws2) k =
  match last_write ws2 k with
  | Some v => Some v
  | None => last_write ws1 k
  end.
Proof.
  induction ws1 as [|[k' v'] ws1 IH]; simpl.
  - by destruct (last_write ws2 k).
  - rewrite IH. by destruct (last_write ws2 k).
Qed.

Lemma last_write_None ws k : k ∉ ws.*1 → last_write ws k = None.
Proof.
  induction ws as [|[k' v'] ws IH]; simpl; [done|].
  intros Hk. apply not_elem_of_cons in Hk as [Hne Hk].
  rewrite (IH Hk). by rewrite decide_False.
Qed.

Lemma last_write_NoDup ws k v :
  NoDup ws.*1 → (k, v) ∈ ws → last_write ws k = Some v.
Proof.
  induction ws as [|[k' v'] ws IH]; simpl; intros Hnd Hin.
  - by apply elem_of_nil in Hin.
  - apply NoDup_cons in Hnd as [Hk' Hnd].
    apply elem_of_cons in Hin as [Heq|Hin].
    + injection Heq as <- <-. rewrite (last_write_None ws k Hk').
      by rewrite decide_True.
    + by rewrite (IH Hnd Hin).
Qed.

End last_write_facts.

(** ** Frames held by value *)

Lemma shape_write2 (ms : list bytearray) (w : write) :
  shape (write2 ms w) = shape ms.
Proof.
  destruct w as [[mi p] v]. unfold shape, write2; simpl.
  apply list_eq. intros j. rewrite !list_lookup_fmap.
  destruct (decide (j = Z.to_nat mi)) as [->|Hne].
  - destruct (ms !! Z.to_nat mi) as [m|] eqn:Hm.
    + rewrite list_lookup_insert_eq by (by eapply lookup_lt_Some).
      rewrite (list_lookup_total_correct _ _ _ Hm). simpl.
      by rewrite length_insert.
    + rewrite list_insert_ge by (by apply lookup_ge_None). by rewrite Hm.
  - by rewrite list_lookup_insert_ne.
Qed.

Lemma shape_foldl_write2 (ws : list write) (ms : list bytearray) :
  shape (foldl write2 ms ws) = shape ms.
Proof.
  revert ms. induction ws as [|w ws IH]; intros ms; simpl; [done|].
  by rewrite IH, shape_write2.
Qed.

Lemma length_foldl_write2 (ws : list write) (ms : list bytearray) :
  length (foldl write2 ms ws) = length ms.
Proof.
  revert ms. induction ws as [|w ws IH]; intros ms; simpl; [done|].
  rewrite IH. unfold write2. apply length_insert.
Qed.

Lemma lookup2_write2 (ms : list bytearray) (w : write) (j o : nat) :
  0 ≤ w.1.1 → 0 ≤ w.1.2 →
  lookup2 (write2 ms w) j o =
  match lookup2 ms j o with
  | Some b => Some (if decide (w.1 = (Z.of_nat j, Z.of_nat o)) then w.2 else b)
  | None => None
  end.
Proof.
  destruct w as [[mi p] v]; simpl. intros Hmi Hp.
  unfold lookup2, write2; simpl.
  destruct (decide (j = Z.to_nat mi)) as [->|Hj].
  - destruct (ms !! Z.to_nat mi) as [m|] eqn:Hm; simpl.
    + rewrite list_lookup_insert_eq by (by eapply lookup_lt_Some).
      rewrite (list_lookup_total_correct _ _ _ Hm). simpl.
      destruct (decide (o = Z.to_nat p)) as [->|Ho].
      * destruct (m !! Z.to_nat p) as [b|] eqn:Hb.
        -- rewrite list_lookup_insert_eq by (by eapply lookup_lt_Some).
           rewrite decide_True; [done|]. f_equal; lia.
        -- rewrite list_insert_ge by (by apply lookup_ge_None). by rewrite Hb.
      * rewrite list_lookup_insert_ne by done.
        destruct (m !! o); [|done].
        rewrite decide_False; [done|]. intros [= _ ->]. lia.
    + rewrite list_insert_ge by (by apply lookup_ge_None). by rewrite Hm.
  - rewrite list_lookup_insert_ne by done.
    destruct (ms !! j ≫= _); [|done].
    rewrite decide_False; [done|]. intros [= -> _]. lia.
Qed.

Lemma lookup2_foldl_write2 (ws : list write) (ms : list bytearray) (j o : nat) :
  Forall (λ w : write, 0 ≤ w.1.1 ∧ 0 ≤ w.1.2) ws →
  lookup2 (foldl write2 ms ws) j o =
  match lookup2 ms j o with
  | Some b => Some (default b (last_write ws (Z.of_nat j, Z.of_nat o)))
  | None => None
  end.
Proof.
  revert ms. induction ws as [|w ws IH]; intros ms Hnn; simpl.
  - by destruct (lookup2 ms j o).
  - apply Forall_cons in Hnn as [[Hmi Hp] Hnn].
    rewrite (IH _ Hnn), lookup2_write2 by done.
    destruct w as [k v]; simpl.
    destruct (lookup2 ms j o); [|done].
    destruct (last_write ws _); [done|]. by destruct (decide _).
Qed.

(** ** Frames held in the store *)

Lemma py_index_nonneg (len : nat) (i : Z) :
  0 ≤ i → (Z.to_nat i < len)%nat → py_index len i = Some (Z.to_nat i).
Proof.
  intros Hi Hlt. unfold py_index. rewrite bool_decide_eq_true_2; [done|lia].
Qed.

Lemma bind_run {A B : Type} (m : M A) (k : A → M B) (σ : store) :
  (m ≫= k) σ =
  match m σ with
  | (inl e, σ') => (inl e, σ')
  | (inr a, σ') => k a σ'
  end.
Proof. done. Qed.

Lemma for_each_app {A : Type} (xs ys : list A) (body : A → M unit) (σ : store) :
  for_each (xs ++ ys) body σ = (for_each xs body ;; for_each ys body) σ.
Proof.
  revert σ. induction xs as [|x xs IH]; intros σ; simpl.
  - done.
  - rewrite !bind_run. destruct (body x σ) as [[e|[]] σ1]; [done|].
    rewrite IH. by rewrite bind_run.
Qed.

Lemma do_writes_app (messages : list loc) (ws1 ws2 : list write) (σ : store) :
  do_writes messages (ws1 ++ ws2) σ =
  (do_writes messages ws1 ;; do_writes messages ws2) σ.
Proof. apply for_each_app. Qed.

(** A loop whose body performs the writes [g x] performs the writes of all
    its iterations in order. *)
Lemma for_each_do_writes {A : Type} (messages : list loc) (xs : list A)
    (body : A → M unit) (g : A → list write) (σ : store) :
  (∀ x σ', body x σ' = do_writes messages (g x) σ') →
  for_each xs body σ = do_writes messages (xs ≫= g) σ.
Proof.
  intros Hbody. revert σ. induction xs as [|x xs IH]; intros σ; [done|].
  change ((x :: xs) ≫= g) with (g x ++ (xs ≫= g)).
  rewrite do_writes_app. simpl. rewrite !bind_run, Hbody.
  destruct (do_writes messages (g x) σ) as [[e|[]] σ1]; [done|].
  apply IH.
Qed.
Lemma py_index_nonneg_spec (len : nat) (i : Z) :
  0 ≤ i →
  py_index len i = if decide (Z.to_nat i < len)%nat then Some (Z.to_nat i) else None.
Proof.
  intros Hi. unfold py_index. destruct (decide _) as [Hlt|Hge].
  - rewrite bool_decide_eq_true_2; [done|lia].
  - rewrite !bool_decide_eq_false_2; [done|lia..].
Qed.

(** One store write on non-negative indices: it succeeds exactly when the
    write is valid for the frames, and then acts as [write2] on them and
    touches no other object; otherwise it raises and leaves the store as
    it is. *)
Lemma setitem2_spec (σ : store) (messages : list loc) (ms : list bytearray)
    (w : write) :
  NoDup messages → points_to σ messages ms → 0 ≤ w.1.1 → 0 ≤ w.1.2 →
  match setitem2 messages w.1.1 w.1.2 w.2 σ with
  | (inr _, σ') =>
      valid_write (shape ms) w
      ∧ length σ' = length σ
      ∧ (∀ l, l ∉ messages → σ' !! l = σ !! l)
      ∧ points_to σ' messages (write2 ms w)
  | (inl _, σ') => σ' = σ ∧ ¬ valid_write (shape ms) w
  end.
Proof.
  destruct w as [[mi p] v]. unfold valid_write, shape; simpl.
  intros Hnd Hpt Hmi Hp.
  pose proof (Forall2_length _ _ _ Hpt) as Hlen.
  unfold setitem2, list_getitem. rewrite bind_run.
  rewrite py_index_nonneg_spec by done.
  destruct (decide (Z.to_nat mi < length messages)%nat) as [Hj|Hj]; simpl.
  2: { split; [done|]. intros (_ & _ & _ & n & Hn & _).
       apply lookup_lt_Some in Hn. rewrite length_fmap in Hn. lia. }
  destruct (lookup_lt_is_Some_2 messages _ Hj) as [l Hl]. rewrite Hl. simpl.
  destruct (Forall2_lookup_l _ _ _ _ _ Hpt Hl) as (m & Hm & Hσ).
  unfold bytearray_setitem. rewrite Hσ.
  rewrite py_index_nonneg_spec by done.
  rewrite list_lookup_fmap, Hm. simpl.
  destruct (decide (Z.to_nat p < length m)%nat) as [Ho|Ho].
  2: { split; [done|]. intros (_ & _ & _ & n & [= <-] & Hn). lia. }
  destruct (decide (0 ≤ v < 256)) as [Hv|Hv].
  2: { rewrite bool_decide_eq_false_2 by done. split; [done|]. tauto. }
  rewrite bool_decide_eq_true_2 by done.
  split; [|split; [|split]].
  - eauto 10.
  - by rewrite length_insert.
  - intros l' Hl'. rewrite list_lookup_insert_ne; [done|].
    intros ->. apply Hl'. by eapply list_elem_of_lookup_2.
  - unfold points_to, write2; simpl.
    apply Forall2_same_length_lookup. split.
    + by rewrite length_insert.
    + intros i l' m' Hl' Hm'.
      destruct (decide (i = Z.to_nat mi)) as [->|Hne].
      * rewrite list_lookup_insert_eq in Hm' by (by eapply lookup_lt_Some).
        rewrite (list_lookup_total_correct _ _ _ Hm) in Hm'.
        injection Hm' as <-. rewrite Hl in Hl'. injection Hl' as <-.
        apply list_lookup_insert_eq. by eapply lookup_lt_Some.
      * rewrite list_lookup_insert_ne in Hm' by done.
        rewrite list_lookup_insert_ne.
        -- by eapply (Forall2_lookup_lr _ _ _ _ _ _ Hpt).
        -- intros ->. apply Hne. symmetry. by eapply NoDup_lookup.
Qed.

(** A sequence of store writes: whatever the outcome, no object outside
    [messages] is touched; it succeeds exactly when every write is valid,
    and then the frames are the fold of [write2]. *)
Lemma do_writes_spec (ws : list write) (σ σ' : store) (messages : list loc)
    (ms : list bytearray) (r : exn + unit) :
  NoDup messages → points_to σ messages ms →
  Forall (λ w : write, 0 ≤ w.1.1 ∧ 0 ≤ w.1.2) ws →
  do_writes messages ws σ = (r, σ') →
  length σ' = length σ
  ∧ (∀ l, l ∉ messages → σ' !! l = σ !! l)
  ∧ match r with
    | inr _ =>
        Forall (valid_write (shape ms)) ws
        ∧ points_to σ' messages (foldl write2 ms ws)
    | inl _ => ¬ Forall (valid_write (shape ms)) ws
    end.
Proof.
  intros Hnd. revert σ ms.
  induction ws as [|w ws IH]; intros σ ms Hpt Hnn Hrun.
  - injection Hrun as <- <-. by repeat split.
  - apply Forall_cons in Hnn as [[Hmi Hp] Hnn].
    pose proof (setitem2_spec σ messages ms w Hnd Hpt Hmi Hp) as Hw.
    unfold do_writes in Hrun. cbn [for_each] in Hrun. rewrite bind_run in Hrun.
    destruct (setitem2 messages w.1.1 w.1.2 w.2 σ) as [[e|[]] σ1].
    + destruct Hw as [-> Hw]. injection Hrun as <- <-.
      split; [done|]. split; [done|].
      intros Hall. by apply Forall_cons in Hall as [? _].
    + destruct Hw as (Hv & Hlen1 & Hout1 & Hpt1).
      destruct (IH σ1 _ Hpt1 Hnn Hrun) as (Hlen & Hout & Hres).
      rewrite shape_write2 in Hres.
      split; [congruence|]. split.
      * intros l Hl. by rewrite Hout, Hout1.
      * destruct r.
        -- intros Hall. by apply Forall_cons in Hall as [_ ?].
        -- destruct Hres as [Hall Hpt']. split; [by apply Forall_cons|done].
Qed.

Lemma do_writes_ok (ws : list write) (σ : store) (messages : list loc)
    (ms : list bytearray) :
  NoDup messages → points_to σ messages ms →
  Forall (λ w : write, 0 ≤ w.1.1 ∧ 0 ≤ w.1.2) ws →
  Forall (valid_write (shape ms)) ws →
  ∃ σ', do_writes messages ws σ = (inr tt, σ')
        ∧ length σ' = length σ
        ∧ (∀ l, l ∉ messages → σ' !! l = σ !! l)
        ∧ points_to σ' messages (foldl write2 ms ws).
Proof.
  intros Hnd Hpt Hnn Hval.
  destruct (do_writes messages ws σ) as [[e|[]] σ'] eqn:Hrun.
  - by destruct (do_writes_spec ws σ σ' messages ms _ Hnd Hpt Hnn Hrun)
      as (_ & _ & Hres).
  - destruct (do_writes_spec ws σ σ' messages ms _ Hnd Hpt Hnn Hrun)
      as (Hlen & Hout & _ & Hpt').
    by exists σ'.
Qed.

Lemma copy_bytearrays_run (refs : list loc) (ms : list bytearray)
    (σ ext : store) :
  points_to σ refs ms →
  copy_bytearrays refs (σ ++ ext) =
  (inr (seq (length (σ ++ ext)) (length ms)), σ ++ ext ++ ms).
Proof.
  unfold points_to. intros Hpt. revert ext.
  induction Hpt as [|r m refs ms Hr Hpt IH]; intros ext; simpl.
  - by rewrite app_nil_r.
  - rewrite !bind_run. unfold deref at 1.
    rewrite (lookup_app_l_Some _ _ _ _ Hr).
    unfold new_bytearray at 1. rewrite bind_run. simpl.
    rewrite <- (assoc_L (++)), bind_run, IH. simpl.
    rewrite <- !(assoc_L (++)). simpl. unfold mret, M_ret. do 4 f_equal.
    rewrite !length_app. simpl. lia.
Qed.

Lemma copy_bytearrays_ok (refs : list loc) (ms : list bytearray) (σ : store) :
  points_to σ refs ms →
  copy_bytearrays refs σ = (inr (seq (length σ) (length ms)), σ ++ ms).
Proof.
  intros Hpt. pose proof (copy_bytearrays_run refs ms σ [] Hpt) as H.
  by rewrite app_nil_r in H.
Qed.

Lemma new_bytearrays_ok (srcs : list (list Z)) (σ : store) :
  new_bytearrays srcs σ = (inr (seq (length σ) (length srcs)), σ ++ srcs).
Proof.
  revert σ. induction srcs as [|src srcs IH]; intros σ; simpl.
  - by rewrite app_nil_r.
  - rewrite !bind_run. unfold new_bytearray at 1. simpl.
    rewrite bind_run, IH. simpl.
    rewrite <- (assoc_L (++)). simpl. unfold mret, M_ret. do 4 f_equal.
    rewrite length_app. simpl. lia.
Qed.

Lemma points_to_seq (σ : store) (ms : list bytearray) :
  points_to (σ ++ ms) (seq (length σ) (length ms)) ms.
Proof.
  apply Forall2_same_length_lookup. split; [by rewrite length_seq|].
  intros i l m Hl Hm. apply lookup_seq in Hl as [-> _].
  by rewrite lookup_app_r, Nat.add_comm, Nat.add_sub by lia.
Qed.

(** ** The control table *)

Lemma enumerate_from_lookup {A : Type} (xs : list A) (start : Z) (n : nat) :
  enumerate_from start xs !! n = (λ x, (start + Z.of_nat n, x)) <$> xs !! n.
Proof.
  revert start n. induction xs as [|x xs IH]; intros start [|n]; simpl; try done.
  - by rewrite Z.add_0_r.
  - rewrite IH. destruct (xs !! n); simpl; [|done]. do 2 f_equal. lia.
Qed.

Lemma elem_of_enumerate {A : Type} (xs : list A) (i : Z) (x : A) :
  0 ≤ i → xs !! Z.to_nat i = Some x → (i, x) ∈ enumerate xs.
Proof.
  intros Hi Hx. apply list_elem_of_lookup. exists (Z.to_nat i).
  unfold enumerate. rewrite enumerate_from_lookup, Hx. simpl.
  do 2 f_equal. lia.
Qed.

Lemma enumerate_from_snd {A : Type} (xs : list A) (start : Z) :
  (enumerate_from start xs).*2 = xs.
Proof.
  revert start. induction xs as [|x xs IH]; intros start; simpl; [done|].
  by rewrite IH.
Qed.

Lemma elem_of_enumerate_snd {A : Type} (xs : list A) (ic : Z * A) :
  ic ∈ enumerate xs → ic.2 ∈ xs.
Proof.
  intros Hin. rewrite <- (enumerate_from_snd xs 0).
  by apply list_elem_of_fmap_2.
Qed.

Lemma CONTROLS_length : length CONTROLS = 48%nat.
Proof. reflexivity. Qed.

Lemma N_CONTROLS_eq : N_CONTROLS = Z.of_nat (length CONTROLS).
Proof. reflexivity. Qed.

(** Control indices run from 0 to 47 and no offset is negative. *)
Lemma CONTROLS_nonneg :
  Forall (λ ic : Z * control,
            0 ≤ ic.1 < 48 ∧ 0 ≤ msg_index ic.2 ∧ 0 ≤ cc_pos ic.2
            ∧ 0 ≤ ch_pos ic.2 ∧ 0 ≤ color_pos ic.2 ∧ 0 ≤ flag_pos ic.2)
         (enumerate CONTROLS).
Proof. compute_done. Qed.

Lemma CONTROLS_lookup_range (i : Z) (c : control) :
  0 ≤ i → CONTROLS !! Z.to_nat i = Some c → i < 48.
Proof.
  intros Hi Hc. apply lookup_lt_Some in Hc. rewrite CONTROLS_length in Hc. lia.
Qed.

(** The factory frames hold every offset of the table. *)
Lemma fits_EMBEDDED_MSGS : fits EMBEDDED_MSGS.
Proof. unfold fits. compute_done. Qed.

(** ** The patch loops as sequences of writes *)

Lemma for_each_ext {A : Type} (xs : list A) (body1 body2 : A → M unit) (σ : store) :
  (∀ x σ', body1 x σ' = body2 x σ') →
  for_each xs body1 σ = for_each xs body2 σ.
Proof.
  intros Hext. revert σ. induction xs as [|x xs IH]; intros σ; simpl; [done|].
  rewrite !bind_run, Hext. destruct (body2 x σ) as [[e|[]] σ1]; [done|apply IH].
Qed.

Lemma for_each_fmap {A B : Type} (f : A → B) (xs : list A) (body : B → M unit)
    (σ : store) :
  for_each (f <$> xs) body σ = for_each xs (λ x, body (f x)) σ.
Proof.
  revert σ. induction xs as [|x xs IH]; intros σ; simpl; [done|].
  rewrite !bind_run. destruct (body (f x) σ) as [[e|[]] σ1]; [done|apply IH].
Qed.

Lemma assign_as_writes (messages : list loc) (template_index : Z)
    (cc_mode : CCMode) (min_cc_value : Z) (cc_reverse : bool) (σ : store) :
  Generator._assign_continuous_controllers messages template_index cc_mode
    min_cc_value cc_reverse σ =
  do_writes messages
    (cc_writes (Generator.cc_value_for template_index cc_mode
                  (Z.max min_cc_value SAFE_CC_MIN)
                  (SAFE_CC_MAX - Z.max min_cc_value SAFE_CC_MIN + 1)
                  cc_reverse)) σ.
Proof.
  unfold Generator._assign_continuous_controllers, do_writes, cc_writes.
  rewrite for_each_fmap. apply for_each_ext. by intros [i c] σ'.
Qed.

Lemma legacy_assign_as_writes (messages : list loc) (template_index : Z)
    (cc_mode : CCMode) (σ : store) :
  Legacy._assign_continuous_controllers messages template_index cc_mode σ =
  do_writes messages (cc_writes (Legacy.cc_value_for template_index cc_mode)) σ.
Proof.
  unfold Legacy._assign_continuous_controllers, do_writes, cc_writes.
  rewrite for_each_fmap. apply for_each_ext. by intros [i c] σ'.
Qed.

Lemma channel_loop_as_writes (messages : list loc) (zero_based_channel : Z)
    (σ : store) :
  for_each CONTROLS (λ c,
    setitem2 messages (msg_index c) (ch_pos c) zero_based_channel;;
    if bool_decide (flag_pos c >= 0)
    then setitem2 messages (msg_index c) (flag_pos c) 0x00
    else mret tt) σ =
  do_writes messages (channel_writes zero_based_channel) σ.
Proof.
  apply for_each_do_writes. intros c σ'.
  unfold channel_writes_of, do_writes. simpl. rewrite !bind_run.
  destruct (setitem2 _ _ _ _ σ') as [[e|[]] σ1]; [done|].
  destruct (bool_decide (flag_pos c >= 0)); simpl; [|done].
  rewrite bind_run. by destruct (setitem2 _ _ _ _ σ1) as [[e|[]] σ2].
Qed.

(** No two writes of a template generation hit the same byte. *)
Lemma patch_keys_NoDup (zero_based_channel : Z) (f : Z → Z) :
  NoDup (channel_writes zero_based_channel ++ cc_writes f).*1.
Proof. apply (bool_decide_unpack _). vm_compute. exact I. Qed.

Lemma cc_keys_NoDup (f : Z → Z) : NoDup (cc_writes f).*1.
Proof. apply (bool_decide_unpack _). vm_compute. exact I. Qed.

Lemma cc_writes_nonneg (f : Z → Z) :
  Forall (λ w : write, 0 ≤ w.1.1 ∧ 0 ≤ w.1.2) (cc_writes f).
Proof.
  unfold cc_writes. apply Forall_fmap.
  eapply Forall_impl; [apply CONTROLS_nonneg|]. simpl. tauto.
Qed.

Lemma CONTROLS_offsets_nonneg :
  Forall (λ c : control,
            0 ≤ msg_index c ∧ 0 ≤ cc_pos c ∧ 0 ≤ ch_pos c ∧ 0 ≤ color_pos c
            ∧ 0 ≤ flag_pos c)
         CONTROLS.
Proof. compute_done. Qed.

Lemma channel_writes_nonneg (zero_based_channel : Z) :
  Forall (λ w : write, 0 ≤ w.1.1 ∧ 0 ≤ w.1.2) (channel_writes zero_based_channel).
Proof.
  unfold channel_writes. apply Forall_bind.
  eapply Forall_impl; [apply CONTROLS_offsets_nonneg|].
  intros c (Hmi & _ & Hch & _ & Hfl). unfold channel_writes_of. simpl.
  apply Forall_cons. split; [done|].
  destruct (bool_decide (flag_pos c >= 0)); [|done].
  by apply Forall_singleton.
Qed.

(** What [fits] gives for one control. *)
Lemma fits_lookup (ms : list bytearray) (c : control) :
  fits ms → c ∈ CONTROLS →
  ∃ n : nat, shape ms !! Z.to_nat (msg_index c) = Some n
             ∧ cc_pos c < Z.of_nat n ∧ ch_pos c < Z.of_nat n
             ∧ flag_pos c < Z.of_nat n.
Proof.
  intros Hfits Hc. unfold fits in Hfits.
  rewrite Forall_forall in Hfits. specialize (Hfits c Hc). simpl in Hfits.
  pose proof CONTROLS_offsets_nonneg as Hnn.
  rewrite Forall_forall in Hnn. specialize (Hnn c Hc).
  unfold shape. rewrite list_lookup_fmap.
  destruct (ms !! Z.to_nat (msg_index c)) as [m|] eqn:Hm.
  - rewrite (list_lookup_total_correct _ _ _ Hm) in Hfits. simpl. eauto.
  - rewrite list_lookup_total_alt, Hm in Hfits. simpl in Hfits. lia.
Qed.

Lemma cc_writes_valid (ms : list bytearray) (f : Z → Z) :
  fits ms → (∀ i, 0 ≤ i < 48 → 0 ≤ f i < 256) →
  Forall (valid_write (shape ms)) (cc_writes f).
Proof.
  intros Hfits Hf. unfold cc_writes. apply Forall_fmap, Forall_forall.
  intros [i c] Hic. pose proof CONTROLS_nonneg as Hnn.
  rewrite Forall_forall in Hnn. destruct (Hnn _ Hic) as (Hi & Hmi & Hcc & _).
  apply elem_of_enumerate_snd in Hic.
  destruct (fits_lookup ms c Hfits Hic) as (n & Hn & Hlt & _).
  unfold valid_write; simpl in *.
  split; [by apply Hf|]. split; [done|]. split; [done|].
  exists n. split; [done|lia].
Qed.

Lemma channel_writes_valid (ms : list bytearray) (zero_based_channel : Z) :
  fits ms → 0 ≤ zero_based_channel < 256 →
  Forall (valid_write (shape ms)) (channel_writes zero_based_channel).
Proof.
  intros Hfits Hz. unfold channel_writes. apply Forall_bind, Forall_forall.
  intros c Hc. pose proof CONTROLS_offsets_nonneg as Hnn.
  rewrite Forall_forall in Hnn. destruct (Hnn _ Hc) as (Hmi & _ & Hch & _ & Hfl).
  destruct (fits_lookup ms c Hfits Hc) as (n & Hn & _ & Hlt1 & Hlt2).
  unfold channel_writes_of. simpl. apply Forall_cons. split.
  - unfold valid_write; simpl.
    split; [done|]. split; [done|]. split; [done|].
    exists n. split; [done|lia].
  - destruct (bool_decide (flag_pos c >= 0)); [|done].
    apply Forall_singleton. unfold valid_write; simpl.
    split; [done|]. split; [done|]. split; [done|].
    exists n. split; [done|lia].
Qed.

(** The frames after a CC assignment loop that stores [f control_index]:
    the loop succeeds, each control's CC offset holds its value, every
    other byte and every other object is as before. *)
Lemma cc_loop_written (f : Z → Z) (σ : store) (messages : list loc)
    (ms : list bytearray) :
  patchable σ messages ms →
  (∀ i, 0 ≤ i < 48 → 0 ≤ f i < 256) →
  ∃ σ' ms',
    do_writes messages (cc_writes f) σ = (inr tt, σ')
    ∧ length σ' = length σ
    ∧ (∀ l, l ∉ messages → σ' !! l = σ !! l)
    ∧ points_to σ' messages ms'
    ∧ shape ms' = shape ms
    ∧ (∀ i c, 0 ≤ i → CONTROLS !! Z.to_nat i = Some c →
         lookup2 ms' (Z.to_nat (msg_index c)) (Z.to_nat (cc_pos c)) = Some (f i))
    ∧ (∀ j o : nat,
         (∀ c, c ∈ CONTROLS → (msg_index c, cc_pos c) ≠ (Z.of_nat j, Z.of_nat o)) →
         lookup2 ms' j o = lookup2 ms j o).
Proof.
  intros (Hnd & Hpt & Hfits) Hf.
  destruct (do_writes_ok (cc_writes f) σ messages ms Hnd Hpt
              (cc_writes_nonneg f) (cc_writes_valid ms f Hfits Hf))
    as (σ' & Hrun & Hlen & Hout & Hpt').
  exists σ', (foldl write2 ms (cc_writes f)).
  split; [done|]. split; [done|]. split; [done|]. split; [done|].
  split; [apply shape_foldl_write2|]. split.
  - intros i c Hi Hc.
    rewrite lookup2_foldl_write2 by apply cc_writes_nonneg.
    assert (Hin : (i, c) ∈ enumerate CONTROLS) by by apply elem_of_enumerate.
    pose proof CONTROLS_nonneg as Hnn.
    rewrite Forall_forall in Hnn. destruct (Hnn _ Hin) as (_ & Hmi & Hcc & _).
    simpl in Hmi, Hcc. rewrite !Z2Nat.id by done.
    rewrite (last_write_NoDup _ _ (f i) (cc_keys_NoDup f)).
    2: { unfold cc_writes.
         by apply (list_elem_of_fmap_2
                     (λ ic : Z * control, ((msg_index ic.2, cc_pos ic.2), f ic.1))
                     _ (i, c)). }
    apply elem_of_enumerate_snd in Hin.
    destruct (fits_lookup ms c Hfits Hin) as (n & Hn & Hlt & _).
    unfold shape in Hn. rewrite list_lookup_fmap in Hn. unfold lookup2.
    destruct (ms !! Z.to_nat (msg_index c)) as [m|]; [|done].
    injection Hn as <-. simpl.
    destruct (lookup_lt_is_Some_2 m (Z.to_nat (cc_pos c))) as [b ->]; [lia|done].
  - intros j o Hno.
    rewrite lookup2_foldl_write2 by apply cc_writes_nonneg.
    rewrite last_write_None; [by destruct (lookup2 ms j o)|].
    unfold cc_writes. rewrite <- list_fmap_compose.
    intros ([i c] & Heq & Hin)%list_elem_of_fmap. simpl in Heq.
    apply elem_of_enumerate_snd in Hin. by apply (Hno c Hin).
Qed.

(** ** CC assignment *)

(** The value the loop body computes is the value of the assignment
    algorithm over the 48 controls of the table. *)
Lemma cc_value_for_spec (t : Z) (cc_mode : CCMode) (requested_min : Z)
    (reverse : bool) (i : Z) :
  Generator.cc_value_for t cc_mode (Z.max requested_min SAFE_CC_MIN)
    (SAFE_CC_MAX - Z.max requested_min SAFE_CC_MIN + 1) reverse i =
  spec_cc_byte 48 i t cc_mode reverse requested_min.
Proof.
  unfold Generator.cc_value_for, spec_cc_byte, N_CONTROLS, SAFE_CC_MAX, SAFE_CC_MIN.
  destruct cc_mode, reverse; simpl; repeat case_bool_decide; lia.
Qed.

Lemma spec_cc_byte_range (N t i : Z) (cc_mode : CCMode) (reverse : bool)
    (requested_min : Z) :
  0 ≤ N → 0 ≤ t → 0 ≤ i →
  spec_cc_byte N i t cc_mode reverse requested_min = 0
  ∨ Z.max requested_min SAFE_CC_MIN
    ≤ spec_cc_byte N i t cc_mode reverse requested_min ≤ SAFE_CC_MAX.
Proof.
  intros HN Ht Hi. unfold spec_cc_byte, SAFE_CC_MAX, SAFE_CC_MIN.
  destruct cc_mode, reverse; simpl; repeat case_bool_decide; nia.
Qed.

Lemma spec_cc_byte_is_byte (t i : Z) (cc_mode : CCMode) (reverse : bool)
    (requested_min : Z) :
  0 ≤ t → 0 ≤ i → 0 ≤ spec_cc_byte 48 i t cc_mode reverse requested_min < 256.
Proof.
  intros Ht Hi.
  destruct (spec_cc_byte_range 48 t i cc_mode reverse requested_min) as [->|H];
    [lia..|].
  unfold SAFE_CC_MAX, SAFE_CC_MIN in H. lia.
Qed.

(** The library CC assignment loop, on frames the table fits: it succeeds
    and leaves at each control's CC offset the byte of the assignment
    algorithm over 48 controls; bytes at other offsets and other objects
    are untouched. *)
Lemma generator_assign_written (σ : store) (messages : list loc)
    (ms : list bytearray) (t : Z) (cc_mode : CCMode) (requested_min : Z)
    (reverse : bool) :
  patchable σ messages ms → 0 ≤ t →
  ∃ σ' ms',
    Generator._assign_continuous_controllers messages t cc_mode requested_min
      reverse σ = (inr tt, σ')
    ∧ length σ' = length σ
    ∧ (∀ l, l ∉ messages → σ' !! l = σ !! l)
    ∧ points_to σ' messages ms'
    ∧ shape ms' = shape ms
    ∧ (∀ i c, 0 ≤ i → CONTROLS !! Z.to_nat i = Some c →
         lookup2 ms' (Z.to_nat (msg_index c)) (Z.to_nat (cc_pos c)) =
         Some (spec_cc_byte 48 i t cc_mode reverse requested_min))
    ∧ (∀ j o : nat,
         (∀ c, c ∈ CONTROLS → (msg_index c, cc_pos c) ≠ (Z.of_nat j, Z.of_nat o)) →
         lookup2 ms' j o = lookup2 ms j o).
Proof.
  intros Hp Ht. rewrite assign_as_writes.
  destruct (cc_loop_written
              (Generator.cc_value_for t cc_mode (Z.max requested_min SAFE_CC_MIN)
                 (SAFE_CC_MAX - Z.max requested_min SAFE_CC_MIN + 1) reverse)
              σ messages ms Hp)
    as (σ' & ms' & Hrun & Hlen & Hout & Hpt & Hsh & Hcc & Hrest).
  { intros i Hi. rewrite cc_value_for_spec. apply spec_cc_byte_is_byte; lia. }
  exists σ', ms'. repeat (split; [done|]). split; [|done].
  intros i c Hi Hc. rewrite (Hcc i c Hi Hc). by rewrite cc_value_for_spec.
Qed.

Lemma legacy_cc_value_is_byte (t : Z) (cc_mode : CCMode) (i : Z) :
  0 ≤ Legacy.cc_value_for t cc_mode i < 256.
Proof.
  unfold Legacy.cc_value_for, MAX_CC_VALUE, MIN_CC_VALUE.
  destruct cc_mode.
  - pose proof (Z.mod_pos_bound i 127). lia.
  - pose proof (Z.mod_pos_bound (t * N_CONTROLS + i) 127). lia.
Qed.

Lemma legacy_assign_written (σ : store) (messages : list loc)
    (ms : list bytearray) (t : Z) (cc_mode : CCMode) :
  patchable σ messages ms →
  ∃ σ' ms',
    Legacy._assign_continuous_controllers messages t cc_mode σ = (inr tt, σ')
    ∧ points_to σ' messages ms'
    ∧ (∀ i c, 0 ≤ i → CONTROLS !! Z.to_nat i = Some c →
         lookup2 ms' (Z.to_nat (msg_index c)) (Z.to_nat (cc_pos c)) =
         Some (Legacy.cc_value_for t cc_mode i)).
Proof.
  intros Hp. rewrite legacy_assign_as_writes.
  destruct (cc_loop_written (Legacy.cc_value_for t cc_mode) σ messages ms Hp)
    as (σ' & ms' & Hrun & _ & _ & Hpt & _ & Hcc & _).
  { intros i _. apply legacy_cc_value_is_byte. }
  by exists σ', ms'.
Qed.

Lemma patchable_EMBEDDED_MSGS : patchable EMBEDDED_MSGS [0; 1]%nat EMBEDDED_MSGS.
Proof.
  split; [|split].
  - compute_done.
  - by repeat constructor.
  - apply fits_EMBEDDED_MSGS.
Qed.

(** C1, as amended: the control table has 48 entries.  For every control
    index [i] in [0, 48), zero-based template index [t], CC mode, reverse
    flag and requested minimum, the CC assignment loop writes at the
    control's CC offset the byte of the assignment algorithm with
    [lo = max(requested minimum, safe minimum)], [hi = safe maximum] and
    logical offset [k = i] in restart mode, [k = t * 48 + i] in continuous
    mode: 0 if [k >= hi - lo + 1], otherwise [lo + k] (0 above [hi]) when
    forward and [hi - k] (0 below [lo]) when reversed. *)
Theorem cc_assignment_algorithm (σ : store) (messages : list loc)
    (ms : list bytearray) (t i : Z) (c : control) (cc_mode : CCMode)
    (reverse : bool) (requested_min : Z) :
  patchable σ messages ms →
  0 ≤ t → 0 ≤ i → CONTROLS !! Z.to_nat i = Some c →
  ∃ σ' ms',
    Generator._assign_continuous_controllers messages t cc_mode requested_min
      reverse σ = (inr tt, σ')
    ∧ points_to σ' messages ms'
    ∧ lookup2 ms' (Z.to_nat (msg_index c)) (Z.to_nat (cc_pos c)) =
      Some (spec_cc_byte 48 i t cc_mode reverse requested_min).
Proof.
  intros Hp Ht Hi Hc.
  destruct (generator_assign_written σ messages ms t cc_mode requested_min
              reverse Hp Ht)
    as (σ' & ms' & Hrun & _ & _ & Hpt & _ & Hcc & _).
  exists σ', ms'. eauto.
Qed.

Lemma cc_assignment_algorithm_witness :
  ∃ σ' ms',
    Generator._assign_continuous_controllers [0; 1]%nat 2 CONTINUOUS 1 true
      EMBEDDED_MSGS = (inr tt, σ')
    ∧ points_to σ' [0; 1]%nat ms'
    ∧ lookup2 ms' 1 37 = Some (spec_cc_byte 48 24 2 CONTINUOUS true 1).
Proof.
  apply (cc_assignment_algorithm EMBEDDED_MSGS [0; 1]%nat EMBEDDED_MSGS
           2 24 (Ctl 1 37 34 32 35) CONTINUOUS true 1).
  - apply patchable_EMBEDDED_MSGS.
  - lia.
  - lia.
  - reflexivity.
Defined.

(** C1, as stated with a table of 47 controls, fails: in continuous mode
    the first control of the second template (template index 1) gets CC
    byte 49, where the 47-control formula gives 48. *)
Lemma cc_assignment_47_counterexample :
  let run :=
    Generator._assign_continuous_controllers [0; 1]%nat 1 CONTINUOUS 1 false
      EMBEDDED_MSGS in
  run.1 = inr tt
  ∧ lookup2 run.2 0 37 = Some 49
  ∧ spec_cc_byte 47 0 1 CONTINUOUS false 1 = 48
  ∧ lookup2 run.2 0 37 ≠ Some (spec_cc_byte 47 0 1 CONTINUOUS false 1).
Proof. vm_compute. repeat split; congruence. Qed.

(** C3: for every control index, template index, CC mode, reverse flag and
    requested minimum, the CC byte the generator writes is either 0 or lies
    in the closed interval [lo, hi], with [lo] the requested minimum
    clamped to the safe minimum and [hi] the safe maximum. *)
Theorem cc_range_safety (σ : store) (messages : list loc)
    (ms : list bytearray) (t i : Z) (c : control) (cc_mode : CCMode)
    (reverse : bool) (requested_min : Z) :
  patchable σ messages ms →
  0 ≤ t → 0 ≤ i → CONTROLS !! Z.to_nat i = Some c →
  ∃ σ' ms' b,
    Generator._assign_continuous_controllers messages t cc_mode requested_min
      reverse σ = (inr tt, σ')
    ∧ points_to σ' messages ms'
    ∧ lookup2 ms' (Z.to_nat (msg_index c)) (Z.to_nat (cc_pos c)) = Some b
    ∧ (b = 0 ∨ Z.max requested_min SAFE_CC_MIN ≤ b ≤ SAFE_CC_MAX).
Proof.
  intros Hp Ht Hi Hc.
  destruct (generator_assign_written σ messages ms t cc_mode requested_min
              reverse Hp Ht)
    as (σ' & ms' & Hrun & _ & _ & Hpt & _ & Hcc & _).
  exists σ', ms', (spec_cc_byte 48 i t cc_mode reverse requested_min).
  split; [done|]. split; [done|]. split; [by apply Hcc|].
  by apply spec_cc_byte_range.
Qed.

Lemma cc_range_safety_witness :
  ∃ σ' ms' b,
    Generator._assign_continuous_controllers [0; 1]%nat 2 CONTINUOUS 100 false
      EMBEDDED_MSGS = (inr tt, σ')
    ∧ points_to σ' [0; 1]%nat ms'
    ∧ lookup2 ms' 0 48 = Some b
    ∧ (b = 0 ∨ Z.max 100 SAFE_CC_MIN ≤ b ≤ SAFE_CC_MAX).
Proof.
  apply (cc_range_safety EMBEDDED_MSGS [0; 1]%nat EMBEDDED_MSGS
           2 1 (Ctl 0 48 45 43 46) CONTINUOUS false 100).
  - apply patchable_EMBEDDED_MSGS.
  - lia.
  - lia.
  - reflexivity.
Defined.

(** In continuous mode the assigned byte determines the logical offset
    while it is not the disable sentinel. *)
Lemma spec_cc_byte_continuous_inj (t1 i1 t2 i2 : Z) (reverse : bool)
    (requested_min : Z) :
  0 ≤ t1 → 0 ≤ i1 → 0 ≤ t2 → 0 ≤ i2 →
  spec_cc_byte 48 i1 t1 CONTINUOUS reverse requested_min ≠ 0 →
  spec_cc_byte 48 i1 t1 CONTINUOUS reverse requested_min =
  spec_cc_byte 48 i2 t2 CONTINUOUS reverse requested_min →
  t1 * 48 + i1 = t2 * 48 + i2.
Proof.
  unfold spec_cc_byte, SAFE_CC_MAX, SAFE_CC_MIN. intros Ht1 Hi1 Ht2 Hi2.
  destruct reverse; simpl; repeat case_bool_decide; lia.
Qed.

(** C5: in continuous mode, two distinct pairs of template index and
    control index whose CC bytes are both non-zero get distinct CC bytes:
    the logical offsets [t * N + i] of a template fill [t * N, t * N + N),
    they differ for distinct pairs, and a control whose offset is past the
    safe range gets byte 0. *)
Theorem continuous_no_collision (σ1 σ2 : store) (messages1 messages2 : list loc)
    (ms1 ms2 : list bytearray) (t1 i1 t2 i2 : Z) (c1 c2 : control)
    (reverse : bool) (requested_min : Z) :
  patchable σ1 messages1 ms1 → patchable σ2 messages2 ms2 →
  0 ≤ t1 → 0 ≤ i1 → CONTROLS !! Z.to_nat i1 = Some c1 →
  0 ≤ t2 → 0 ≤ i2 → CONTROLS !! Z.to_nat i2 = Some c2 →
  (t1, i1) ≠ (t2, i2) →
  let k1 := logical_offset N_CONTROLS i1 t1 CONTINUOUS in
  let k2 := logical_offset N_CONTROLS i2 t2 CONTINUOUS in
  let available := SAFE_CC_MAX - Z.max requested_min SAFE_CC_MIN + 1 in
  ∃ σ1' ms1' b1 σ2' ms2' b2,
    Generator._assign_continuous_controllers messages1 t1 CONTINUOUS
      requested_min reverse σ1 = (inr tt, σ1')
    ∧ points_to σ1' messages1 ms1'
    ∧ lookup2 ms1' (Z.to_nat (msg_index c1)) (Z.to_nat (cc_pos c1)) = Some b1
    ∧ Generator._assign_continuous_controllers messages2 t2 CONTINUOUS
        requested_min reverse σ2 = (inr tt, σ2')
    ∧ points_to σ2' messages2 ms2'
    ∧ lookup2 ms2' (Z.to_nat (msg_index c2)) (Z.to_nat (cc_pos c2)) = Some b2
    ∧ t1 * N_CONTROLS ≤ k1 < t1 * N_CONTROLS + N_CONTROLS
    ∧ t2 * N_CONTROLS ≤ k2 < t2 * N_CONTROLS + N_CONTROLS
    ∧ k1 ≠ k2
    ∧ (b1 ≠ 0 → b2 ≠ 0 → b1 ≠ b2)
    ∧ (k1 >= available → b1 = 0)
    ∧ (k2 >= available → b2 = 0).
Proof.
  intros Hp1 Hp2 Ht1 Hi1 Hc1 Ht2 Hi2 Hc2 Hne k1 k2 available.
  destruct (generator_assign_written σ1 messages1 ms1 t1 CONTINUOUS
              requested_min reverse Hp1 Ht1)
    as (σ1' & ms1' & Hrun1 & _ & _ & Hpt1 & _ & Hcc1 & _).
  destruct (generator_assign_written σ2 messages2 ms2 t2 CONTINUOUS
              requested_min reverse Hp2 Ht2)
    as (σ2' & ms2' & Hrun2 & _ & _ & Hpt2 & _ & Hcc2 & _).
  pose proof (CONTROLS_lookup_range i1 c1 Hi1 Hc1) as Hlt1.
  pose proof (CONTROLS_lookup_range i2 c2 Hi2 Hc2) as Hlt2.
  exists σ1', ms1', (spec_cc_byte 48 i1 t1 CONTINUOUS reverse requested_min),
         σ2', ms2', (spec_cc_byte 48 i2 t2 CONTINUOUS reverse requested_min).
  split; [done|]. split; [done|]. split; [by apply Hcc1|].
  split; [done|]. split; [done|]. split; [by apply Hcc2|].
  assert (Hk : k1 ≠ k2).
  { subst k1 k2. unfold logical_offset, N_CONTROLS. intros Heq.
    apply Hne. f_equal; lia. }
  subst k1 k2 available. unfold logical_offset, N_CONTROLS in *.
  split; [lia|]. split; [lia|]. split; [done|]. split; [|split].
  - intros Hb1 _ Heq. apply Hk.
    by eapply spec_cc_byte_continuous_inj.
  - intros Hk1. unfold spec_cc_byte. by rewrite bool_decide_eq_true_2.
  - intros Hk2. unfold spec_cc_byte. by rewrite bool_decide_eq_true_2.
Qed.

Lemma continuous_no_collision_witness :
  ∃ σ1' ms1' b1 σ2' ms2' b2,
    Generator._assign_continuous_controllers [0; 1]%nat 0 CONTINUOUS 1 false
      EMBEDDED_MSGS = (inr tt, σ1')
    ∧ points_to σ1' [0; 1]%nat ms1'
    ∧ lookup2 ms1' 1 306 = Some b1
    ∧ Generator._assign_continuous_controllers [0; 1]%nat 1 CONTINUOUS 1 false
        EMBEDDED_MSGS = (inr tt, σ2')
    ∧ points_to σ2' [0; 1]%nat ms2'
    ∧ lookup2 ms2' 0 37 = Some b2
    ∧ 0 * N_CONTROLS ≤ logical_offset N_CONTROLS 47 0 CONTINUOUS
      < 0 * N_CONTROLS + N_CONTROLS
    ∧ 1 * N_CONTROLS ≤ logical_offset N_CONTROLS 0 1 CONTINUOUS
      < 1 * N_CONTROLS + N_CONTROLS
    ∧ logical_offset N_CONTROLS 47 0 CONTINUOUS
      ≠ logical_offset N_CONTROLS 0 1 CONTINUOUS
    ∧ (b1 ≠ 0 → b2 ≠ 0 → b1 ≠ b2)
    ∧ (logical_offset N_CONTROLS 47 0 CONTINUOUS
       >= SAFE_CC_MAX - Z.max 1 SAFE_CC_MIN + 1 → b1 = 0)
    ∧ (logical_offset N_CONTROLS 0 1 CONTINUOUS
       >= SAFE_CC_MAX - Z.max 1 SAFE_CC_MIN + 1 → b2 = 0).
Proof.
  apply (continuous_no_collision EMBEDDED_MSGS EMBEDDED_MSGS [0; 1]%nat [0; 1]%nat
           EMBEDDED_MSGS EMBEDDED_MSGS 0 47 1 0
           (Ctl 1 306 303 301 304) (Ctl 0 37 34 32 35) false 1).
  - apply patchable_EMBEDDED_MSGS.
  - apply patchable_EMBEDDED_MSGS.
  - lia.
  - lia.
  - reflexivity.
  - lia.
  - lia.
  - reflexivity.
  - congruence.
Defined.

(** ** The two generators compared *)

(** C10, as amended: the control table has 48 entries.  For every template
    index [t] and control index [i] in [0, 48), with logical offset [k]
    ([i] in restart mode, [t * 48 + i] in continuous mode): when [k < 126]
    the generator of [launchcontrol_xl3_programmer.py] and the library
    generator (forward, default minimum CC, safe range [1, 126]) write the
    same CC byte [k + 1]; when [k >= 126] the former writes
    [(k mod 127) + 1] and the library generator writes the disable
    sentinel 0, so they differ. *)
Theorem legacy_library_cc_refinement (σ : store) (messages : list loc)
    (ms : list bytearray) (t i : Z) (c : control) (cc_mode : CCMode) :
  patchable σ messages ms →
  0 ≤ t → 0 ≤ i → CONTROLS !! Z.to_nat i = Some c →
  let k := logical_offset 48 i t cc_mode in
  ∃ σL msL bL σG msG bG,
    Legacy._assign_continuous_controllers messages t cc_mode σ = (inr tt, σL)
    ∧ points_to σL messages msL
    ∧ lookup2 msL (Z.to_nat (msg_index c)) (Z.to_nat (cc_pos c)) = Some bL
    ∧ Generator._assign_continuous_controllers messages t cc_mode
        DEFAULT_MIN_CC_VALUE false σ = (inr tt, σG)
    ∧ points_to σG messages msG
    ∧ lookup2 msG (Z.to_nat (msg_index c)) (Z.to_nat (cc_pos c)) = Some bG
    ∧ (k < 126 → bL = k + 1 ∧ bG = k + 1)
    ∧ (k >= 126 → bL = k `mod` 127 + 1 ∧ bG = 0 ∧ bL ≠ bG).
Proof.
  intros Hp Ht Hi Hc k.
  destruct (legacy_assign_written σ messages ms t cc_mode Hp)
    as (σL & msL & HrunL & HptL & HccL).
  destruct (generator_assign_written σ messages ms t cc_mode
              DEFAULT_MIN_CC_VALUE false Hp Ht)
    as (σG & msG & HrunG & _ & _ & HptG & _ & HccG & _).
  exists σL, msL, (Legacy.cc_value_for t cc_mode i),
         σG, msG, (spec_cc_byte 48 i t cc_mode false DEFAULT_MIN_CC_VALUE).
  split; [done|]. split; [done|]. split; [by apply HccL|].
  split; [done|]. split; [done|]. split; [by apply HccG|].
  pose proof (CONTROLS_lookup_range i c Hi Hc) as Hlt.
  assert (Hk : 0 ≤ k) by (subst k; destruct cc_mode; simpl; lia).
  assert (HL : Legacy.cc_value_for t cc_mode i = k `mod` 127 + 1).
  { subst k. by destruct cc_mode. }
  assert (HG : spec_cc_byte 48 i t cc_mode false DEFAULT_MIN_CC_VALUE =
               if bool_decide (k >= 126) then 0 else k + 1).
  { subst k. unfold spec_cc_byte, logical_offset, DEFAULT_MIN_CC_VALUE,
      SAFE_CC_MAX, SAFE_CC_MIN.
    destruct cc_mode; simpl; repeat case_bool_decide; lia. }
  rewrite HL, HG. split.
  - intros Hk126. rewrite Z.mod_small by lia.
    by rewrite bool_decide_eq_false_2 by lia.
  - intros Hk126. rewrite bool_decide_eq_true_2 by done.
    pose proof (Z.mod_pos_bound k 127). lia.
Qed.

Lemma legacy_library_cc_refinement_witness :
  ∃ σL msL bL σG msG bG,
    Legacy._assign_continuous_controllers [0; 1]%nat 2 CONTINUOUS EMBEDDED_MSGS
      = (inr tt, σL)
    ∧ points_to σL [0; 1]%nat msL
    ∧ lookup2 msL 1 174 = Some bL
    ∧ Generator._assign_continuous_controllers [0; 1]%nat 2 CONTINUOUS
        DEFAULT_MIN_CC_VALUE false EMBEDDED_MSGS = (inr tt, σG)
    ∧ points_to σG [0; 1]%nat msG
    ∧ lookup2 msG 1 174 = Some bG
    ∧ (logical_offset 48 35 2 CONTINUOUS < 126
       → bL = logical_offset 48 35 2 CONTINUOUS + 1
         ∧ bG = logical_offset 48 35 2 CONTINUOUS + 1)
    ∧ (logical_offset 48 35 2 CONTINUOUS >= 126
       → bL = logical_offset 48 35 2 CONTINUOUS `mod` 127 + 1
         ∧ bG = 0 ∧ bL ≠ bG).
Proof.
  apply (legacy_library_cc_refinement EMBEDDED_MSGS [0; 1]%nat EMBEDDED_MSGS
           2 35 (Ctl 1 174 171 169 172) CONTINUOUS).
  - apply patchable_EMBEDDED_MSGS.
  - lia.
  - lia.
  - reflexivity.
Defined.

(** C10, as stated over a table of 47 controls, fails: for template index 1
    and control index 0 in continuous mode the stated offset is
    [1 * 47 + 0 = 47 < 126], yet both generators write 49, not [47 + 1]. *)
Lemma legacy_library_47_counterexample :
  let k := logical_offset 47 0 1 CONTINUOUS in
  let legacy :=
    Legacy._assign_continuous_controllers [0; 1]%nat 1 CONTINUOUS EMBEDDED_MSGS in
  let library :=
    Generator._assign_continuous_controllers [0; 1]%nat 1 CONTINUOUS
      DEFAULT_MIN_CC_VALUE false EMBEDDED_MSGS in
  k < 126
  ∧ legacy.1 = inr tt ∧ lookup2 legacy.2 0 37 = Some 49
  ∧ library.1 = inr tt ∧ lookup2 library.2 0 37 = Some 49
  ∧ lookup2 legacy.2 0 37 ≠ Some (k + 1)
  ∧ lookup2 library.2 0 37 ≠ Some (k + 1).
Proof. vm_compute. repeat split; congruence. Qed.

(** ** Template generation *)

Lemma get_channel_run (template_num : Z) (channel_mode : ChannelMode)
    (global_channel : option Z) (σ : store) :
  _get_channel_for_template template_num channel_mode global_channel σ =
  match requested_channel template_num channel_mode global_channel with
  | Some ch => (inr ch, σ)
  | None =>
      (inl (ValueError "Global channel must be specified for GLOBAL channel mode"), σ)
  end.
Proof. by destruct channel_mode, global_channel. Qed.

(** One template generation, step by step: the base frames are cloned into
    two fresh objects, the channel is determined and validated, and then
    all channel, flag and CC writes go to the clones. *)
Lemma generate_template_run (σ : store) (self : SysExTemplateGenerator)
    (template_num : Z) (channel_mode : ChannelMode) (cc_mode : CCMode)
    (global_channel : option Z) (min_cc_value : Z) (cc_reverse : bool) :
  generator_ok σ self →
  let messages := seq (length σ) (length EMBEDDED_MSGS) in
  let f := Generator.cc_value_for (template_num - 1) cc_mode
             (Z.max min_cc_value SAFE_CC_MIN)
             (SAFE_CC_MAX - Z.max min_cc_value SAFE_CC_MIN + 1) cc_reverse in
  generate_template self template_num channel_mode cc_mode global_channel
    min_cc_value cc_reverse σ =
  match requested_channel template_num channel_mode global_channel with
  | None =>
      (inl (ValueError "Global channel must be specified for GLOBAL channel mode"),
       σ ++ EMBEDDED_MSGS)
  | Some ch =>
      if bool_decide (1 ≤ ch ≤ 16) then
        match do_writes messages (channel_writes (ch - 1) ++ cc_writes f)
                (σ ++ EMBEDDED_MSGS) with
        | (inl e, σ') => (inl e, σ')
        | (inr _, σ') => (inr messages, σ')
        end
      else
        (inl (ValueError "Channel must be integer between 1 and 16"),
         σ ++ EMBEDDED_MSGS)
  end.
Proof.
  intros Hok messages f. unfold generate_template, _clone_messages.
  rewrite bind_run, (copy_bytearrays_ok _ _ _ Hok).
  rewrite bind_run, get_channel_run.
  destruct (requested_channel _ _ _) as [ch|]; [|done].
  fold messages. rewrite bind_run. unfold _set_midi_channel.
  rewrite bind_run. unfold _validate_channel, MIN_MIDI_CHANNEL, MAX_MIDI_CHANNEL.
  destruct (bool_decide (1 ≤ ch ≤ 16)); [|done].
  cbn beta iota delta [mret M_ret].
  rewrite channel_loop_as_writes, do_writes_app, bind_run.
  destruct (do_writes messages (channel_writes (ch - 1)) (σ ++ EMBEDDED_MSGS))
    as [[e|[]] σ1]; [done|].
  unfold _set_button_modes. rewrite bind_run.
  cbn beta iota delta [mret M_ret].
  rewrite bind_run, assign_as_writes. fold f.
  by destruct (do_writes messages (cc_writes f) σ1) as [[e|[]] σ2].
Qed.

Lemma store_after_patch (σ σ' : store) (ms ms' : list bytearray) :
  length ms' = length ms →
  length σ' = length (σ ++ ms) →
  (∀ l, l ∉ seq (length σ) (length ms) → σ' !! l = (σ ++ ms) !! l) →
  points_to σ' (seq (length σ) (length ms)) ms' →
  σ' = σ ++ ms'.
Proof.
  intros Hlen' Hlen Hout Hpt. apply list_eq. intros l.
  destruct (decide (l < length σ)%nat) as [Hl|Hl].
  - rewrite Hout by (rewrite elem_of_seq; lia).
    by rewrite !lookup_app_l.
  - destruct (decide (l < length σ + length ms)%nat) as [Hl2|Hl2].
    + rewrite lookup_app_r by lia.
      destruct (lookup_lt_is_Some_2 ms' (l - length σ)) as [m Hm]; [lia|].
      rewrite Hm.
      apply (Forall2_lookup_lr _ _ _ (l - length σ)%nat _ _ Hpt); [|done].
      rewrite lookup_seq. split; lia.
    + rewrite !lookup_ge_None_2; [done|..].
      * rewrite length_app. lia.
      * rewrite Hlen, length_app. lia.
Qed.

Lemma patch_writes_nonneg (zero_based_channel : Z) (f : Z → Z) :
  Forall (λ w : write, 0 ≤ w.1.1 ∧ 0 ≤ w.1.2)
         (channel_writes zero_based_channel ++ cc_writes f).
Proof.
  apply Forall_app. split; [apply channel_writes_nonneg|apply cc_writes_nonneg].
Qed.

(** A generation that returns has a valid channel and leaves the store
    extended by the patched clones, nothing else changed. *)
Lemma generate_template_returns (σ σ' : store) (self : SysExTemplateGenerator)
    (template_num : Z) (channel_mode : ChannelMode) (cc_mode : CCMode)
    (global_channel : option Z) (min_cc_value : Z) (cc_reverse : bool)
    (msgs : list loc) :
  generator_ok σ self →
  generate_template self template_num channel_mode cc_mode global_channel
    min_cc_value cc_reverse σ = (inr msgs, σ') →
  ∃ ch,
    requested_channel template_num channel_mode global_channel = Some ch
    ∧ 1 ≤ ch ≤ 16
    ∧ msgs = seq (length σ) (length EMBEDDED_MSGS)
    ∧ σ' = σ ++ foldl write2 EMBEDDED_MSGS
                  (channel_writes (ch - 1)
                   ++ cc_writes (Generator.cc_value_for (template_num - 1) cc_mode
                                   (Z.max min_cc_value SAFE_CC_MIN)
                                   (SAFE_CC_MAX - Z.max min_cc_value SAFE_CC_MIN + 1)
                                   cc_reverse)).
Proof.
  intros Hok. rewrite generate_template_run by done.
  destruct (requested_channel _ _ _) as [ch|]; [|done].
  case_bool_decide as Hch; [|done].
  destruct (do_writes _ _ _) as [[e|[]] σ1] eqn:Hrun; [done|].
  intros [= <- <-].
  destruct (do_writes_spec _ _ _ _ EMBEDDED_MSGS _
              (NoDup_seq _ _) (points_to_seq σ EMBEDDED_MSGS)
              (patch_writes_nonneg _ _) Hrun)
    as (Hlen & Hout & _ & Hpt).
  exists ch. split; [done|]. split; [done|]. split; [done|].
  apply store_after_patch with (ms := EMBEDDED_MSGS); [|done..].
  apply length_foldl_write2.
Qed.

(** A generation with a valid channel for a template number from 1 on
    returns. *)
Lemma generate_template_ok (σ : store) (self : SysExTemplateGenerator)
    (template_num : Z) (channel_mode : ChannelMode) (cc_mode : CCMode)
    (global_channel : option Z) (min_cc_value : Z) (cc_reverse : bool) (ch : Z) :
  generator_ok σ self → 1 ≤ template_num →
  requested_channel template_num channel_mode global_channel = Some ch →
  1 ≤ ch ≤ 16 →
  ∃ σ', generate_template self template_num channel_mode cc_mode global_channel
          min_cc_value cc_reverse σ
        = (inr (seq (length σ) (length EMBEDDED_MSGS)), σ').
Proof.
  intros Hok Ht Hreq Hch. rewrite generate_template_run by done.
  rewrite Hreq, bool_decide_eq_true_2 by done.
  set (ws := channel_writes (ch - 1) ++ cc_writes _).
  set (messages := seq (length σ) (length EMBEDDED_MSGS)).
  destruct (do_writes_ok ws (σ ++ EMBEDDED_MSGS) messages EMBEDDED_MSGS)
    as (σ' & Hrun & _).
  { apply NoDup_seq. }
  { apply points_to_seq. }
  { apply patch_writes_nonneg. }
  { apply Forall_app. split.
    - apply channel_writes_valid; [apply fits_EMBEDDED_MSGS|lia].
    - apply cc_writes_valid; [apply fits_EMBEDDED_MSGS|].
      intros i Hi. rewrite cc_value_for_spec.
      apply spec_cc_byte_is_byte; lia. }
  rewrite Hrun. by exists σ'.
Qed.

Lemma points_to_patched (σ : store) (ws : list write) :
  points_to (σ ++ foldl write2 EMBEDDED_MSGS ws)
    (seq (length σ) (length EMBEDDED_MSGS)) (foldl write2 EMBEDDED_MSGS ws).
Proof.
  pose proof (points_to_seq σ (foldl write2 EMBEDDED_MSGS ws)) as Hpt.
  by rewrite length_foldl_write2 in Hpt.
Qed.

Section patched_frames.
Variables (zero_based_channel : Z) (f : Z → Z).

Let patched : list bytearray :=
  foldl write2 EMBEDDED_MSGS (channel_writes zero_based_channel ++ cc_writes f).

Lemma patched_shape : shape patched = shape EMBEDDED_MSGS.
Proof. apply shape_foldl_write2. Qed.

Lemma patched_lookup_written (mi pos v : Z) :
  ((mi, pos), v) ∈ channel_writes zero_based_channel ++ cc_writes f →
  is_Some (lookup2 EMBEDDED_MSGS (Z.to_nat mi) (Z.to_nat pos)) →
  lookup2 patched (Z.to_nat mi) (Z.to_nat pos) = Some v.
Proof.
  intros Hin [b Hb]. unfold patched.
  rewrite lookup2_foldl_write2 by apply patch_writes_nonneg.
  rewrite Hb.
  pose proof (patch_writes_nonneg zero_based_channel f) as Hnn.
  rewrite Forall_forall in Hnn. destruct (Hnn _ Hin) as [Hmi Hpos].
  simpl in Hmi, Hpos. rewrite !Z2Nat.id by done.
  by rewrite (last_write_NoDup _ _ v (patch_keys_NoDup zero_based_channel f)).
Qed.

Lemma patched_lookup_other (j o : nat) :
  ¬ patched_offset j o → lookup2 patched j o = lookup2 EMBEDDED_MSGS j o.
Proof.
  intros Hno. unfold patched.
  rewrite lookup2_foldl_write2 by apply patch_writes_nonneg.
  rewrite last_write_None; [by destruct (lookup2 EMBEDDED_MSGS j o)|].
  rewrite fmap_app. intros [Hin|Hin]%elem_of_app; apply Hno.
  - unfold channel_writes in Hin.
    apply list_elem_of_fmap in Hin as ([k v] & Heq & Hin). simpl in Heq. subst k.
    apply list_elem_of_bind in Hin as (c & Hin & Hc).
    exists c. split; [done|]. unfold channel_writes_of in Hin.
    apply elem_of_cons in Hin as [[= -> ->]|Hin]; [tauto|].
    destruct (bool_decide (flag_pos c >= 0)); [|by apply elem_of_nil in Hin].
    apply list_elem_of_singleton in Hin as [= -> ->]. tauto.
  - unfold cc_writes in Hin. rewrite <- list_fmap_compose in Hin.
    apply list_elem_of_fmap in Hin as ([i c] & Heq & Hin). simpl in Heq.
    apply elem_of_enumerate_snd in Hin. simpl in Hin.
    exists c. split; [done|]. injection Heq as -> ->. tauto.
Qed.

End patched_frames.

Lemma lookup2_is_Some_shape (ms : list bytearray) (j o n : nat) :
  shape ms !! j = Some n → (o < n)%nat → is_Some (lookup2 ms j o).
Proof.
  unfold shape, lookup2. rewrite list_lookup_fmap.
  destruct (ms !! j) as [m|]; [|done]. intros [= <-] Ho. simpl.
  by apply lookup_lt_is_Some_2.
Qed.

(** Constructing the generator stores the factory frames. *)
Lemma init_generator_ok (σ : store) :
  ∃ self, Generator.__init__ σ = (inr self, σ ++ EMBEDDED_MSGS)
          ∧ generator_ok (σ ++ EMBEDDED_MSGS) self.
Proof.
  exists {| base_messages := seq (length σ) (length EMBEDDED_MSGS) |}.
  unfold Generator.__init__. rewrite bind_run, new_bytearrays_ok.
  split; [done|]. apply points_to_seq.
Qed.

Lemma generator_ok_app (σ ext : store) (self : SysExTemplateGenerator) :
  generator_ok σ self → generator_ok (σ ++ ext) self.
Proof.
  unfold generator_ok, points_to. intros Hok.
  eapply Forall2_impl; [exact Hok|]. intros l m Hl. by apply lookup_app_l_Some.
Qed.

Lemma generator_ok_EMBEDDED_MSGS :
  generator_ok EMBEDDED_MSGS {| base_messages := [0; 1]%nat |}.
Proof. by repeat constructor. Qed.

(** ** Channel assignment *)

(** C4: for every template number [t >= 1], the channel is [min(t, 16)] in
    per-template mode and the supplied global channel (1 to 16) in global
    mode; in the generated frames the byte at every control's channel
    offset is that channel minus 1, which lies in [0, 15], and the byte at
    every control's mode-flag offset is [0x00]. *)
Theorem channel_assignment (σ : store) (self : SysExTemplateGenerator)
    (template_num : Z) (channel_mode : ChannelMode) (cc_mode : CCMode)
    (global_channel : option Z) (min_cc_value : Z) (cc_reverse : bool) (ch : Z) :
  generator_ok σ self → 1 ≤ template_num →
  requested_channel template_num channel_mode global_channel = Some ch →
  (channel_mode = GLOBAL → 1 ≤ ch ≤ 16) →
  _get_channel_for_template template_num channel_mode global_channel σ = (inr ch, σ)
  ∧ (channel_mode = PER_TEMPLATE → ch = Z.min template_num 16)
  ∧ (channel_mode = GLOBAL → global_channel = Some ch)
  ∧ 0 ≤ ch - 1 ≤ 15
  ∧ ∃ σ' msgs frames,
      generate_template self template_num channel_mode cc_mode global_channel
        min_cc_value cc_reverse σ = (inr msgs, σ')
      ∧ points_to σ' msgs frames
      ∧ ∀ c, c ∈ CONTROLS →
          lookup2 frames (Z.to_nat (msg_index c)) (Z.to_nat (ch_pos c))
          = Some (ch - 1)
          ∧ (flag_pos c >= 0 →
             lookup2 frames (Z.to_nat (msg_index c)) (Z.to_nat (flag_pos c))
             = Some 0x00).
Proof.
  intros Hok Ht Hreq Hglobal.
  assert (Hch : 1 ≤ ch ≤ 16).
  { destruct channel_mode; [|by apply Hglobal]. injection Hreq as <-. lia. }
  split; [by rewrite get_channel_run, Hreq|].
  split; [by intros ->; injection Hreq|].
  split; [by intros ->|]. split; [lia|].
  destruct (generate_template_ok σ self template_num channel_mode cc_mode
              global_channel min_cc_value cc_reverse ch Hok Ht Hreq Hch)
    as (σ' & Hrun).
  destruct (generate_template_returns _ _ _ _ _ _ _ _ _ _ Hok Hrun)
    as (ch' & Hreq' & _ & _ & ->).
  rewrite Hreq in Hreq'. injection Hreq' as <-.
  eexists _, _, _. split; [exact Hrun|]. split.
  { apply points_to_patched. }
  intros c Hc.
  destruct (fits_lookup EMBEDDED_MSGS c fits_EMBEDDED_MSGS Hc)
    as (n & Hn & _ & Hlt1 & Hlt2).
  pose proof CONTROLS_offsets_nonneg as Hnn.
  rewrite Forall_forall in Hnn. destruct (Hnn _ Hc) as (_ & _ & Hcp & _ & Hfp).
  assert (Hin : channel_writes_of (ch - 1) c
                ⊆ channel_writes (ch - 1) ++ cc_writes
                    (Generator.cc_value_for (template_num - 1) cc_mode
                       (Z.max min_cc_value SAFE_CC_MIN)
                       (SAFE_CC_MAX - Z.max min_cc_value SAFE_CC_MIN + 1)
                       cc_reverse)).
  { intros w Hw. apply elem_of_app. left. unfold channel_writes.
    apply list_elem_of_bind. eauto. }
  split.
  - apply patched_lookup_written.
    + apply Hin. unfold channel_writes_of. apply elem_of_cons. by left.
    + eapply lookup2_is_Some_shape; [exact Hn|lia].
  - intros Hflag. apply patched_lookup_written.
    + apply Hin. unfold channel_writes_of.
      rewrite bool_decide_eq_true_2 by done.
      apply elem_of_cons. right. by apply list_elem_of_singleton.
    + eapply lookup2_is_Some_shape; [exact Hn|lia].
Qed.

Lemma channel_assignment_witness :
  _get_channel_for_template 20 PER_TEMPLATE None EMBEDDED_MSGS
  = (inr 16, EMBEDDED_MSGS)
  ∧ (PER_TEMPLATE = PER_TEMPLATE → 16 = Z.min 20 16)
  ∧ (PER_TEMPLATE = GLOBAL → None = Some 16)
  ∧ 0 ≤ 16 - 1 ≤ 15
  ∧ ∃ σ' msgs frames,
      generate_template {| base_messages := [0; 1]%nat |} 20 PER_TEMPLATE
        RESTART_PER_TEMPLATE None 1 false EMBEDDED_MSGS = (inr msgs, σ')
      ∧ points_to σ' msgs frames
      ∧ ∀ c, c ∈ CONTROLS →
          lookup2 frames (Z.to_nat (msg_index c)) (Z.to_nat (ch_pos c))
          = Some (16 - 1)
          ∧ (flag_pos c >= 0 →
             lookup2 frames (Z.to_nat (msg_index c)) (Z.to_nat (flag_pos c))
             = Some 0x00).
Proof.
  apply (channel_assignment EMBEDDED_MSGS {| base_messages := [0; 1]%nat |}
           20 PER_TEMPLATE RESTART_PER_TEMPLATE None 1 false 16).
  - apply generator_ok_EMBEDDED_MSGS.
  - lia.
  - reflexivity.
  - intros H. discriminate H.
Defined.

(** ** Validation errors *)

(** C6: a generation whose channel is outside 1 to 16 (17, say) raises the
    invalid-channel [ValueError], and one in global mode without a global
    channel raises the missing-parameter [ValueError]; either way no
    frame is returned and the store afterwards is the store before
    extended by two unpatched copies of the base frames: no byte of any
    existing object, the stored base messages included, has changed. *)
Theorem validation_errors_atomic (σ : store) (self : SysExTemplateGenerator)
    (template_num : Z) (channel_mode : ChannelMode) (cc_mode : CCMode)
    (global_channel : option Z) (min_cc_value : Z) (cc_reverse : bool) :
  generator_ok σ self →
  let run :=
    generate_template self template_num channel_mode cc_mode global_channel
      min_cc_value cc_reverse σ in
  (∀ ch, requested_channel template_num channel_mode global_channel = Some ch →
         ¬ (1 ≤ ch ≤ 16) →
         run = (inl (ValueError "Channel must be integer between 1 and 16"),
                σ ++ EMBEDDED_MSGS))
  ∧ (channel_mode = GLOBAL → global_channel = None →
     run = (inl (ValueError "Global channel must be specified for GLOBAL channel mode"),
            σ ++ EMBEDDED_MSGS))
  ∧ generator_ok (σ ++ EMBEDDED_MSGS) self
  ∧ (∀ l, (l < length σ)%nat → (σ ++ EMBEDDED_MSGS) !! l = σ !! l).
Proof.
  intros Hok run. subst run. rewrite generate_template_run by done.
  split; [|split; [|split]].
  - intros ch -> Hch. by rewrite bool_decide_eq_false_2.
  - by intros -> ->.
  - by apply generator_ok_app.
  - intros l Hl. by apply lookup_app_l.
Qed.

Lemma validation_errors_atomic_witness :
  (∀ ch, requested_channel 1 GLOBAL (Some 17) = Some ch →
         ¬ (1 ≤ ch ≤ 16) →
         generate_template {| base_messages := [0; 1]%nat |} 1 GLOBAL
           RESTART_PER_TEMPLATE (Some 17) 1 false EMBEDDED_MSGS
         = (inl (ValueError "Channel must be integer between 1 and 16"),
            EMBEDDED_MSGS ++ EMBEDDED_MSGS))
  ∧ (GLOBAL = GLOBAL → Some 17 = None →
     generate_template {| base_messages := [0; 1]%nat |} 1 GLOBAL
       RESTART_PER_TEMPLATE (Some 17) 1 false EMBEDDED_MSGS
     = (inl (ValueError "Global channel must be specified for GLOBAL channel mode"),
        EMBEDDED_MSGS ++ EMBEDDED_MSGS))
  ∧ generator_ok (EMBEDDED_MSGS ++ EMBEDDED_MSGS) {| base_messages := [0; 1]%nat |}
  ∧ (∀ l, (l < length EMBEDDED_MSGS)%nat →
          (EMBEDDED_MSGS ++ EMBEDDED_MSGS) !! l = EMBEDDED_MSGS !! l).
Proof.
  apply (validation_errors_atomic EMBEDDED_MSGS {| base_messages := [0; 1]%nat |}
           1 GLOBAL RESTART_PER_TEMPLATE (Some 17) 1 false).
  apply generator_ok_EMBEDDED_MSGS.
Defined.

(** The two scenarios of C6 on a freshly constructed generator. *)
Example channel_17_rejected :
  (self ← Generator.__init__;
   generate_template self 1 GLOBAL RESTART_PER_TEMPLATE (Some 17) 1 false) []
  = (inl (ValueError "Channel must be integer between 1 and 16"),
     EMBEDDED_MSGS ++ EMBEDDED_MSGS).
Proof. reflexivity. Qed.

Example global_without_channel_rejected :
  (self ← Generator.__init__;
   generate_template self 3 GLOBAL CONTINUOUS None 1 false) []
  = (inl (ValueError "Global channel must be specified for GLOBAL channel mode"),
     EMBEDDED_MSGS ++ EMBEDDED_MSGS).
Proof. reflexivity. Qed.

(** ** Frame effect of a generation *)

(** Patched offsets lie strictly between the preamble and the end byte. *)
Lemma CONTROLS_patched_span :
  Forall (λ c : control,
            0 ≤ msg_index c < 2
            ∧ 29 ≤ cc_pos c < 341 ∧ 29 ≤ ch_pos c < 341 ∧ 29 ≤ flag_pos c < 341)
         CONTROLS.
Proof. compute_done. Qed.

(** No colour offset is a CC, channel or flag offset of the same frame. *)
Lemma CONTROLS_color_apart :
  Forall (λ c' : control,
            Forall (λ c : control,
                      msg_index c = msg_index c' →
                      cc_pos c ≠ color_pos c' ∧ ch_pos c ≠ color_pos c'
                      ∧ flag_pos c ≠ color_pos c')
                   CONTROLS)
         CONTROLS.
Proof. compute_done. Qed.

Lemma not_patched_outside (j o : nat) :
  (o < 29 ∨ 341 ≤ o)%nat → ¬ patched_offset j o.
Proof.
  intros Ho (c & Hc & _ & Hpos).
  pose proof CONTROLS_patched_span as Hsp.
  rewrite Forall_forall in Hsp. specialize (Hsp c Hc). lia.
Qed.

Lemma not_patched_color (c' : control) :
  c' ∈ CONTROLS →
  ¬ patched_offset (Z.to_nat (msg_index c')) (Z.to_nat (color_pos c')).
Proof.
  intros Hc' (c & Hc & Hmi & Hpos).
  pose proof CONTROLS_color_apart as Hap.
  rewrite Forall_forall in Hap. specialize (Hap c' Hc').
  rewrite Forall_forall in Hap. specialize (Hap c Hc).
  pose proof CONTROLS_offsets_nonneg as Hnn.
  rewrite Forall_forall in Hnn. destruct (Hnn c' Hc') as (Hmi' & _ & _ & Hcol & _).
  rewrite !Z2Nat.id in * by done. destruct (Hap Hmi) as (? & ? & ?). lia.
Qed.

(** C9: after every successful generation, each byte of each output frame
    at an offset that is no control's CC, channel or mode-flag offset
    equals the byte of the base frame there: the frames keep their
    lengths, their [0xF0] start byte and [0xF7] end byte, their preamble
    and all colour bytes; the output frames are fresh objects, and every
    object that existed before, the stored base messages included, is
    unchanged. *)
Theorem generation_frame_effect (σ σ' : store) (self : SysExTemplateGenerator)
    (template_num : Z) (channel_mode : ChannelMode) (cc_mode : CCMode)
    (global_channel : option Z) (min_cc_value : Z) (cc_reverse : bool)
    (msgs : list loc) :
  generator_ok σ self →
  generate_template self template_num channel_mode cc_mode global_channel
    min_cc_value cc_reverse σ = (inr msgs, σ') →
  ∃ frames,
    points_to σ' msgs frames
    ∧ shape frames = shape EMBEDDED_MSGS
    ∧ (∀ j o, ¬ patched_offset j o →
              lookup2 frames j o = lookup2 EMBEDDED_MSGS j o)
    ∧ (∀ j, (j < 2)%nat →
            lookup2 frames j 0 = Some 0xF0 ∧ lookup2 frames j 341 = Some 0xF7)
    ∧ (∀ j o, (o < 29)%nat → lookup2 frames j o = lookup2 EMBEDDED_MSGS j o)
    ∧ (∀ c, c ∈ CONTROLS →
            lookup2 frames (Z.to_nat (msg_index c)) (Z.to_nat (color_pos c))
            = lookup2 EMBEDDED_MSGS (Z.to_nat (msg_index c))
                (Z.to_nat (color_pos c)))
    ∧ (∀ l, l ∈ msgs → (length σ ≤ l)%nat)
    ∧ (∀ l, (l < length σ)%nat → σ' !! l = σ !! l)
    ∧ generator_ok σ' self.
Proof.
  intros Hok Hrun.
  destruct (generate_template_returns _ _ _ _ _ _ _ _ _ _ Hok Hrun)
    as (ch & _ & _ & -> & ->).
  eexists. split.
  { apply points_to_patched. }
  split; [apply patched_shape|].
  split; [intros j o; apply patched_lookup_other|].
  split.
  { intros j Hj.
    rewrite !patched_lookup_other by (apply not_patched_outside; lia).
    by destruct j as [|[|j]]; [..|lia]. }
  split; [intros j o Ho; apply patched_lookup_other, not_patched_outside; lia|].
  split; [intros c Hc; by apply patched_lookup_other, not_patched_color|].
  split; [intros l Hl; apply elem_of_seq in Hl; lia|].
  split; [intros l Hl; by apply lookup_app_l|].
  by apply generator_ok_app.
Qed.

Lemma generation_frame_effect_witness :
  ∃ frames,
    points_to
      (generate_template {| base_messages := [0; 1]%nat |} 2 PER_TEMPLATE
         CONTINUOUS None 1 false EMBEDDED_MSGS).2
      [2; 3]%nat frames
    ∧ shape frames = shape EMBEDDED_MSGS
    ∧ (∀ j o, ¬ patched_offset j o →
              lookup2 frames j o = lookup2 EMBEDDED_MSGS j o)
    ∧ (∀ j, (j < 2)%nat →
            lookup2 frames j 0 = Some 0xF0 ∧ lookup2 frames j 341 = Some 0xF7)
    ∧ (∀ j o, (o < 29)%nat → lookup2 frames j o = lookup2 EMBEDDED_MSGS j o)
    ∧ (∀ c, c ∈ CONTROLS →
            lookup2 frames (Z.to_nat (msg_index c)) (Z.to_nat (color_pos c))
            = lookup2 EMBEDDED_MSGS (Z.to_nat (msg_index c))
                (Z.to_nat (color_pos c)))
    ∧ (∀ l, l ∈ [2; 3]%nat → (length EMBEDDED_MSGS ≤ l)%nat)
    ∧ (∀ l, (l < length EMBEDDED_MSGS)%nat →
            (generate_template {| base_messages := [0; 1]%nat |} 2 PER_TEMPLATE
               CONTINUOUS None 1 false EMBEDDED_MSGS).2 !! l
            = EMBEDDED_MSGS !! l)
    ∧ generator_ok
        (generate_template {| base_messages := [0; 1]%nat |} 2 PER_TEMPLATE
           CONTINUOUS None 1 false EMBEDDED_MSGS).2
        {| base_messages := [0; 1]%nat |}.
Proof.
  apply (generation_frame_effect EMBEDDED_MSGS _ {| base_messages := [0; 1]%nat |}
           2 PER_TEMPLATE CONTINUOUS None 1 false [2; 3]%nat).
  - apply generator_ok_EMBEDDED_MSGS.
  - vm_compute. reflexivity.
Defined.

(** ** The frame splitter *)

Lemma lookup_of_drop (data : list Z) (e : nat) (b : Z) (rest : list Z) :
  drop e data = b :: rest → data !! e = Some b ∧ drop (S e) data = rest.
Proof.
  intros Hdrop. split.
  - rewrite <- (Nat.add_0_r e), <- lookup_drop. by rewrite Hdrop.
  - replace (S e) with (e + 1)%nat by lia.
    by rewrite <- drop_drop, Hdrop.
Qed.

Lemma scan_end_finds (data : list Z) (body rest : list Z) (e fuel : nat) :
  drop e data = body ++ 0xF7 :: rest →
  Forall (λ b, b ≠ 0xF7) body → (length body < fuel)%nat →
  scan_end data e fuel = Some (e + length body)%nat.
Proof.
  intros Hdrop Hbody. revert e fuel Hdrop.
  induction Hbody as [|b body Hb Hbody IH]; intros e fuel Hdrop Hfuel;
    (destruct fuel as [|fuel]; [simpl in Hfuel; lia|]);
    apply lookup_of_drop in Hdrop as [Hlook Hdrop]; cbn [scan_end];
    rewrite Hlook.
  - rewrite bool_decide_eq_false_2 by (intros H; by apply H).
    f_equal. simpl. lia.
  - rewrite bool_decide_eq_true_2 by done.
    rewrite (IH (S e) fuel Hdrop) by (simpl in Hfuel; lia).
    f_equal. simpl. lia.
Qed.

Lemma scan_end_misses (data : list Z) (tail : list Z) (e fuel : nat) :
  drop e data = tail → (e ≤ length data)%nat →
  Forall (λ b, b ≠ 0xF7) tail → (length tail < fuel)%nat →
  scan_end data e fuel = Some (length data).
Proof.
  intros Hdrop He Htail. revert e fuel Hdrop He.
  induction Htail as [|b tail Hb Htail IH]; intros e fuel Hdrop He Hfuel;
    (destruct fuel as [|fuel]; [simpl in Hfuel; lia|]); cbn [scan_end].
  - apply (f_equal length) in Hdrop. rewrite length_drop in Hdrop.
    simpl in Hdrop. rewrite lookup_ge_None_2 by lia. f_equal. lia.
  - pose proof (f_equal length Hdrop) as Hlen. rewrite length_drop in Hlen.
    simpl in Hlen.
    apply lookup_of_drop in Hdrop as [Hlook Hdrop]. rewrite Hlook.
    rewrite bool_decide_eq_true_2 by done.
    apply IH; [done|lia|simpl in Hfuel; lia].
Qed.

(** The loop computes the frames that [splits] reads off the rest of the
    stream, given fuel beyond the length of that rest. *)
Lemma split_loop_splits (data rest : list Z) (fs : list (list Z)) :
  splits rest fs →
  ∀ (start : nat) (acc : list (list Z)) (fuel : nat),
    drop start data = rest → (start ≤ length data)%nat →
    (length rest < fuel)%nat →
    split_loop data start acc fuel = Some (acc ++ fs).
Proof.
  induction 1 as [|b rest fs Hb Hsp IH|body rest fs Hbody Hsp IH|tail Htail];
    intros start acc fuel Hdrop Hstart Hfuel;
    (destruct fuel as [|fuel]; [simpl in Hfuel; lia|]);
    pose proof (f_equal length Hdrop) as Hlen; rewrite length_drop in Hlen;
    cbn [split_loop].
  - simpl in Hlen. rewrite lookup_ge_None_2 by lia. by rewrite app_nil_r.
  - apply lookup_of_drop in Hdrop as [Hlook Hdrop]. rewrite Hlook.
    rewrite bool_decide_eq_true_2 by done.
    simpl in Hlen, Hfuel. apply IH; [done|lia|lia].
  - pose proof Hdrop as Hdrop0.
    apply lookup_of_drop in Hdrop as [Hlook Hdrop]. rewrite Hlook.
    rewrite bool_decide_eq_false_2 by (intros H; by apply H).
    simpl in Hlen. rewrite length_app in Hlen. simpl in Hlen, Hfuel.
    rewrite length_app in Hfuel. simpl in Hfuel.
    rewrite (scan_end_finds data body rest (S start) _ Hdrop Hbody) by lia.
    rewrite bool_decide_eq_true_2 by lia.
    assert (Hslice : slice data start (S (S start + length body))
                     = 0xF0 :: body ++ [0xF7]).
    { unfold slice. rewrite Hdrop0.
      replace (S (S start + length body) - start)%nat
        with (S (length (body ++ [0xF7]))) by (rewrite length_app; simpl; lia).
      cbn [take]. f_equal.
      rewrite (cons_middle 0xF7 body rest), (assoc_L (++)).
      by rewrite take_app_length. }
    rewrite Hslice.
    rewrite (cons_middle (0xF0 :: body ++ [0xF7]) acc fs), (assoc_L (++)).
    apply IH; [|lia|lia].
    replace (S (S start + length body)) with (S start + S (length body))%nat
      by lia.
    rewrite <- drop_drop, Hdrop.
    rewrite (cons_middle 0xF7 body rest), (assoc_L (++)).
    replace (S (length body)) with (length (body ++ [0xF7]))
      by (rewrite length_app; simpl; lia).
    by rewrite drop_app_length.
  - apply lookup_of_drop in Hdrop as [Hlook Hdrop]. rewrite Hlook.
    rewrite bool_decide_eq_false_2 by (intros H; by apply H).
    simpl in Hlen.
    rewrite (scan_end_misses data tail (S start) _ Hdrop) by (done || lia).
    rewrite bool_decide_eq_false_2 by lia.
    by rewrite app_nil_r.
Qed.

Lemma split_splits (data : list Z) (fs : list (list Z)) :
  splits data fs → _split_sysex_messages data = Some fs.
Proof.
  intros Hsp. unfold _split_sysex_messages.
  apply (split_loop_splits data data fs Hsp 0 []); [done|lia|lia].
Qed.

Lemma first_end_byte (t : list Z) :
  Forall (λ b, b ≠ 0xF7) t
  ∨ ∃ body rest, t = body ++ 0xF7 :: rest ∧ Forall (λ b, b ≠ 0xF7) body.
Proof.
  induction t as [|b t IH]; [by left|].
  destruct (decide (b = 0xF7)) as [->|Hb].
  - right. by exists [], t.
  - destruct IH as [Hall|(body & rest & -> & Hbody)].
    + left. by constructor.
    + right. exists (b :: body), rest. split; [done|by constructor].
Qed.

(** Every stream splits: the scan always comes to an end. *)
Lemma splits_total (data : list Z) : ∃ fs, splits data fs.
Proof.
  induction data as [data IH] using (induction_ltof1 _ (@length Z)).
  unfold ltof in IH. destruct data as [|b rest].
  - exists []. apply splits_nil.
  - destruct (decide (b = 0xF0)) as [->|Hb].
    + destruct (first_end_byte rest) as [Hall|(body & rest' & -> & Hbody)].
      * exists []. by apply splits_open.
      * destruct (IH rest') as [fs Hfs].
        { simpl. rewrite length_app. simpl. lia. }
        eexists. by apply splits_frame.
    + destruct (IH rest) as [fs Hfs]; [simpl; lia|].
      exists fs. by apply splits_skip.
Qed.

Lemma splits_no_end_byte (tail : list Z) :
  Forall (λ b, b ≠ 0xF7) tail → splits tail [].
Proof.
  induction 1 as [|b tail Hb Htail IH]; [apply splits_nil|].
  destruct (decide (b = 0xF0)) as [->|Hne].
  - by apply splits_open.
  - by apply splits_skip.
Qed.

Lemma splits_garbage (garbage data : list Z) (fs : list (list Z)) :
  Forall (λ b, b ≠ 0xF0) garbage → splits data fs → splits (garbage ++ data) fs.
Proof.
  intros Hg Hsp. induction Hg as [|b garbage Hb Hg IH]; [done|].
  simpl. by apply splits_skip.
Qed.

Lemma splits_tail (data tail : list Z) (fs : list (list Z)) :
  Forall (λ b, b ≠ 0xF7) tail → splits data fs → splits (data ++ tail) fs.
Proof.
  intros Htail Hsp.
  induction Hsp as [|b rest fs Hb Hsp IH|body rest fs Hbody Hsp IH|tail0 Htail0];
    simpl.
  - by apply splits_no_end_byte.
  - by apply splits_skip.
  - rewrite <- (assoc_L (++)). simpl. by apply splits_frame.
  - apply splits_open. by apply Forall_app.
Qed.

Lemma splits_concat (fs : list (list Z)) :
  Forall well_formed_frame fs → splits (concat fs) fs.
Proof.
  induction 1 as [|f fs (body & -> & Hbody) Hfs IH]; simpl; [apply splits_nil|].
  rewrite <- (assoc_L (++)). simpl. apply splits_frame; [|done].
  eapply Forall_impl; [exact Hbody|]. simpl. tauto.
Qed.

Lemma splits_complete (data : list Z) (fs : list (list Z)) :
  splits data fs → Forall complete_span fs.
Proof.
  induction 1 as [|b rest fs Hb Hsp IH|body rest fs Hbody Hsp IH|tail Htail];
    try done.
  apply Forall_cons. split; [|done]. by exists body.
Qed.

Lemma splits_spans (data : list Z) (fs : list (list Z)) :
  splits data fs → ∀ f, f ∈ fs → ∃ l r, data = l ++ f ++ r.
Proof.
  induction 1 as [|b rest fs Hb Hsp IH|body rest fs Hbody Hsp IH|tail Htail];
    intros f Hf.
  - by apply elem_of_nil in Hf.
  - destruct (IH f Hf) as (l & r & ->). by exists (b :: l), r.
  - apply elem_of_cons in Hf as [->|Hf].
    + exists [], rest. simpl. by rewrite <- (assoc_L (++)).
    + destruct (IH f Hf) as (l & r & ->).
      exists (0xF0 :: body ++ 0xF7 :: l), r. simpl.
      by rewrite <- (assoc_L (++)).
  - by apply elem_of_nil in Hf.
Qed.

(** C7: for every byte stream that is a clean concatenation of K
    well-formed frames (each beginning with [0xF0], ending with [0xF7] and
    holding neither marker in between), splitting yields exactly those K
    frames in order, and joining the split, by concatenation with no
    separators, yields the stream byte for byte. *)
Theorem framer_round_trip (fs : list (list Z)) :
  Forall well_formed_frame fs →
  _split_sysex_messages (concat fs) = Some fs
  ∧ @concat Z <$> _split_sysex_messages (concat fs) = Some (concat fs).
Proof.
  intros Hfs. rewrite (split_splits _ _ (splits_concat fs Hfs)). by split.
Qed.

Lemma framer_round_trip_witness :
  _split_sysex_messages (concat [[0xF0; 1; 2; 0xF7]; [0xF0; 0xF7]; [0xF0; 9; 0xF7]])
  = Some [[0xF0; 1; 2; 0xF7]; [0xF0; 0xF7]; [0xF0; 9; 0xF7]]
  ∧ @concat Z <$> _split_sysex_messages
                 (concat [[0xF0; 1; 2; 0xF7]; [0xF0; 0xF7]; [0xF0; 9; 0xF7]])
    = Some (concat [[0xF0; 1; 2; 0xF7]; [0xF0; 0xF7]; [0xF0; 9; 0xF7]]).
Proof.
  apply (framer_round_trip [[0xF0; 1; 2; 0xF7]; [0xF0; 0xF7]; [0xF0; 9; 0xF7]]).
  repeat constructor.
  - exists [1; 2]. split; [reflexivity|]. repeat constructor; lia.
  - exists []. split; [reflexivity|]. constructor.
  - exists [9]. split; [reflexivity|]. repeat constructor; lia.
Defined.

(** The base frames are well formed, so a generated file splits back into
    its two frames. *)
Lemma EMBEDDED_MSGS_well_formed : Forall well_formed_frame EMBEDDED_MSGS.
Proof.
  assert (H : ∀ f, f ∈ EMBEDDED_MSGS →
                   ∃ body, f = 0xF0 :: body ++ [0xF7]
                           ∧ Forall (λ b, b ≠ 0xF0 ∧ b ≠ 0xF7) body).
  { intros f Hf. exists (take (length f - 2) (drop 1 f)).
    revert f Hf. apply Forall_forall. compute_done. }
  apply Forall_forall. intros f Hf. by apply H.
Qed.

(** C8: on every byte stream the splitter returns, without raising; bytes
    before the first [0xF0] yield no frame, and neither does a trailing
    [0xF0] that no [0xF7] follows before the end of the stream; every frame
    of the result is a complete span of the input, from a [0xF0] to the
    first [0xF7] after it. *)
Theorem silent_drop_policy (data garbage tail : list Z) :
  Forall (λ b, b ≠ 0xF0) garbage →
  Forall (λ b, b ≠ 0xF7) tail →
  ∃ fs,
    _split_sysex_messages data = Some fs
    ∧ _split_sysex_messages (garbage ++ data) = Some fs
    ∧ _split_sysex_messages (data ++ 0xF0 :: tail) = Some fs
    ∧ _split_sysex_messages (garbage ++ data ++ 0xF0 :: tail) = Some fs
    ∧ Forall complete_span fs
    ∧ (∀ f, f ∈ fs → ∃ l r, data = l ++ f ++ r).
Proof.
  intros Hg Htail. destruct (splits_total data) as [fs Hsp].
  assert (Htail' : Forall (λ b, b ≠ 0xF7) (0xF0 :: tail)) by by constructor.
  exists fs. split; [by apply split_splits|].
  split; [by apply split_splits, splits_garbage|].
  split; [by apply split_splits, splits_tail|].
  split; [by apply split_splits, splits_garbage, splits_tail|].
  split; [by eapply splits_complete|by apply splits_spans].
Qed.

Lemma silent_drop_policy_witness :
  ∃ fs,
    _split_sysex_messages [0xF0; 5; 0xF7; 3; 0xF0; 0xF0; 0xF7] = Some fs
    ∧ _split_sysex_messages ([1; 0xF7; 2] ++ [0xF0; 5; 0xF7; 3; 0xF0; 0xF0; 0xF7])
      = Some fs
    ∧ _split_sysex_messages ([0xF0; 5; 0xF7; 3; 0xF0; 0xF0; 0xF7] ++ 0xF0 :: [7; 0xF0])
      = Some fs
    ∧ _split_sysex_messages
        ([1; 0xF7; 2] ++ [0xF0; 5; 0xF7; 3; 0xF0; 0xF0; 0xF7] ++ 0xF0 :: [7; 0xF0])
      = Some fs
    ∧ Forall complete_span fs
    ∧ (∀ f, f ∈ fs → ∃ l r, [0xF0; 5; 0xF7; 3; 0xF0; 0xF0; 0xF7] = l ++ f ++ r).
Proof.
  apply (silent_drop_policy [0xF0; 5; 0xF7; 3; 0xF0; 0xF0; 0xF7]
           [1; 0xF7; 2] [7; 0xF0]).
  - repeat constructor; lia.
  - repeat constructor; lia.
Defined.

(** * Further properties of the code *)

(** ** The frame splitter beyond well-formed input *)

Lemma splits_complete_concat (fs : list (list Z)) :
  Forall complete_span fs → splits (concat fs) fs.
Proof.
  induction 1 as [|f fs (body & -> & Hbody) Hfs IH]; simpl; [apply splits_nil|].
  rewrite <- (assoc_L (++)). simpl. by apply splits_frame.
Qed.

Lemma splits_length (data : list Z) (fs : list (list Z)) :
  splits data fs → (length (concat fs) ≤ length data)%nat.
Proof.
  induction 1 as [|b rest fs Hb Hsp IH|body rest fs Hbody Hsp IH|tail Htail];
    simpl; try lia.
  repeat (rewrite !length_app; simpl). lia.
Qed.

(** X1: the splitter recovers any sequence of spans that each run from a
    [0xF0] to the first [0xF7] after it, also when a span holds further
    [0xF0] bytes inside: such a nested start byte does not open a frame of
    its own. *)
Theorem split_recovers_complete_spans (fs : list (list Z)) :
  Forall complete_span fs → _split_sysex_messages (concat fs) = Some fs.
Proof. intros Hfs. by apply split_splits, splits_complete_concat. Qed.

Lemma split_recovers_complete_spans_witness :
  _split_sysex_messages (concat [[0xF0; 0xF0; 1; 0xF7]; [0xF0; 0xF7]])
  = Some [[0xF0; 0xF0; 1; 0xF7]; [0xF0; 0xF7]].
Proof.
  apply (split_recovers_complete_spans [[0xF0; 0xF0; 1; 0xF7]; [0xF0; 0xF7]]).
  repeat constructor.
  - exists [0xF0; 1]. split; [reflexivity|]. repeat constructor; lia.
  - exists []. split; [reflexivity|]. constructor.
Defined.

(** X2: bytes in front that hold no [0xF0] and bytes at the end that hold
    no [0xF7] never change the result of splitting: the stream with them
    splits into the same frames as the stream without them.  A stream with
    no start byte at all, or with no end byte at all, yields no frame. *)
Theorem split_ignores_garbage_and_open_tail (data garbage tail : list Z) :
  Forall (λ b, b ≠ 0xF0) garbage →
  Forall (λ b, b ≠ 0xF7) tail →
  _split_sysex_messages (garbage ++ data ++ tail) = _split_sysex_messages data
  ∧ _split_sysex_messages garbage = Some []
  ∧ _split_sysex_messages tail = Some [].
Proof.
  intros Hg Htail. destruct (splits_total data) as [fs Hsp].
  split; [|split].
  - rewrite (split_splits data fs Hsp).
    by apply split_splits, splits_garbage, splits_tail.
  - apply split_splits. rewrite <- (app_nil_r garbage).
    apply splits_garbage; [done|apply splits_nil].
  - by apply split_splits, splits_no_end_byte.
Qed.

Lemma split_ignores_garbage_and_open_tail_witness :
  _split_sysex_messages ([7; 0xF7] ++ [0xF0; 1; 0xF7; 0xF0; 2; 0xF7] ++ [3; 0xF0; 4])
  = _split_sysex_messages [0xF0; 1; 0xF7; 0xF0; 2; 0xF7]
  ∧ _split_sysex_messages [7; 0xF7] = Some []
  ∧ _split_sysex_messages [3; 0xF0; 4] = Some [].
Proof.
  apply (split_ignores_garbage_and_open_tail
           [0xF0; 1; 0xF7; 0xF0; 2; 0xF7] [7; 0xF7] [3; 0xF0; 4]).
  - repeat constructor; lia.
  - repeat constructor; lia.
Defined.

(** X3: on every byte stream the splitter returns; joining the frames it
    found and splitting again gives the same frames, and the joined frames
    are never longer than the stream. *)
Theorem split_join_idempotent (data : list Z) :
  ∃ fs,
    _split_sysex_messages data = Some fs
    ∧ _split_sysex_messages (concat fs) = Some fs
    ∧ (length (concat fs) ≤ length data)%nat.
Proof.
  destruct (splits_total data) as [fs Hsp]. exists fs.
  split; [by apply split_splits|]. split.
  - apply split_splits, splits_complete_concat. by eapply splits_complete.
  - by apply splits_length.
Qed.

(** ** Template generation on any request *)

Lemma store_extension (σ σ' : store) (n : nat) :
  length σ' = (length σ + n)%nat →
  (∀ l, (l < length σ)%nat → σ' !! l = σ !! l) →
  ∃ ext, σ' = σ ++ ext ∧ length ext = n.
Proof.
  intros Hlen Hsame. exists (drop (length σ) σ'). split.
  - rewrite <- (take_drop (length σ) σ') at 1. f_equal.
    apply list_eq. intros l.
    destruct (decide (l < length σ)%nat) as [Hl|Hl].
    + by rewrite lookup_take_lt, Hsame.
    + rewrite lookup_take_ge by lia. by rewrite lookup_ge_None_2 by lia.
  - rewrite length_drop. lia.
Qed.

(** X4: whatever its arguments, and whether it returns or raises, a
    template generation leaves every bytearray that existed before the
    call as it was, the stored base messages included, and allocates
    exactly two new ones. *)
Theorem generate_template_keeps_store (σ : store) (self : SysExTemplateGenerator)
    (template_num : Z) (channel_mode : ChannelMode) (cc_mode : CCMode)
    (global_channel : option Z) (min_cc_value : Z) (cc_reverse : bool) :
  generator_ok σ self →
  ∃ r ext,
    generate_template self template_num channel_mode cc_mode global_channel
      min_cc_value cc_reverse σ = (r, σ ++ ext)
    ∧ length ext = 2%nat
    ∧ generator_ok (σ ++ ext) self.
Proof.
  intros Hok. rewrite generate_template_run by done.
  assert (Hbase : ∀ e : exn,
            ∃ r ext, (inl e, σ ++ EMBEDDED_MSGS)
                     = ((r, σ ++ ext) : (exn + list nat) * list (list Z))
                     ∧ length ext = 2%nat ∧ generator_ok (σ ++ ext) self).
  { intros e. exists (inl e), EMBEDDED_MSGS.
    split; [done|]. split; [done|]. by apply generator_ok_app. }
  destruct (requested_channel _ _ _) as [ch|]; [|apply Hbase].
  case_bool_decide as Hch; [|apply Hbase].
  destruct (do_writes _ _ _) as [r σ1] eqn:Hrun.
  destruct (do_writes_spec _ _ _ _ EMBEDDED_MSGS _
              (NoDup_seq _ _) (points_to_seq σ EMBEDDED_MSGS)
              (patch_writes_nonneg _ _) Hrun)
    as (Hlen & Hout & _).
  destruct (store_extension σ σ1 2) as (ext & -> & Hext).
  { rewrite Hlen, length_app. done. }
  { intros l Hl. rewrite Hout by (rewrite elem_of_seq; lia).
    by apply lookup_app_l. }
  destruct r as [e|[]]; eexists _, ext;
    (split; [done|]); (split; [done|]); by apply generator_ok_app.
Qed.

Lemma generate_template_keeps_store_witness :
  ∃ r ext,
    generate_template {| base_messages := [0; 1]%nat |} 0 GLOBAL CONTINUOUS
      (Some 5) 1 false EMBEDDED_MSGS = (r, EMBEDDED_MSGS ++ ext)
    ∧ length ext = 2%nat
    ∧ generator_ok (EMBEDDED_MSGS ++ ext) {| base_messages := [0; 1]%nat |}.
Proof.
  apply (generate_template_keeps_store EMBEDDED_MSGS
           {| base_messages := [0; 1]%nat |} 0 GLOBAL CONTINUOUS (Some 5) 1 false).
  apply generator_ok_EMBEDDED_MSGS.
Defined.

(** A generation whose channel is valid and whose CC values are all bytes
    returns the patched clones. *)
Lemma generate_template_frames (σ : store) (self : SysExTemplateGenerator)
    (template_num : Z) (channel_mode : ChannelMode) (cc_mode : CCMode)
    (global_channel : option Z) (min_cc_value : Z) (cc_reverse : bool) (ch : Z) :
  generator_ok σ self →
  requested_channel template_num channel_mode global_channel = Some ch →
  1 ≤ ch ≤ 16 →
  (∀ i, 0 ≤ i < 48 →
        0 ≤ Generator.cc_value_for (template_num - 1) cc_mode
              (Z.max min_cc_value SAFE_CC_MIN)
              (SAFE_CC_MAX - Z.max min_cc_value SAFE_CC_MIN + 1) cc_reverse i
        < 256) →
  generate_template self template_num channel_mode cc_mode global_channel
    min_cc_value cc_reverse σ
  = (inr (seq (length σ) (length EMBEDDED_MSGS)),
     σ ++ foldl write2 EMBEDDED_MSGS
            (channel_writes (ch - 1)
             ++ cc_writes (Generator.cc_value_for (template_num - 1) cc_mode
                             (Z.max min_cc_value SAFE_CC_MIN)
                             (SAFE_CC_MAX - Z.max min_cc_value SAFE_CC_MIN + 1)
                             cc_reverse))).
Proof.
  intros Hok Hreq Hch Hf.
  assert (Hrun : ∃ σ', generate_template self template_num channel_mode cc_mode
                         global_channel min_cc_value cc_reverse σ
                       = (inr (seq (length σ) (length EMBEDDED_MSGS)), σ')).
  { rewrite generate_template_run by done.
    rewrite Hreq, bool_decide_eq_true_2 by done.
    destruct (do_writes_ok
                (channel_writes (ch - 1)
                 ++ cc_writes (Generator.cc_value_for (template_num - 1) cc_mode
                                 (Z.max min_cc_value SAFE_CC_MIN)
                                 (SAFE_CC_MAX - Z.max min_cc_value SAFE_CC_MIN + 1)
                                 cc_reverse))
                (σ ++ EMBEDDED_MSGS) (seq (length σ) (length EMBEDDED_MSGS))
                EMBEDDED_MSGS)
      as (σ' & Hrun & _).
    - apply NoDup_seq.
    - apply points_to_seq.
    - apply patch_writes_nonneg.
    - apply Forall_app. split.
      + apply channel_writes_valid; [apply fits_EMBEDDED_MSGS|lia].
      + by apply cc_writes_valid; [apply fits_EMBEDDED_MSGS|].
    - rewrite Hrun. by exists σ'. }
  destruct Hrun as [σ' Hrun]. rewrite Hrun.
  destruct (generate_template_returns _ _ _ _ _ _ _ _ _ _ Hok Hrun)
    as (ch' & Hreq' & _ & _ & ->).
  rewrite Hreq in Hreq'. by injection Hreq' as <-.
Qed.

(** The CC byte of a control in patched frames. *)
Lemma patched_cc_byte (zero_based_channel : Z) (f : Z → Z) (i : Z) (c : control) :
  0 ≤ i → CONTROLS !! Z.to_nat i = Some c →
  lookup2 (foldl write2 EMBEDDED_MSGS
             (channel_writes zero_based_channel ++ cc_writes f))
          (Z.to_nat (msg_index c)) (Z.to_nat (cc_pos c))
  = Some (f i).
Proof.
  intros Hi Hc.
  assert (Hin : (i, c) ∈ enumerate CONTROLS) by by apply elem_of_enumerate.
  pose proof CONTROLS_nonneg as Hnn.
  rewrite Forall_forall in Hnn. destruct (Hnn _ Hin) as (_ & _ & Hcc & _).
  simpl in Hcc.
  pose proof (elem_of_enumerate_snd _ _ Hin) as Hc'. simpl in Hc'.
  destruct (fits_lookup EMBEDDED_MSGS c fits_EMBEDDED_MSGS Hc')
    as (n & Hn & Hlt & _).
  apply patched_lookup_written.
  - apply elem_of_app. right. unfold cc_writes.
    by apply (list_elem_of_fmap_2
                (λ ic : Z * control, ((msg_index ic.2, cc_pos ic.2), f ic.1))
                _ (i, c)).
  - eapply lookup2_is_Some_shape; [exact Hn|lia].
Qed.

(** X5: in continuous mode the safe range is used up by the first three
    templates: from template number 4 on, whatever the requested minimum
    and direction, a generation disables every control (CC byte 0 at every
    CC offset). *)
Theorem continuous_exhausted_from_template_4 (σ : store)
    (self : SysExTemplateGenerator) (template_num : Z)
    (channel_mode : ChannelMode) (global_channel : option Z)
    (min_cc_value : Z) (cc_reverse : bool) (ch : Z) :
  generator_ok σ self → 4 ≤ template_num →
  requested_channel template_num channel_mode global_channel = Some ch →
  1 ≤ ch ≤ 16 →
  ∃ σ' msgs frames,
    generate_template self template_num channel_mode CONTINUOUS global_channel
      min_cc_value cc_reverse σ = (inr msgs, σ')
    ∧ points_to σ' msgs frames
    ∧ ∀ i c, 0 ≤ i → CONTROLS !! Z.to_nat i = Some c →
        lookup2 frames (Z.to_nat (msg_index c)) (Z.to_nat (cc_pos c)) = Some 0.
Proof.
  intros Hok Ht Hreq Hch. eexists _, _, _. split; [|split].
  - apply (generate_template_frames σ self template_num channel_mode CONTINUOUS
             global_channel min_cc_value cc_reverse ch Hok Hreq Hch).
    intros i Hi. rewrite cc_value_for_spec. apply spec_cc_byte_is_byte; lia.
  - apply points_to_patched.
  - intros i c Hi Hc. rewrite (patched_cc_byte _ _ i c Hi Hc). f_equal.
    rewrite cc_value_for_spec. unfold spec_cc_byte, SAFE_CC_MAX, SAFE_CC_MIN.
    rewrite bool_decide_eq_true_2; [done|lia].
Qed.

Lemma continuous_exhausted_from_template_4_witness :
  ∃ σ' msgs frames,
    generate_template {| base_messages := [0; 1]%nat |} 4 PER_TEMPLATE
      CONTINUOUS None 1 false EMBEDDED_MSGS = (inr msgs, σ')
    ∧ points_to σ' msgs frames
    ∧ ∀ i c, 0 ≤ i → CONTROLS !! Z.to_nat i = Some c →
        lookup2 frames (Z.to_nat (msg_index c)) (Z.to_nat (cc_pos c)) = Some 0.
Proof.
  apply (continuous_exhausted_from_template_4 EMBEDDED_MSGS
           {| base_messages := [0; 1]%nat |} 4 PER_TEMPLATE None 1 false 4).
  - apply generator_ok_EMBEDDED_MSGS.
  - lia.
  - reflexivity.
  - lia.
Defined.

(** X6: the template number itself is never validated.  With template
    number 0, a valid global channel, continuous numbering, reverse
    direction and a requested minimum of at most 126, a generation returns
    frames whose CC bytes run from 174 at the first control down to 127 at
    the last: all above the safe maximum 126. *)
Theorem template_zero_reverse_above_safe_range (σ : store)
    (self : SysExTemplateGenerator) (ch min_cc_value : Z) :
  generator_ok σ self → 1 ≤ ch ≤ 16 → min_cc_value ≤ 126 →
  ∃ σ' msgs frames,
    generate_template self 0 GLOBAL CONTINUOUS (Some ch) min_cc_value true σ
    = (inr msgs, σ')
    ∧ points_to σ' msgs frames
    ∧ ∀ i c, 0 ≤ i → CONTROLS !! Z.to_nat i = Some c →
        lookup2 frames (Z.to_nat (msg_index c)) (Z.to_nat (cc_pos c))
        = Some (174 - i)
        ∧ SAFE_CC_MAX < 174 - i.
Proof.
  intros Hok Hch Hmin.
  assert (Hf : ∀ i, 0 ≤ i < 48 →
            Generator.cc_value_for (0 - 1) CONTINUOUS
              (Z.max min_cc_value SAFE_CC_MIN)
              (SAFE_CC_MAX - Z.max min_cc_value SAFE_CC_MIN + 1) true i
            = 174 - i).
  { intros i Hi. unfold Generator.cc_value_for, N_CONTROLS, SAFE_CC_MAX, SAFE_CC_MIN.
    rewrite bool_decide_eq_false_2 by lia.
    rewrite bool_decide_eq_false_2 by lia. lia. }
  eexists _, _, _. split; [|split].
  - apply (generate_template_frames σ self 0 GLOBAL CONTINUOUS (Some ch)
             min_cc_value true ch Hok eq_refl Hch).
    intros i Hi. rewrite Hf by done. lia.
  - apply points_to_patched.
  - intros i c Hi Hc. pose proof (CONTROLS_lookup_range i c Hi Hc) as Hlt.
    rewrite (patched_cc_byte _ _ i c Hi Hc), Hf by lia.
    split; [done|]. unfold SAFE_CC_MAX. lia.
Qed.

Lemma template_zero_reverse_above_safe_range_witness :
  ∃ σ' msgs frames,
    generate_template {| base_messages := [0; 1]%nat |} 0 GLOBAL CONTINUOUS
      (Some 5) 1 true EMBEDDED_MSGS = (inr msgs, σ')
    ∧ points_to σ' msgs frames
    ∧ ∀ i c, 0 ≤ i → CONTROLS !! Z.to_nat i = Some c →
        lookup2 frames (Z.to_nat (msg_index c)) (Z.to_nat (cc_pos c))
        = Some (174 - i)
        ∧ SAFE_CC_MAX < 174 - i.
Proof.
  apply (template_zero_reverse_above_safe_range EMBEDDED_MSGS
           {| base_messages := [0; 1]%nat |} 5 1).
  - apply generator_ok_EMBEDDED_MSGS.
  - lia.
  - lia.
Defined.

(** ** The single-file generator *)

(** X7: the generator of [launchcontrol_xl3_programmer.py] never disables
    a control: for every template index, also a negative one, and every
    control its CC byte lies in [1, 127]; and in continuous mode it reuses
    controller numbers: two controls whose global control indices
    [t * 48 + i] agree modulo 127 get the same CC byte. *)
Theorem legacy_cc_wraps_and_collides (σ : store) (messages : list loc)
    (ms : list bytearray) (t1 i1 t2 i2 : Z) (c1 c2 : control) :
  patchable σ messages ms →
  0 ≤ i1 → CONTROLS !! Z.to_nat i1 = Some c1 →
  0 ≤ i2 → CONTROLS !! Z.to_nat i2 = Some c2 →
  ∃ σ1 ms1 b1 σ2 ms2 b2,
    Legacy._assign_continuous_controllers messages t1 CONTINUOUS σ = (inr tt, σ1)
    ∧ points_to σ1 messages ms1
    ∧ lookup2 ms1 (Z.to_nat (msg_index c1)) (Z.to_nat (cc_pos c1)) = Some b1
    ∧ Legacy._assign_continuous_controllers messages t2 CONTINUOUS σ = (inr tt, σ2)
    ∧ points_to σ2 messages ms2
    ∧ lookup2 ms2 (Z.to_nat (msg_index c2)) (Z.to_nat (cc_pos c2)) = Some b2
    ∧ 1 ≤ b1 ≤ 127 ∧ 1 ≤ b2 ≤ 127
    ∧ ((t1 * 48 + i1) `mod` 127 = (t2 * 48 + i2) `mod` 127 → b1 = b2).
Proof.
  intros Hp Hi1 Hc1 Hi2 Hc2.
  destruct (legacy_assign_written σ messages ms t1 CONTINUOUS Hp)
    as (σ1 & ms1 & Hrun1 & Hpt1 & Hcc1).
  destruct (legacy_assign_written σ messages ms t2 CONTINUOUS Hp)
    as (σ2 & ms2 & Hrun2 & Hpt2 & Hcc2).
  exists σ1, ms1, (Legacy.cc_value_for t1 CONTINUOUS i1),
         σ2, ms2, (Legacy.cc_value_for t2 CONTINUOUS i2).
  split; [done|]. split; [done|]. split; [by apply Hcc1|].
  split; [done|]. split; [done|]. split; [by apply Hcc2|].
  unfold Legacy.cc_value_for, N_CONTROLS, MAX_CC_VALUE, MIN_CC_VALUE.
  pose proof (Z.mod_pos_bound (t1 * 48 + i1) 127).
  pose proof (Z.mod_pos_bound (t2 * 48 + i2) 127).
  split; [lia|]. split; [lia|]. intros Heq. by rewrite Heq.
Qed.

Lemma legacy_cc_wraps_and_collides_witness :
  ∃ σ1 ms1 b1 σ2 ms2 b2,
    Legacy._assign_continuous_controllers [0; 1]%nat 0 CONTINUOUS EMBEDDED_MSGS
    = (inr tt, σ1)
    ∧ points_to σ1 [0; 1]%nat ms1
    ∧ lookup2 ms1 0 37 = Some b1
    ∧ Legacy._assign_continuous_controllers [0; 1]%nat 2 CONTINUOUS EMBEDDED_MSGS
      = (inr tt, σ2)
    ∧ points_to σ2 [0; 1]%nat ms2
    ∧ lookup2 ms2 1 114 = Some b2
    ∧ 1 ≤ b1 ≤ 127 ∧ 1 ≤ b2 ≤ 127
    ∧ ((0 * 48 + 0) `mod` 127 = (2 * 48 + 31) `mod` 127 → b1 = b2).
Proof.
  apply (legacy_cc_wraps_and_collides EMBEDDED_MSGS [0; 1]%nat EMBEDDED_MSGS
           0 0 2 31 (Ctl 0 37 34 32 35) (Ctl 1 114 111 109 112)).
  - apply patchable_EMBEDDED_MSGS.
  - lia.
  - reflexivity.
  - lia.
  - reflexivity.
Defined.

(** ** Generated frames are SysEx frames *)

Lemma insert_well_formed (f : list Z) (o : nat) (v : Z) :
  well_formed_frame f → (1 ≤ o)%nat → (o + 1 < length f)%nat →
  v ≠ 0xF0 → v ≠ 0xF7 →
  well_formed_frame (<[o := v]> f).
Proof.
  intros (body & -> & Hbody) Ho Hlen Hv0 Hv7.
  destruct o as [|o]; [lia|]. simpl in Hlen. rewrite length_app in Hlen.
  simpl in Hlen. exists (<[o := v]> body). split.
  - simpl. f_equal. apply insert_app_l. lia.
  - apply Forall_insert; [done|]. split; done.
Qed.

Lemma write2_well_formed (ms : list bytearray) (w : write) :
  Forall well_formed_frame ms →
  (∃ n : nat, shape ms !! Z.to_nat w.1.1 = Some n
              ∧ (1 ≤ Z.to_nat w.1.2)%nat ∧ (Z.to_nat w.1.2 + 1 < n)%nat) →
  w.2 ≠ 0xF0 → w.2 ≠ 0xF7 →
  Forall well_formed_frame (write2 ms w).
Proof.
  destruct w as [[mi p] v]; simpl. intros Hwf (n & Hn & Hp1 & Hp2) Hv0 Hv7.
  unfold shape in Hn. rewrite list_lookup_fmap in Hn.
  destruct (ms !! Z.to_nat mi) as [m|] eqn:Hm; [|done]. injection Hn as <-.
  unfold write2; simpl. rewrite (list_lookup_total_correct _ _ _ Hm).
  apply Forall_insert; [done|]. apply insert_well_formed; try done.
  rewrite Forall_forall in Hwf. apply Hwf. by eapply list_elem_of_lookup_2.
Qed.

Lemma foldl_write2_well_formed (ws : list write) (ms : list bytearray) :
  Forall well_formed_frame ms →
  Forall (λ w : write,
            (∃ n : nat, shape ms !! Z.to_nat w.1.1 = Some n
                        ∧ (1 ≤ Z.to_nat w.1.2)%nat ∧ (Z.to_nat w.1.2 + 1 < n)%nat)
            ∧ w.2 ≠ 0xF0 ∧ w.2 ≠ 0xF7) ws →
  Forall well_formed_frame (foldl write2 ms ws).
Proof.
  revert ms. induction ws as [|w ws IH]; intros ms Hwf Hws; [done|].
  apply Forall_cons in Hws as [(Hpos & Hv0 & Hv7) Hws]. simpl.
  apply IH; [by apply write2_well_formed|].
  by rewrite shape_write2.
Qed.

Lemma shape_EMBEDDED_MSGS : shape EMBEDDED_MSGS = [342; 342]%nat.
Proof. reflexivity. Qed.

(** The positions of all writes of a generation lie strictly inside the
    frames, after the start byte and before the end byte. *)
Lemma patch_writes_inside (zero_based_channel : Z) (f : Z → Z) :
  Forall (λ w : write,
            ∃ n : nat, shape EMBEDDED_MSGS !! Z.to_nat w.1.1 = Some n
                       ∧ (1 ≤ Z.to_nat w.1.2)%nat ∧ (Z.to_nat w.1.2 + 1 < n)%nat)
         (channel_writes zero_based_channel ++ cc_writes f).
Proof.
  assert (Hc : ∀ c pos, c ∈ CONTROLS → 29 ≤ pos < 341 →
             ∃ n : nat, shape EMBEDDED_MSGS !! Z.to_nat (msg_index c) = Some n
                        ∧ (1 ≤ Z.to_nat pos)%nat ∧ (Z.to_nat pos + 1 < n)%nat).
  { intros c pos Hc Hpos. pose proof CONTROLS_patched_span as Hsp.
    rewrite Forall_forall in Hsp. destruct (Hsp c Hc) as (Hmi & _).
    rewrite shape_EMBEDDED_MSGS. exists 342%nat. split; [|lia].
    assert (Hcases : msg_index c = 0 ∨ msg_index c = 1) by lia.
    by destruct Hcases as [-> | ->]. }
  pose proof CONTROLS_patched_span as Hsp. rewrite Forall_forall in Hsp.
  apply Forall_app. split.
  - unfold channel_writes. apply Forall_bind, Forall_forall. intros c Hin.
    destruct (Hsp c Hin) as (_ & _ & Hch & Hfl).
    unfold channel_writes_of. apply Forall_cons. split; [by apply Hc|].
    destruct (bool_decide (flag_pos c >= 0)); [|done].
    apply Forall_singleton. by apply Hc.
  - unfold cc_writes. apply Forall_fmap, Forall_forall. intros [i c] Hin.
    apply elem_of_enumerate_snd in Hin. simpl in Hin.
    destruct (Hsp c Hin) as (_ & Hcc & _). by apply Hc.
Qed.

(** X8: the frames of a generated template are SysEx frames again: for a
    template number from 1 on and a valid channel, both returned frames are
    342 bytes long, start with [0xF0], end with [0xF7] and hold neither
    marker in between, so the file made of them splits back into exactly
    these two frames. *)
Theorem generated_frames_split_back (σ : store) (self : SysExTemplateGenerator)
    (template_num : Z) (channel_mode : ChannelMode) (cc_mode : CCMode)
    (global_channel : option Z) (min_cc_value : Z) (cc_reverse : bool) (ch : Z) :
  generator_ok σ self → 1 ≤ template_num →
  requested_channel template_num channel_mode global_channel = Some ch →
  1 ≤ ch ≤ 16 →
  ∃ σ' msgs frames,
    generate_template self template_num channel_mode cc_mode global_channel
      min_cc_value cc_reverse σ = (inr msgs, σ')
    ∧ points_to σ' msgs frames
    ∧ shape frames = [342; 342]%nat
    ∧ Forall well_formed_frame frames
    ∧ _split_sysex_messages (concat frames) = Some frames.
Proof.
  intros Hok Ht Hreq Hch.
  assert (Hf : ∀ i, 0 ≤ i < 48 →
            0 ≤ Generator.cc_value_for (template_num - 1) cc_mode
                  (Z.max min_cc_value SAFE_CC_MIN)
                  (SAFE_CC_MAX - Z.max min_cc_value SAFE_CC_MIN + 1) cc_reverse i
            ≤ 126).
  { intros i Hi. rewrite cc_value_for_spec.
    destruct (spec_cc_byte_range 48 (template_num - 1) i cc_mode cc_reverse
                min_cc_value) as [-> | H]; [lia..|].
    unfold SAFE_CC_MAX, SAFE_CC_MIN in H. lia. }
  assert (Hwf : Forall well_formed_frame
                  (foldl write2 EMBEDDED_MSGS
                     (channel_writes (ch - 1)
                      ++ cc_writes (Generator.cc_value_for (template_num - 1) cc_mode
                                      (Z.max min_cc_value SAFE_CC_MIN)
                                      (SAFE_CC_MAX - Z.max min_cc_value SAFE_CC_MIN + 1)
                                      cc_reverse)))).
  { apply foldl_write2_well_formed; [apply EMBEDDED_MSGS_well_formed|].
    apply Forall_and. split; [apply patch_writes_inside|].
    apply Forall_app. split.
    - unfold channel_writes. apply Forall_bind, Forall_forall. intros c _.
      unfold channel_writes_of. apply Forall_cons. simpl. split; [lia|].
      destruct (bool_decide (flag_pos c >= 0)); [|done].
      apply Forall_singleton. simpl. lia.
    - unfold cc_writes. apply Forall_fmap, Forall_forall. intros [i c] Hin.
      pose proof CONTROLS_nonneg as Hnn. rewrite Forall_forall in Hnn.
      destruct (Hnn _ Hin) as (Hi & _). simpl in Hi |- *.
      specialize (Hf i Hi). lia. }
  eexists _, _, _. split; [|split; [|split; [|split]]].
  - apply (generate_template_frames σ self template_num channel_mode cc_mode
             global_channel min_cc_value cc_reverse ch Hok Hreq Hch).
    intros i Hi. specialize (Hf i Hi). lia.
  - apply points_to_patched.
  - by rewrite shape_foldl_write2.
  - exact Hwf.
  - by apply split_splits, splits_concat.
Qed.

Lemma generated_frames_split_back_witness :
  ∃ σ' msgs frames,
    generate_template {| base_messages := [0; 1]%nat |} 3 GLOBAL CONTINUOUS
      (Some 16) 1 true EMBEDDED_MSGS = (inr msgs, σ')
    ∧ points_to σ' msgs frames
    ∧ shape frames = [342; 342]%nat
    ∧ Forall well_formed_frame frames
    ∧ _split_sysex_messages (concat frames) = Some frames.
Proof.
  apply (generated_frames_split_back EMBEDDED_MSGS
           {| base_messages := [0; 1]%nat |} 3 GLOBAL CONTINUOUS (Some 16) 1 true 16).
  - apply generator_ok_EMBEDDED_MSGS.
  - lia.
  - reflexivity.
  - lia.
Defined.

(** ** Colour extraction and application *)

Lemma write2_id (ms : list bytearray) (w : write) :
  lookup2 ms (Z.to_nat w.1.1) (Z.to_nat w.1.2) = None → write2 ms w = ms.
Proof.
  destruct w as [[mi p] v]; simpl. unfold lookup2, write2; simpl. intros Hnone.
  destruct (ms !! Z.to_nat mi) as [m|] eqn:Hm; simpl in Hnone.
  - rewrite (list_lookup_total_correct _ _ _ Hm).
    rewrite (list_insert_ge m) by (by apply lookup_ge_None).
    by apply list_insert_id.
  - apply list_insert_ge. by apply lookup_ge_None.
Qed.

Lemma in_frame_lookup2 (ms : list bytearray) (c : control) :
  0 ≤ msg_index c → 0 ≤ color_pos c →
  in_frame ms c = true
  ↔ lookup2 ms (Z.to_nat (msg_index c)) (Z.to_nat (color_pos c))
    = Some ((ms !!! Z.to_nat (msg_index c)) !!! Z.to_nat (color_pos c)).
Proof.
  intros Hmi Hcp. unfold in_frame, lookup2.
  rewrite andb_true_iff, !bool_decide_eq_true.
  destruct (ms !! Z.to_nat (msg_index c)) as [m|] eqn:Hm; simpl.
  - rewrite (list_lookup_total_correct _ _ _ Hm).
    apply lookup_lt_Some in Hm as Hlt. split.
    + intros [_ Hlen]. apply list_lookup_lookup_total_lt. lia.
    + intros Hb. apply lookup_lt_Some in Hb. lia.
  - apply lookup_ge_None in Hm. split; [lia|done].
Qed.

Lemma in_frame_false_lookup2 (ms : list bytearray) (c : control) :
  0 ≤ msg_index c → 0 ≤ color_pos c →
  in_frame ms c = false →
  lookup2 ms (Z.to_nat (msg_index c)) (Z.to_nat (color_pos c)) = None.
Proof.
  intros Hmi Hcp Hin.
  destruct (lookup2 ms _ _) as [b|] eqn:Hb; [|done].
  assert (Htrue : in_frame ms c = true).
  { apply in_frame_lookup2; [done..|]. rewrite Hb. f_equal.
    unfold lookup2 in Hb.
    destruct (ms !! Z.to_nat (msg_index c)) as [m|] eqn:Hm; [|done].
    simpl in Hb. rewrite (list_lookup_total_correct _ _ _ Hm).
    symmetry. by apply list_lookup_total_correct. }
  congruence.
Qed.

(** The application loop performs the colour writes in order. *)
Lemma apply_fold_as_writes (cs : gmap (Z * Z) string) (items : list (Z * control))
    (ms : list bytearray) :
  Forall (λ ic : Z * control, 0 ≤ msg_index ic.2 ∧ 0 ≤ color_pos ic.2) items →
  foldl (apply_step cs) ms items = foldl write2 ms (omap (color_write_of cs) items).
Proof.
  intros Hnn. revert ms. induction Hnn as [|[i c] items [Hmi Hcp] Hnn IH];
    intros ms; [done|].
  simpl in Hmi, Hcp. cbn [foldl omap list_omap].
  unfold color_write_of at 1, position_of at 1, apply_step at 2. simpl.
  destruct (in_frame ms c) eqn:Hin.
  - destruct (_control_index_to_position i) as [[row col]|]; simpl; apply IH.
  - destruct (_control_index_to_position i) as [[row col]|]; simpl; [|apply IH].
    rewrite write2_id; [apply IH|]. by apply in_frame_false_lookup2.
Qed.

Lemma extract_fold_other (fs : list bytearray) (items : list (Z * control))
    (cs : gmap (Z * Z) string) (k : Z * Z) :
  k ∉ omap position_of items →
  foldl (extract_step fs) cs items !! k = cs !! k.
Proof.
  revert cs. induction items as [|[i c] items IH]; intros cs Hk; [done|].
  cbn [foldl omap list_omap] in *. unfold position_of at 1 in Hk. simpl in Hk.
  unfold extract_step at 2.
  destruct (_control_index_to_position i) as [[row col]|] eqn:Hpos.
  - apply not_elem_of_cons in Hk as [Hne Hk].
    destruct (in_frame fs c); rewrite IH by done; [|done].
    by rewrite lookup_insert_ne.
  - destruct (in_frame fs c); by rewrite IH.
Qed.

Lemma extract_fold_lookup (fs : list bytearray) (items : list (Z * control))
    (cs : gmap (Z * Z) string) (i : Z) (c : control) (p : Z * Z) :
  NoDup (omap position_of items) →
  (i, c) ∈ items → _control_index_to_position i = Some p →
  in_frame fs c = true →
  foldl (extract_step fs) cs items !! p = Some (extracted_name fs c).
Proof.
  revert cs. induction items as [|[i' c'] items IH]; intros cs Hnd Hin Hpos Hfr.
  - by apply elem_of_nil in Hin.
  - cbn [foldl omap list_omap] in *. unfold position_of at 1 in Hnd.
    simpl in Hnd. apply elem_of_cons in Hin as [[= <- <-]|Hin].
    + rewrite Hpos in Hnd. apply NoDup_cons in Hnd as [Hp _].
      rewrite extract_fold_other by done.
      unfold extract_step. rewrite Hfr, Hpos. destruct p as [row col].
      by rewrite lookup_insert_eq.
    + apply IH; try done.
      destruct (_control_index_to_position i') as [p'|]; [|done].
      by apply NoDup_cons in Hnd as [_ ?].
Qed.

(** Every control has a grid position, and no two share one. *)
Lemma CONTROLS_positions :
  Forall (λ ic : Z * control, is_Some (position_of ic)) (enumerate CONTROLS)
  ∧ NoDup (omap position_of (enumerate CONTROLS)).
Proof. split; compute_done. Qed.

(** No two controls share a colour offset. *)
Lemma color_keys_NoDup (cs : gmap (Z * Z) string) : NoDup (color_writes cs).*1.
Proof. apply (bool_decide_unpack _). vm_compute. exact I. Qed.



Lemma colors_with_colors (self : LEDColorMapper) (cs : gmap (Z * Z) string) :
  colors (with_colors self cs) = cs.
Proof. done. Qed.

Lemma extract_run (self : LEDColorMapper) (data : list Z) (fs : list bytearray) :
  _split_sysex_messages data = Some fs →
  _extract_colors_from_sysex self data
  = Some (with_colors self
            (foldl (extract_step fs) (colors self) (enumerate CONTROLS))).
Proof. intros Hsplit. unfold _extract_colors_from_sysex. by rewrite Hsplit. Qed.

Lemma apply_run (self : LEDColorMapper) (data : list Z) (fs : list bytearray) :
  _split_sysex_messages data = Some fs →
  _apply_colors_to_sysex self data
  = Some (concat (foldl write2 fs (color_writes (colors self)))).
Proof.
  intros Hsplit. unfold _apply_colors_to_sysex. rewrite Hsplit.
  cbn [mbind option_bind]. do 2 f_equal. unfold color_writes.
  apply apply_fold_as_writes.
  eapply Forall_impl; [apply CONTROLS_nonneg|]. simpl. tauto.
Qed.

Lemma find_color_name_absent (items : list (string * Z)) (b : Z) :
  (∀ name, (name, b) ∉ items) → find_color_name items b = "off"%string.
Proof.
  induction items as [|[name value] items IH]; intros Habs; [done|].
  simpl. rewrite bool_decide_eq_false_2.
  - apply IH. intros name' Hin. apply (Habs name'). by apply elem_of_cons; right.
  - intros ->. apply (Habs name). by apply elem_of_cons; left.
Qed.

Lemma resolved_in_table (b : Z) : in_color_table b → resolved b = b.
Proof.
  intros [name Hin].
  assert (Hall : Forall (λ nb : string * Z, resolved nb.2 = nb.2) COLOR_MAP)
    by compute_done.
  rewrite Forall_forall in Hall. apply (Hall _ Hin).
Qed.

Lemma resolved_not_in_table (b : Z) : ¬ in_color_table b → resolved b = 0x03.
Proof.
  intros Habs. unfold resolved. rewrite find_color_name_absent; [done|].
  intros name Hin. apply Habs. by exists name.
Qed.

Lemma color_writes_eq (cs : gmap (Z * Z) string) :
  color_writes cs = omap (color_write_of cs) (enumerate CONTROLS).
Proof. reflexivity. Qed.

Lemma elem_of_color_writes (cs : gmap (Z * Z) string) (w : write) :
  w ∈ color_writes cs
  ↔ ∃ ic, ic ∈ enumerate CONTROLS ∧ color_write_of cs ic = Some w.
Proof. rewrite color_writes_eq. apply list_elem_of_omap. Qed.

Lemma color_write_of_key (cs : gmap (Z * Z) string) (ic : Z * control) (w : write) :
  color_write_of cs ic = Some w → w.1 = (msg_index ic.2, color_pos ic.2).
Proof.
  unfold color_write_of. destruct (position_of ic) as [p|]; [|done].
  intros [= <-]. done.
Qed.

Lemma color_write_of_Some (cs : gmap (Z * Z) string) (ic : Z * control)
    (p : Z * Z) (name : string) :
  position_of ic = Some p → cs !! p = Some name →
  color_write_of cs ic
  = Some ((msg_index ic.2, color_pos ic.2), color_value_of name).
Proof. intros Hp Hname. unfold color_write_of. by rewrite Hp; simpl; rewrite Hname. Qed.

Lemma color_writes_nonneg (cs : gmap (Z * Z) string) :
  Forall (λ w : write, 0 ≤ w.1.1 ∧ 0 ≤ w.1.2) (color_writes cs).
Proof.
  apply Forall_forall. intros w Hw.
  apply elem_of_color_writes in Hw as (ic & Hin & Hw).
  apply color_write_of_key in Hw. rewrite Hw.
  pose proof CONTROLS_nonneg as Hnn. rewrite Forall_forall in Hnn.
  destruct (Hnn _ Hin) as (_ & Hmi & _ & _ & Hcp & _). done.
Qed.

(** The byte at an offset of the frames after extraction from them and
    application to them. *)
Lemma recolored_lookup (fs : list bytearray) (cs cs' : gmap (Z * Z) string)
    (j o : nat) (b : Z) :
  cs' = foldl (extract_step fs) cs (enumerate CONTROLS) →
  lookup2 fs j o = Some b →
  (color_offset j o →
   lookup2 (foldl write2 fs (color_writes cs')) j o = Some (resolved b))
  ∧ (¬ color_offset j o →
     lookup2 (foldl write2 fs (color_writes cs')) j o = Some b).
Proof.
  intros Hcs' Hb. rewrite lookup2_foldl_write2 by apply color_writes_nonneg.
  rewrite Hb. split.
  - intros (c & Hc & Hmi & Hcp).
    apply list_elem_of_lookup in Hc as [n Hn].
    assert (Hin : (Z.of_nat n, c) ∈ enumerate CONTROLS).
    { apply elem_of_enumerate; [lia|]. by rewrite Nat2Z.id. }
    destruct CONTROLS_positions as [Hpos Hnd].
    rewrite Forall_forall in Hpos. destruct (Hpos _ Hin) as [p Hp].
    assert (Hval : (fs !!! Z.to_nat (msg_index c)) !!! Z.to_nat (color_pos c) = b).
    { rewrite Hmi, Hcp, !Nat2Z.id. unfold lookup2 in Hb.
      destruct (fs !! j) as [m|] eqn:Hm; [|done].
      rewrite (list_lookup_total_correct _ _ _ Hm).
      by apply list_lookup_total_correct. }
    assert (Hfr : in_frame fs c = true).
    { apply in_frame_lookup2; [lia..|].
      by rewrite Hval, Hmi, Hcp, !Nat2Z.id. }
    assert (Hname : cs' !! p = Some (extracted_name fs c)).
    { rewrite Hcs'. by apply (extract_fold_lookup fs _ cs _ c p Hnd Hin Hp Hfr). }
    rewrite (last_write_NoDup _ _ (resolved b) (color_keys_NoDup cs')); [done|].
    apply elem_of_color_writes. exists (Z.of_nat n, c). split; [done|].
    rewrite (color_write_of_Some cs' _ p _ Hp Hname).
    unfold resolved, extracted_name. rewrite Hval.
    change ((Z.of_nat n, c).2) with c. by rewrite Hmi, Hcp.
  - clear Hcs'. intros Hno. rewrite last_write_None; [done|].
    intros Hin. apply Hno.
    apply list_elem_of_fmap in Hin as (w & Heq & Hin).
    apply elem_of_color_writes in Hin as (ic & Hic & Hw).
    apply color_write_of_key in Hw. rewrite Hw in Heq. injection Heq as Hmi Hcp.
    exists ic.2. split; [by apply elem_of_enumerate_snd|]. done.
Qed.

(** X9: extraction followed by application, on any byte stream and any
    colour mapper: the stream splits into frames, extraction and
    application both return, and the bytes written are the join of frames
    of the same lengths in which every byte outside the colour offsets is
    the original byte and every byte at a colour offset is the colour-table
    byte of the name extracted from the original byte: the original byte
    itself when it is a code of the table, [0x03] (off) otherwise. *)
Theorem apply_after_extract (self : LEDColorMapper) (data : list Z) :
  ∃ fs self' fs',
    _split_sysex_messages data = Some fs
    ∧ _extract_colors_from_sysex self data = Some self'
    ∧ _apply_colors_to_sysex self' data = Some (concat fs')
    ∧ shape fs' = shape fs
    ∧ (∀ j o b, lookup2 fs j o = Some b →
         (color_offset j o → in_color_table b → lookup2 fs' j o = Some b)
         ∧ (color_offset j o → ¬ in_color_table b → lookup2 fs' j o = Some 0x03)
         ∧ (¬ color_offset j o → lookup2 fs' j o = Some b)).
Proof.
  destruct (splits_total data) as [fs Hsp].
  pose proof (split_splits data fs Hsp) as Hsplit.
  remember (foldl (extract_step fs) (colors self) (enumerate CONTROLS))
    as cs' eqn:Hcs'.
  exists fs, (with_colors self cs'), (foldl write2 fs (color_writes cs')).
  split; [done|].
  split; [by rewrite (extract_run self data fs Hsplit), Hcs'|].
  split; [by rewrite (apply_run _ data fs Hsplit), colors_with_colors|].
  split; [apply shape_foldl_write2|].
  intros j o b Hb.
  destruct (recolored_lookup fs (colors self) cs' j o b Hcs' Hb)
    as [Hcol Hother].
  split; [|split].
  - intros Hoff Htab. rewrite (Hcol Hoff). f_equal. by apply resolved_in_table.
  - intros Hoff Htab. rewrite (Hcol Hoff). f_equal.
    by apply resolved_not_in_table.
  - done.
Qed.

Lemma classic_color_offset (j o : nat) : color_offset j o ∨ ¬ color_offset j o.
Proof.
  destruct (decide (Exists (λ c : control,
                              msg_index c = Z.of_nat j ∧ color_pos c = Z.of_nat o)
                           CONTROLS)) as [Hex|Hno].
  - left. apply Exists_exists in Hex as (c & Hc & H). by exists c.
  - right. intros (c & Hc & H). apply Hno, Exists_exists. by exists c.
Qed.

Lemma frames_ext (a b : list bytearray) :
  shape a = shape b →
  (∀ j o, lookup2 a j o = lookup2 b j o) →
  a = b.
Proof.
  intros Hsh Hlook. apply list_eq. intros j.
  pose proof (f_equal (λ sh : list nat, sh !! j) Hsh) as Hj. simpl in Hj.
  unfold shape in Hj. rewrite !list_lookup_fmap in Hj.
  destruct (a !! j) as [m|] eqn:Ha, (b !! j) as [m'|] eqn:Hb; try done.
  f_equal. apply list_eq. intros o.
  specialize (Hlook j o). unfold lookup2 in Hlook. by rewrite Ha, Hb in Hlook.
Qed.

Lemma length_concat_shape (a b : list bytearray) :
  shape a = shape b → length (concat a) = length (concat b).
Proof.
  revert b. induction a as [|m a IH]; intros [|m' b] Hsh; try done.
  injection Hsh as Hm Hsh. simpl. rewrite !length_app, Hm.
  f_equal. by apply IH.
Qed.

(** The colour bytes of the factory frames are codes of the colour table. *)
Lemma EMBEDDED_MSGS_colors_in_table (j o : nat) (b : Z) :
  color_offset j o → lookup2 EMBEDDED_MSGS j o = Some b → in_color_table b.
Proof.
  intros (c & Hc & Hmi & Hcp) Hb.
  assert (Hall : Forall (λ c : control,
                           (EMBEDDED_MSGS !!! Z.to_nat (msg_index c))
                             !!! Z.to_nat (color_pos c) ∈ COLOR_MAP.*2)
                        CONTROLS) by compute_done.
  rewrite Forall_forall in Hall. specialize (Hall c Hc).
  rewrite Hmi, Hcp, !Nat2Z.id in Hall.
  assert (Hval : (EMBEDDED_MSGS !!! j) !!! o = b).
  { unfold lookup2 in Hb. destruct (EMBEDDED_MSGS !! j) as [m|] eqn:Hm; [|done].
    rewrite (list_lookup_total_correct _ _ _ Hm).
    by apply list_lookup_total_correct. }
  rewrite Hval in Hall.
  apply list_elem_of_fmap in Hall as ([name b'] & Heq & Hin).
  exists name. by rewrite Heq.
Qed.

(** X10: colour round trip on a clean file.  For a stream that is the
    concatenation of well-formed frames whose bytes at the colour offsets
    are all codes of the colour table, extracting the colours and applying
    them back writes the stream unchanged, byte for byte, whatever the
    mapper held before. *)
Theorem color_round_trip_identity (self : LEDColorMapper) (fs : list (list Z)) :
  Forall well_formed_frame fs →
  (∀ j o b, color_offset j o → lookup2 fs j o = Some b → in_color_table b) →
  ∃ self',
    _extract_colors_from_sysex self (concat fs) = Some self'
    ∧ _apply_colors_to_sysex self' (concat fs) = Some (concat fs).
Proof.
  intros Hwf Htab.
  pose proof (split_splits _ _ (splits_concat fs Hwf)) as Hsplit.
  remember (foldl (extract_step fs) (colors self) (enumerate CONTROLS))
    as cs' eqn:Hcs'.
  exists (with_colors self cs').
  split; [by rewrite (extract_run self _ fs Hsplit), Hcs'|].
  rewrite (apply_run _ _ fs Hsplit), colors_with_colors. do 2 f_equal.
  apply frames_ext; [apply shape_foldl_write2|].
  intros j o. destruct (lookup2 fs j o) as [b|] eqn:Hb.
  - destruct (recolored_lookup fs (colors self) cs' j o b Hcs' Hb)
      as [Hcol Hother].
    destruct (classic_color_offset j o) as [Hoff|Hoff].
    + rewrite (Hcol Hoff). f_equal. apply resolved_in_table. by eapply Htab.
    + by apply Hother.
  - rewrite lookup2_foldl_write2 by apply color_writes_nonneg. by rewrite Hb.
Qed.

Lemma color_round_trip_identity_witness :
  ∃ self',
    _extract_colors_from_sysex LedMapper.__init__ (concat EMBEDDED_MSGS)
    = Some self'
    ∧ _apply_colors_to_sysex self' (concat EMBEDDED_MSGS)
      = Some (concat EMBEDDED_MSGS).
Proof.
  apply (color_round_trip_identity LedMapper.__init__ EMBEDDED_MSGS).
  - apply EMBEDDED_MSGS_well_formed.
  - apply EMBEDDED_MSGS_colors_in_table.
Defined.

(** X11: application writes only the frames it finds.  For every mapper
    and every byte stream, the bytes written are as long as the join of the
    frames the stream splits into, hence never longer than the stream:
    bytes outside complete frames are not written back. *)
Theorem apply_writes_only_frames (self : LEDColorMapper) (data : list Z) :
  ∃ fs out,
    _split_sysex_messages data = Some fs
    ∧ _apply_colors_to_sysex self data = Some out
    ∧ length out = length (concat fs)
    ∧ (length out ≤ length data)%nat.
Proof.
  destruct (splits_total data) as [fs Hsp].
  pose proof (split_splits data fs Hsp) as Hsplit.
  exists fs, (concat (foldl write2 fs (color_writes (colors self)))).
  split; [done|]. split; [by apply apply_run|].
  assert (Hlen : length (concat (foldl write2 fs (color_writes (colors self))))
                 = length (concat fs)).
  { apply length_concat_shape, shape_foldl_write2. }
  split; [done|]. rewrite Hlen. by apply splits_length.
Qed.

Lemma extract_fold_no_frames (items : list (Z * control))
    (cs : gmap (Z * Z) string) :
  Forall (λ ic : Z * control, 0 ≤ msg_index ic.2) items →
  foldl (extract_step []) cs items = cs.
Proof.
  intros Hnn. revert cs. induction Hnn as [|[i c] items Hmi Hnn IH]; intros cs;
    [done|].
  cbn [foldl]. unfold extract_step at 2, in_frame.
  rewrite bool_decide_eq_false_2 by (simpl in *; lia). apply IH.
Qed.

Lemma with_colors_same (self : LEDColorMapper) :
  with_colors self (colors self) = self.
Proof. by destruct self. Qed.

(** X12: a stream without any end byte [0xF7], the empty stream included,
    holds no frame: extraction leaves the mapper as it is, and application
    writes the empty byte string. *)
Theorem no_frame_no_colors (self : LEDColorMapper) (data : list Z) :
  Forall (λ b, b ≠ 0xF7) data →
  _extract_colors_from_sysex self data = Some self
  ∧ _apply_colors_to_sysex self data = Some [].
Proof.
  intros Hdata.
  pose proof (split_splits data [] (splits_no_end_byte data Hdata)) as Hsplit.
  split.
  - rewrite (extract_run self data [] Hsplit), extract_fold_no_frames.
    + by rewrite with_colors_same.
    + eapply Forall_impl; [apply CONTROLS_nonneg|]. simpl. tauto.
  - rewrite (apply_run self data [] Hsplit).
    by rewrite (nil_length_inv _ (length_foldl_write2 (color_writes (colors self)) [])).
Qed.

Lemma no_frame_no_colors_witness :
  _extract_colors_from_sysex LedMapper.__init__ [1; 0xF0; 2; 3]
  = Some LedMapper.__init__
  ∧ _apply_colors_to_sysex LedMapper.__init__ [1; 0xF0; 2; 3] = Some [].
Proof.
  apply (no_frame_no_colors LedMapper.__init__ [1; 0xF0; 2; 3]).
  repeat constructor; lia.
Defined.

(** ** Writing template files *)

Example format_02d_examples :
  format_02d 1 = "01"%string ∧ format_02d 9 = "09"%string
  ∧ format_02d 10 = "10"%string ∧ format_02d 15 = "15"%string.
Proof. by vm_compute. Qed.

Example generate_all_two_templates :
  let run :=
    generate_all_templates (λ _, false) {| base_messages := [0; 1]%nat |}
      2 PER_TEMPLATE CONTINUOUS None "Serum" None 1 false
      (EMBEDDED_MSGS, {| files := ∅; directories := ∅ |}) in
  run.1 = inr ["./outputs/Serum_T01.syx"; "./outputs/Serum_T02.syx"]%string
  ∧ length run.2.1 = 6%nat
  ∧ (length <$> files run.2.2 !! "./outputs/Serum_T02.syx"%string) = Some 684%nat.
Proof. by vm_compute. Qed.

Lemma W_bind_run {A B : Type} (m : W A) (k : A → W B) (w : store * filesystem) :
  (m ≫= k) w =
  match m w with
  | (inl e, w') => (inl e, w')
  | (inr a, w') => k a w'
  end.
Proof. done. Qed.

Lemma join_messages_run (σ : store) (messages : list loc) (ms : list bytearray) :
  points_to σ messages ms → join_messages messages σ = (inr (concat ms), σ).
Proof.
  unfold points_to. induction 1 as [|l m messages ms Hl Hpt IH]; [done|].
  cbn [join_messages]. rewrite bind_run. unfold deref at 1. rewrite Hl.
  by rewrite bind_run, IH.
Qed.

Lemma write_sysex_file_run (env : string → bool) (file_path : string)
    (σ : store) (fs : filesystem) (messages : list loc) (ms : list bytearray) :
  points_to σ messages ms → env file_path = false →
  _write_sysex_file env file_path messages (σ, fs)
  = (inr tt, (σ, {| files := <[file_path := concat ms]> (files fs);
                    directories := directories fs |})).
Proof.
  intros Hpt Henv. unfold _write_sysex_file. rewrite W_bind_run.
  unfold lift. cbn [fst snd]. rewrite (join_messages_run σ messages ms Hpt).
  unfold write_bytes. by rewrite Henv.
Qed.

Lemma write_sysex_file_refused (env : string → bool) (file_path : string)
    (σ : store) (fs : filesystem) (messages : list loc) (ms : list bytearray) :
  points_to σ messages ms → env file_path = true →
  _write_sysex_file env file_path messages (σ, fs)
  = (inl (IOError ("Failed to write file " +:+ file_path)), (σ, fs)).
Proof.
  intros Hpt Henv. unfold _write_sysex_file. rewrite W_bind_run.
  unfold lift. cbn [fst snd]. rewrite (join_messages_run σ messages ms Hpt).
  unfold write_bytes. by rewrite Henv.
Qed.

(** X13: a template count outside 1 to 15 is rejected before anything
    happens: [generate_all_templates] raises the [ValueError] that names
    the count, creates no directory, writes no file and allocates no
    object. *)
Theorem invalid_count_rejected_first (env : string → bool)
    (self : SysExTemplateGenerator) (template_count : Z)
    (channel_mode : ChannelMode) (cc_mode : CCMode) (global_channel : option Z)
    (output_prefix : string) (output_dir : option string) (min_cc_value : Z)
    (cc_reverse : bool) (σ : store) (fs : filesystem) :
  template_count < 1 ∨ template_count > 15 →
  generate_all_templates env self template_count channel_mode cc_mode
    global_channel output_prefix output_dir min_cc_value cc_reverse (σ, fs)
  = (inl (Raised (ValueError
                    ("Template count must be integer between 1-15, got: "
                     +:+ pretty template_count))),
     (σ, fs)).
Proof.
  intros Hbad. unfold generate_all_templates. rewrite W_bind_run.
  unfold lift, _validate_template_count. cbn [fst snd].
  by rewrite bool_decide_eq_true_2.
Qed.

Lemma invalid_count_rejected_first_witness :
  generate_all_templates (λ _, false) {| base_messages := [0; 1]%nat |} 16
    PER_TEMPLATE RESTART_PER_TEMPLATE None "Serum" None 1 false
    (EMBEDDED_MSGS, {| files := ∅; directories := ∅ |})
  = (inl (Raised (ValueError
                    ("Template count must be integer between 1-15, got: "
                     +:+ pretty 16))),
     (EMBEDDED_MSGS, {| files := ∅; directories := ∅ |})).
Proof.
  apply (invalid_count_rejected_first (λ _, false)
           {| base_messages := [0; 1]%nat |} 16 PER_TEMPLATE RESTART_PER_TEMPLATE
           None "Serum" None 1 false EMBEDDED_MSGS
           {| files := ∅; directories := ∅ |}).
  right. lia.
Defined.

Lemma template_frames_exist (self : SysExTemplateGenerator) (template_num : Z)
    (channel_mode : ChannelMode) (cc_mode : CCMode) (global_channel : option Z)
    (min_cc_value : Z) (cc_reverse : bool) (ch : Z) :
  1 ≤ template_num →
  requested_channel template_num channel_mode global_channel = Some ch →
  1 ≤ ch ≤ 16 →
  ∃ frames,
    frames_of_template self template_num channel_mode cc_mode global_channel
      min_cc_value cc_reverse frames
    ∧ shape frames = [342; 342]%nat
    ∧ Forall well_formed_frame frames.
Proof.
  intros Ht Hreq Hch.
  assert (Hf : ∀ i, 0 ≤ i < 48 →
            0 ≤ Generator.cc_value_for (template_num - 1) cc_mode
                  (Z.max min_cc_value SAFE_CC_MIN)
                  (SAFE_CC_MAX - Z.max min_cc_value SAFE_CC_MIN + 1) cc_reverse i
            ≤ 126).
  { intros i Hi. rewrite cc_value_for_spec.
    destruct (spec_cc_byte_range 48 (template_num - 1) i cc_mode cc_reverse
                min_cc_value) as [-> | H]; [lia..|].
    unfold SAFE_CC_MAX, SAFE_CC_MIN in H. lia. }
  eexists. split; [|split].
  - intros σ Hok.
    rewrite (generate_template_frames σ self template_num channel_mode cc_mode
               global_channel min_cc_value cc_reverse ch Hok Hreq Hch).
    + by rewrite length_foldl_write2.
    + intros i Hi. specialize (Hf i Hi). lia.
  - by rewrite shape_foldl_write2.
  - apply foldl_write2_well_formed; [apply EMBEDDED_MSGS_well_formed|].
    apply Forall_and. split; [apply patch_writes_inside|].
    apply Forall_app. split.
    + unfold channel_writes. apply Forall_bind, Forall_forall. intros c _.
      unfold channel_writes_of. apply Forall_cons. simpl. split; [lia|].
      destruct (bool_decide (flag_pos c >= 0)); [|done].
      apply Forall_singleton. simpl. lia.
    + unfold cc_writes. apply Forall_fmap, Forall_forall. intros [i c] Hin.
      pose proof CONTROLS_nonneg as Hnn. rewrite Forall_forall in Hnn.
      destruct (Hnn _ Hin) as (Hi & _). simpl in Hi |- *.
      specialize (Hf i Hi). lia.
Qed.

Lemma points_to_new (σ : store) (frames : list bytearray) :
  points_to (σ ++ frames) (seq (length σ) (length frames)) frames.
Proof.
  unfold points_to. apply Forall2_same_length_lookup_2.
  - by rewrite length_seq.
  - intros i l m Hl Hm. apply lookup_seq in Hl as [-> Hi].
    by rewrite lookup_app_r, Nat.add_comm, Nat.add_sub by lia.
Qed.

Lemma generate_loop_app (env : string → bool) (self : SysExTemplateGenerator)
    (nums1 nums2 : list Z) (channel_mode : ChannelMode) (cc_mode : CCMode)
    (global_channel : option Z) (output_prefix output_dir : string)
    (min_cc_value : Z) (cc_reverse : bool) (generated_files : list string)
    (w : store * filesystem) :
  generate_loop env self (nums1 ++ nums2) channel_mode cc_mode global_channel
    output_prefix output_dir min_cc_value cc_reverse generated_files w
  = match generate_loop env self nums1 channel_mode cc_mode global_channel
            output_prefix output_dir min_cc_value cc_reverse generated_files w
    with
    | (inl e, w') => (inl e, w')
    | (inr generated_files', w') =>
        generate_loop env self nums2 channel_mode cc_mode global_channel
          output_prefix output_dir min_cc_value cc_reverse generated_files' w'
    end.
Proof.
  revert generated_files w.
  induction nums1 as [|n nums1 IH]; intros generated_files w; [done|].
  cbn [app generate_loop]. rewrite !W_bind_run.
  destruct (lift _ w) as [[e|messages] w1]; [done|].
  rewrite !W_bind_run.
  destruct (_write_sysex_file _ _ _ w1) as [[e|[]] w2]; [done|].
  apply IH.
Qed.

Lemma template_path_inj (output_dir output_prefix : string) (n m : Z) :
  1 ≤ n ≤ 15 → 1 ≤ m ≤ 15 →
  template_path output_dir output_prefix n
  = template_path output_dir output_prefix m →
  n = m.
Proof.
  intros Hn Hm. unfold template_path. intros H.
  do 4 apply (inj (String.app _)) in H.
  assert (Htab : Forall (λ a, Forall (λ b,
                   format_02d a +:+ ".syx" = format_02d b +:+ ".syx" → a = b)
                   (seqZ 1 15)) (seqZ 1 15)) by compute_done.
  rewrite Forall_forall in Htab.
  specialize (Htab n). rewrite Forall_forall in Htab.
  apply Htab; [| |done]; apply elem_of_seqZ; lia.
Qed.

Lemma template_paths_NoDup (output_dir output_prefix : string) (a len : Z) :
  1 ≤ a → a + len ≤ 16 →
  NoDup (template_path output_dir output_prefix <$> seqZ a len).
Proof.
  intros Ha Hlen. apply NoDup_fmap_2_strong; [|apply NoDup_seqZ].
  intros n m Hn%elem_of_seqZ Hm%elem_of_seqZ. apply template_path_inj; lia.
Qed.

Lemma generate_loop_run (env : string → bool) (self : SysExTemplateGenerator)
    (nums : list Z) (channel_mode : ChannelMode) (cc_mode : CCMode)
    (global_channel : option Z) (output_prefix output_dir : string)
    (min_cc_value : Z) (cc_reverse : bool) (generated_files : list string)
    (σ : store) (fs : filesystem) :
  generator_ok σ self →
  Forall (λ n, 1 ≤ n
               ∧ (∃ ch, requested_channel n channel_mode global_channel = Some ch
                        ∧ 1 ≤ ch ≤ 16)
               ∧ env (template_path output_dir output_prefix n) = false) nums →
  ∃ ext fs',
    generate_loop env self nums channel_mode cc_mode global_channel
      output_prefix output_dir min_cc_value cc_reverse generated_files (σ, fs)
    = (inr (generated_files ++ (template_path output_dir output_prefix <$> nums)),
       (σ ++ ext, fs'))
    ∧ length ext = (2 * length nums)%nat
    ∧ directories fs' = directories fs
    ∧ (∀ p, p ∉ template_path output_dir output_prefix <$> nums →
            files fs' !! p = files fs !! p)
    ∧ (NoDup (template_path output_dir output_prefix <$> nums) →
       ∀ n, n ∈ nums →
         ∃ frames,
           files fs' !! template_path output_dir output_prefix n
           = Some (concat frames)
           ∧ frames_of_template self n channel_mode cc_mode global_channel
               min_cc_value cc_reverse frames
           ∧ shape frames = [342; 342]%nat
           ∧ Forall well_formed_frame frames).
Proof.
  intros Hok Hnums. revert generated_files σ fs Hok.
  induction Hnums as [|n nums (Hn & (ch & Hreq & Hch) & Henv) _ IH];
    intros generated_files σ fs Hok.
  { exists [], fs. cbn [generate_loop fmap list_fmap length].
    rewrite !app_nil_r. split; [done|]. split; [done|]. split; [done|].
    split; [done|]. intros _ n Hn. by apply elem_of_nil in Hn. }
  destruct (template_frames_exist self n channel_mode cc_mode global_channel
              min_cc_value cc_reverse ch Hn Hreq Hch) as (frames & Hfr & Hsh & Hwf).
  assert (Hlen : length frames = 2%nat).
  { apply (f_equal length) in Hsh. unfold shape in Hsh.
    by rewrite length_fmap in Hsh. }
  set (path := template_path output_dir output_prefix) in *.
  set (fs1 := {| files := <[path n := concat frames]> (files fs);
                 directories := directories fs |}).
  destruct (IH (generated_files ++ [path n]) (σ ++ frames) fs1)
    as (ext & fs' & Hrun & Hext & Hdir & Hother & Hfiles).
  { by apply generator_ok_app. }
  exists (frames ++ ext), fs'. split; [|split; [|split; [|split]]].
  - cbn [generate_loop]. rewrite W_bind_run. unfold lift at 1. cbn [fst snd].
    rewrite (Hfr σ Hok), W_bind_run.
    fold path.
    rewrite (write_sysex_file_run env (path n) (σ ++ frames) fs _ frames
               (points_to_new σ frames) Henv).
    fold fs1. rewrite Hrun. rewrite fmap_cons.
    by rewrite <-!(assoc_L (++)).
  - rewrite length_app, Hext, Hlen. cbn [length]. lia.
  - by rewrite Hdir.
  - intros p Hp. rewrite fmap_cons, not_elem_of_cons in Hp.
    destruct Hp as [Hne Hp]. rewrite (Hother p Hp). unfold fs1. cbn [files].
    by rewrite lookup_insert_ne.
  - rewrite fmap_cons. intros [Hnotin Hnd]%NoDup_cons m Hm.
    apply elem_of_cons in Hm as [->|Hm].
    + exists frames. rewrite (Hother _ Hnotin). unfold fs1. cbn [files].
      by rewrite lookup_insert_eq.
    + by apply Hfiles.
Qed.

Lemma generate_all_templates_run (env : string → bool)
    (self : SysExTemplateGenerator) (template_count : Z)
    (channel_mode : ChannelMode) (cc_mode : CCMode) (global_channel : option Z)
    (output_prefix : string) (output_dir : option string) (min_cc_value : Z)
    (cc_reverse : bool) (σ : store) (fs : filesystem) :
  1 ≤ template_count ≤ 15 →
  generate_all_templates env self template_count channel_mode cc_mode
    global_channel output_prefix output_dir min_cc_value cc_reverse (σ, fs)
  = if env (default "./outputs"%string output_dir)
    then (inl (IOError ("Failed to create output directory "
                        +:+ default "./outputs"%string output_dir)), (σ, fs))
    else generate_loop env self (seqZ 1 template_count) channel_mode cc_mode
           global_channel output_prefix (default "./outputs"%string output_dir)
           min_cc_value cc_reverse []
           (σ, {| files := files fs;
                  directories := {[default "./outputs"%string output_dir]}
                                 ∪ directories fs |}).
Proof.
  intros Hcount. unfold generate_all_templates. rewrite W_bind_run.
  unfold lift, _validate_template_count. cbn [fst snd].
  rewrite bool_decide_eq_false_2 by lia.
  cbn beta iota delta [mret M_ret]. rewrite W_bind_run.
  unfold make_output_dir. by destruct (env _).
Qed.

Lemma template_channel_ok (template_num : Z) (channel_mode : ChannelMode)
    (global_channel : option Z) :
  1 ≤ template_num →
  (channel_mode = GLOBAL → ∃ g, global_channel = Some g ∧ 1 ≤ g ≤ 16) →
  ∃ ch, requested_channel template_num channel_mode global_channel = Some ch
        ∧ 1 ≤ ch ≤ 16.
Proof.
  intros Hn Hglobal. destruct channel_mode; cbn [requested_channel].
  - exists (Z.min template_num 16). split; [done|lia].
  - destruct Hglobal as (g & -> & Hg); [done|]. by exists g.
Qed.

Lemma generate_template_raises (σ σ' : store) (self : SysExTemplateGenerator)
    (template_num : Z) (channel_mode : ChannelMode) (cc_mode : CCMode)
    (global_channel : option Z) (min_cc_value : Z) (cc_reverse : bool) (e : exn) :
  generator_ok σ self → 1 ≤ template_num →
  generate_template self template_num channel_mode cc_mode global_channel
    min_cc_value cc_reverse σ = (inl e, σ') →
  σ' = σ ++ EMBEDDED_MSGS.
Proof.
  intros Hok Hn Hrun.
  destruct (requested_channel template_num channel_mode global_channel)
    as [ch|] eqn:Hreq.
  - destruct (decide (1 ≤ ch ≤ 16)) as [Hch|Hch].
    + destruct (generate_template_ok σ self template_num channel_mode cc_mode
                  global_channel min_cc_value cc_reverse ch Hok Hn Hreq Hch)
        as (σ1 & Hrun1).
      rewrite Hrun1 in Hrun. discriminate Hrun.
    + rewrite generate_template_run, Hreq, bool_decide_eq_false_2 in Hrun by done.
      by injection Hrun as _ <-.
  - rewrite generate_template_run, Hreq in Hrun by done.
    by injection Hrun as _ <-.
Qed.

Lemma generate_template_allocates (σ σ' : store) (self : SysExTemplateGenerator)
    (template_num : Z) (channel_mode : ChannelMode) (cc_mode : CCMode)
    (global_channel : option Z) (min_cc_value : Z) (cc_reverse : bool)
    (msgs : list loc) :
  generator_ok σ self →
  generate_template self template_num channel_mode cc_mode global_channel
    min_cc_value cc_reverse σ = (inr msgs, σ') →
  ∃ frames, σ' = σ ++ frames ∧ points_to σ' msgs frames.
Proof.
  intros Hok Hgen.
  destruct (generate_template_returns σ σ' self template_num channel_mode cc_mode
              global_channel min_cc_value cc_reverse msgs Hok Hgen)
    as (ch & _ & _ & Hmsgs & Hσ').
  eexists. split; [exact Hσ'|]. rewrite Hmsgs, Hσ'. apply points_to_patched.
Qed.

Lemma generate_loop_frame (env : string → bool) (self : SysExTemplateGenerator)
    (nums : list Z) (channel_mode : ChannelMode) (cc_mode : CCMode)
    (global_channel : option Z) (output_prefix output_dir : string)
    (min_cc_value : Z) (cc_reverse : bool) (generated_files : list string)
    (σ σ' : store) (fs fs' : filesystem) (r : io_exn + list string) :
  generator_ok σ self → Forall (λ n, 1 ≤ n) nums →
  generate_loop env self nums channel_mode cc_mode global_channel
    output_prefix output_dir min_cc_value cc_reverse generated_files (σ, fs)
  = (r, (σ', fs')) →
  (∃ ext, σ' = σ ++ ext)
  ∧ directories fs' = directories fs
  ∧ (∀ p, p ∉ template_path output_dir output_prefix <$> nums →
          files fs' !! p = files fs !! p).
Proof.
  intros Hok Hnums. revert generated_files σ fs Hok.
  induction Hnums as [|n nums Hn _ IH]; intros generated_files σ fs Hok Hrun.
  { injection Hrun as _ <- <-. split; [|done]. exists []. by rewrite app_nil_r. }
  cbn [generate_loop] in Hrun. rewrite W_bind_run in Hrun.
  unfold lift at 1 in Hrun. cbn [fst snd] in Hrun.
  destruct (generate_template self n channel_mode cc_mode global_channel
              min_cc_value cc_reverse σ) as [[e|messages] σ1] eqn:Hgen.
  { injection Hrun as _ <- <-. split; [|done].
    exists EMBEDDED_MSGS. by eapply generate_template_raises. }
  destruct (generate_template_allocates σ σ1 self n channel_mode cc_mode
              global_channel min_cc_value cc_reverse messages Hok Hgen)
    as (frames & -> & Hpt).
  rewrite W_bind_run in Hrun.
  destruct (env (template_path output_dir output_prefix n)) eqn:Henv.
  { rewrite (write_sysex_file_refused env _ _ fs _ _ Hpt Henv) in Hrun.
    injection Hrun as _ <- <-. split; [|done]. by exists frames. }
  rewrite (write_sysex_file_run env _ _ fs _ _ Hpt Henv) in Hrun.
  apply IH in Hrun as ((ext & ->) & Hdir & Hother); [|by apply generator_ok_app].
  split; [|split].
  - eexists. by rewrite <-(assoc_L (++)).
  - done.
  - intros p Hp. rewrite fmap_cons, not_elem_of_cons in Hp.
    destruct Hp as [Hne Hp]. rewrite (Hother p Hp). cbn [files].
    by rewrite lookup_insert_ne.
Qed.

(** X14: with a template count from 1 to 15, a usable channel setting and
    an operating system that refuses nothing, [generate_all_templates]
    returns the paths [<dir>/<prefix>_T01.syx], [_T02.syx], ... in order,
    all different, and the file at the path of template [n] holds the
    join of the frames [generate_template] returns for [n]: two
    well-formed frames of 342 bytes that the frame splitter gives back. *)
Theorem generate_all_templates_writes_each_template (env : string → bool)
    (self : SysExTemplateGenerator) (template_count : Z)
    (channel_mode : ChannelMode) (cc_mode : CCMode) (global_channel : option Z)
    (output_prefix : string) (output_dir : option string) (min_cc_value : Z)
    (cc_reverse : bool) (σ : store) (fs : filesystem) :
  generator_ok σ self →
  1 ≤ template_count ≤ 15 →
  (channel_mode = GLOBAL → ∃ g, global_channel = Some g ∧ 1 ≤ g ≤ 16) →
  (∀ p, env p = false) →
  ∃ σ' fs',
    generate_all_templates env self template_count channel_mode cc_mode
      global_channel output_prefix output_dir min_cc_value cc_reverse (σ, fs)
    = (inr (template_path (default "./outputs"%string output_dir) output_prefix
            <$> seqZ 1 template_count),
       (σ', fs'))
    ∧ NoDup (template_path (default "./outputs"%string output_dir) output_prefix
             <$> seqZ 1 template_count)
    ∧ ∀ n, 1 ≤ n ≤ template_count →
        ∃ frames,
          files fs' !! template_path (default "./outputs"%string output_dir)
                         output_prefix n
          = Some (concat frames)
          ∧ frames_of_template self n channel_mode cc_mode global_channel
              min_cc_value cc_reverse frames
          ∧ shape frames = [342; 342]%nat
          ∧ _split_sysex_messages (concat frames) = Some frames.
Proof.
  intros Hok Hcount Hglobal Henv.
  assert (Hnd : NoDup (template_path (default "./outputs"%string output_dir)
                         output_prefix <$> seqZ 1 template_count)).
  { apply template_paths_NoDup; lia. }
  rewrite generate_all_templates_run, Henv by done.
  destruct (generate_loop_run env self (seqZ 1 template_count) channel_mode
              cc_mode global_channel output_prefix
              (default "./outputs"%string output_dir) min_cc_value cc_reverse []
              σ {| files := files fs;
                   directories := {[default "./outputs"%string output_dir]}
                                  ∪ directories fs |} Hok)
    as (ext & fs' & Hrun & _ & _ & _ & Hfiles).
  { apply Forall_forall. intros n Hn%elem_of_seqZ.
    split; [lia|]. split; [|apply Henv].
    apply template_channel_ok; [lia|done]. }
  exists (σ ++ ext), fs'. split; [exact Hrun|]. split; [exact Hnd|].
  intros n Hn.
  destruct (Hfiles Hnd n) as (frames & Hfile & Hfr & Hsh & Hwf).
  { apply elem_of_seqZ. lia. }
  exists frames. split; [done|]. split; [done|]. split; [done|].
  by apply split_splits, splits_concat.
Qed.

Lemma generate_all_templates_writes_each_template_witness :
  ∃ σ' fs',
    generate_all_templates (λ _, false) {| base_messages := [0; 1]%nat |} 15
      GLOBAL CONTINUOUS (Some 16) "Serum" (Some "out"%string) 1 true
      (EMBEDDED_MSGS, {| files := ∅; directories := ∅ |})
    = (inr (template_path (default "./outputs"%string (Some "out"%string)) "Serum"
            <$> seqZ 1 15),
       (σ', fs'))
    ∧ NoDup (template_path (default "./outputs"%string (Some "out"%string))
               "Serum" <$> seqZ 1 15)
    ∧ ∀ n, 1 ≤ n ≤ 15 →
        ∃ frames,
          files fs' !! template_path (default "./outputs"%string
                                        (Some "out"%string)) "Serum" n
          = Some (concat frames)
          ∧ frames_of_template {| base_messages := [0; 1]%nat |} n GLOBAL
              CONTINUOUS (Some 16) 1 true frames
          ∧ shape frames = [342; 342]%nat
          ∧ _split_sysex_messages (concat frames) = Some frames.
Proof.
  apply (generate_all_templates_writes_each_template (λ _, false)
           {| base_messages := [0; 1]%nat |} 15 GLOBAL CONTINUOUS (Some 16)
           "Serum" (Some "out"%string) 1 true EMBEDDED_MSGS
           {| files := ∅; directories := ∅ |}).
  - apply generator_ok_EMBEDDED_MSGS.
  - lia.
  - intros _. exists 16. split; [reflexivity|lia].
  - reflexivity.
Defined.

(** X15: whatever its arguments, the operating system's refusals and the
    outcome, [generate_all_templates] only appends objects to the store
    (the generator's base frames stay), adds at most the output directory
    to the directories, and changes no file other than those at the
    paths of templates 1 to [template_count]. *)
Theorem generate_all_templates_touches_nothing_else (env : string → bool)
    (self : SysExTemplateGenerator) (template_count : Z)
    (channel_mode : ChannelMode) (cc_mode : CCMode) (global_channel : option Z)
    (output_prefix : string) (output_dir : option string) (min_cc_value : Z)
    (cc_reverse : bool) (σ : store) (fs : filesystem) :
  generator_ok σ self →
  ∃ r ext fs',
    generate_all_templates env self template_count channel_mode cc_mode
      global_channel output_prefix output_dir min_cc_value cc_reverse (σ, fs)
    = (r, (σ ++ ext, fs'))
    ∧ generator_ok (σ ++ ext) self
    ∧ (directories fs' = directories fs
       ∨ directories fs'
         = {[default "./outputs"%string output_dir]} ∪ directories fs)
    ∧ ∀ p, (∀ n, 1 ≤ n ≤ template_count →
                 p ≠ template_path (default "./outputs"%string output_dir)
                       output_prefix n) →
           files fs' !! p = files fs !! p.
Proof.
  intros Hok.
  destruct (decide (1 ≤ template_count ≤ 15)) as [Hcount|Hcount].
  - rewrite generate_all_templates_run by done.
    destruct (env (default "./outputs"%string output_dir)).
    { eexists _, [], fs. rewrite app_nil_r. split; [done|].
      split; [done|]. split; [by left|done]. }
    destruct (generate_loop env self (seqZ 1 template_count) channel_mode cc_mode
                global_channel output_prefix
                (default "./outputs"%string output_dir) min_cc_value cc_reverse
                [] (σ, {| files := files fs;
                          directories := {[default "./outputs"%string output_dir]}
                                         ∪ directories fs |}))
      as [r [σ' fs']] eqn:Hrun.
    apply generate_loop_frame in Hrun as ((ext & ->) & Hdir & Hother);
      [|done|].
    + exists r, ext, fs'. split; [done|]. split; [by apply generator_ok_app|].
      split; [by right|].
      intros p Hp. rewrite Hother; [done|].
      intros (n & -> & Hn%elem_of_seqZ)%list_elem_of_fmap.
      apply (Hp n); [lia|done].
    + apply Forall_forall. intros n Hn%elem_of_seqZ. lia.
  - unfold generate_all_templates. rewrite W_bind_run.
    unfold lift, _validate_template_count. cbn [fst snd].
    rewrite bool_decide_eq_true_2 by lia.
    eexists _, [], fs. rewrite app_nil_r. split; [done|].
    split; [done|]. split; [by left|done].
Qed.

Lemma generate_all_templates_touches_nothing_else_witness :
  ∃ r ext fs',
    generate_all_templates
      (λ p, bool_decide (p = "./outputs/Serum_T03.syx"%string))
      {| base_messages := [0; 1]%nat |} 5 PER_TEMPLATE RESTART_PER_TEMPLATE None
      "Serum" None 1 false
      (EMBEDDED_MSGS, {| files := {["notes.txt"%string := [1; 2; 3]]};
                         directories := ∅ |})
    = (r, (EMBEDDED_MSGS ++ ext, fs'))
    ∧ generator_ok (EMBEDDED_MSGS ++ ext) {| base_messages := [0; 1]%nat |}
    ∧ (directories fs' = directories {| files := {["notes.txt"%string := [1; 2; 3]]};
                                        directories := ∅ |}
       ∨ directories fs'
         = {[default "./outputs"%string None]}
           ∪ directories {| files := {["notes.txt"%string := [1; 2; 3]]};
                            directories := ∅ |})
    ∧ ∀ p, (∀ n, 1 ≤ n ≤ 5 →
                 p ≠ template_path (default "./outputs"%string None) "Serum" n) →
           files fs' !! p
           = files {| files := {["notes.txt"%string := [1; 2; 3]]};
                      directories := ∅ |} !! p.
Proof.
  apply (generate_all_templates_touches_nothing_else
           (λ p, bool_decide (p = "./outputs/Serum_T03.syx"%string))
           {| base_messages := [0; 1]%nat |} 5 PER_TEMPLATE RESTART_PER_TEMPLATE
           None "Serum" None 1 false EMBEDDED_MSGS
           {| files := {["notes.txt"%string := [1; 2; 3]]}; directories := ∅ |}).
  apply generator_ok_EMBEDDED_MSGS.
Defined.

(** X16: in GLOBAL channel mode with no global channel, or one outside 1
    to 16, a call with a valid template count fails on its first template
    with a [ValueError], after the output directory has been made and the
    base frames cloned once: the directory stays, no file is written. *)
Theorem global_channel_error_after_mkdir (env : string → bool)
    (self : SysExTemplateGenerator) (template_count : Z) (cc_mode : CCMode)
    (global_channel : option Z) (output_prefix : string)
    (output_dir : option string) (min_cc_value : Z) (cc_reverse : bool)
    (σ : store) (fs : filesystem) :
  generator_ok σ self →
  1 ≤ template_count ≤ 15 →
  env (default "./outputs"%string output_dir) = false →
  (global_channel = None ∨ ∃ g, global_channel = Some g ∧ ¬ 1 ≤ g ≤ 16) →
  ∃ msg,
    generate_all_templates env self template_count GLOBAL cc_mode global_channel
      output_prefix output_dir min_cc_value cc_reverse (σ, fs)
    = (inl (Raised (ValueError msg)),
       (σ ++ EMBEDDED_MSGS,
        {| files := files fs;
           directories := {[default "./outputs"%string output_dir]}
                          ∪ directories fs |})).
Proof.
  intros Hok Hcount Henv Hbad.
  rewrite generate_all_templates_run, Henv by done.
  rewrite seqZ_cons by lia. cbn [generate_loop]. rewrite W_bind_run.
  unfold lift at 1. cbn [fst snd]. rewrite generate_template_run by done.
  cbn [requested_channel].
  destruct Hbad as [->|(g & -> & Hg)].
  - by eexists.
  - rewrite bool_decide_eq_false_2 by done. by eexists.
Qed.

Lemma global_channel_error_after_mkdir_witness :
  ∃ msg,
    generate_all_templates (λ _, false) {| base_messages := [0; 1]%nat |} 3
      GLOBAL RESTART_PER_TEMPLATE (Some 17) "Serum" None 1 false
      (EMBEDDED_MSGS, {| files := ∅; directories := ∅ |})
    = (inl (Raised (ValueError msg)),
       (EMBEDDED_MSGS ++ EMBEDDED_MSGS,
        {| files := files {| files := ∅; directories := ∅ |};
           directories := {[default "./outputs"%string None]}
                          ∪ directories {| files := ∅; directories := ∅ |} |})).
Proof.
  apply (global_channel_error_after_mkdir (λ _, false)
           {| base_messages := [0; 1]%nat |} 3 RESTART_PER_TEMPLATE (Some 17)
           "Serum" None 1 false EMBEDDED_MSGS {| files := ∅; directories := ∅ |}).
  - apply generator_ok_EMBEDDED_MSGS.
  - lia.
  - reflexivity.
  - right. exists 17. split; [reflexivity|lia].
Defined.

(** X17: a refused write is not rolled back.  When the operating system
    refuses the file of template [k] and nothing before it, the call
    raises the [IOError] naming that path; the files of templates 1 to
    [k - 1] are written and stay, each holding the frames of its
    template, and the files of template [k] and the later ones are as
    they were. *)
Theorem refused_write_keeps_earlier_files (env : string → bool)
    (self : SysExTemplateGenerator) (template_count k : Z)
    (channel_mode : ChannelMode) (cc_mode : CCMode) (global_channel : option Z)
    (output_prefix : string) (output_dir : option string) (min_cc_value : Z)
    (cc_reverse : bool) (σ : store) (fs : filesystem) :
  generator_ok σ self →
  1 ≤ k ≤ template_count → template_count ≤ 15 →
  (channel_mode = GLOBAL → ∃ g, global_channel = Some g ∧ 1 ≤ g ≤ 16) →
  env (default "./outputs"%string output_dir) = false →
  (∀ n, 1 ≤ n < k →
        env (template_path (default "./outputs"%string output_dir)
               output_prefix n) = false) →
  env (template_path (default "./outputs"%string output_dir) output_prefix k)
  = true →
  ∃ σ' fs',
    generate_all_templates env self template_count channel_mode cc_mode
      global_channel output_prefix output_dir min_cc_value cc_reverse (σ, fs)
    = (inl (IOError ("Failed to write file "
                     +:+ template_path (default "./outputs"%string output_dir)
                           output_prefix k)),
       (σ', fs'))
    ∧ (∀ n, 1 ≤ n < k →
         ∃ frames,
           files fs' !! template_path (default "./outputs"%string output_dir)
                          output_prefix n
           = Some (concat frames)
           ∧ frames_of_template self n channel_mode cc_mode global_channel
               min_cc_value cc_reverse frames)
    ∧ (∀ n, k ≤ n ≤ 15 →
         files fs' !! template_path (default "./outputs"%string output_dir)
                        output_prefix n
         = files fs !! template_path (default "./outputs"%string output_dir)
                         output_prefix n).
Proof.
  intros Hok Hk Hcount Hglobal Hdir Hbefore Hrefused.
  rewrite generate_all_templates_run, Hdir by lia.
  replace (seqZ 1 template_count)
    with (seqZ 1 ((k - 1) + (template_count - k + 1))) by (f_equal; lia).
  rewrite seqZ_app by lia. rewrite generate_loop_app.
  destruct (generate_loop_run env self (seqZ 1 (k - 1)) channel_mode
              cc_mode global_channel output_prefix
              (default "./outputs"%string output_dir) min_cc_value cc_reverse []
              σ {| files := files fs;
                   directories := {[default "./outputs"%string output_dir]}
                                  ∪ directories fs |} Hok)
    as (ext & fs' & Hrun & _ & _ & Hother & Hfiles).
  { apply Forall_forall. intros n Hn%elem_of_seqZ.
    split; [lia|]. split; [|apply Hbefore; lia].
    apply template_channel_ok; [lia|done]. }
  rewrite Hrun. replace (1 + (k - 1)) with k by lia.
  rewrite seqZ_cons by lia. cbn [generate_loop]. rewrite W_bind_run.
  unfold lift at 1. cbn [fst snd].
  destruct (template_channel_ok k channel_mode global_channel) as (ch & Hreq & Hch);
    [lia|done|].
  destruct (template_frames_exist self k channel_mode cc_mode global_channel
              min_cc_value cc_reverse ch) as (frames & Hfr & _ & _);
    [lia|done|done|].
  rewrite (Hfr (σ ++ ext) (generator_ok_app σ ext self Hok)), W_bind_run.
  rewrite (write_sysex_file_refused env _ _ fs' _ frames
             (points_to_new (σ ++ ext) frames) Hrefused).
  eexists _, fs'. split; [done|]. split.
  - intros n Hn.
    destruct (Hfiles (template_paths_NoDup _ _ 1 (k - 1) ltac:(lia) ltac:(lia)) n)
      as (fr & Hfile & Hfrn & _).
    { apply elem_of_seqZ. lia. }
    by exists fr.
  - intros n Hn. rewrite Hother; [done|].
    intros (m & Heq & Hm%elem_of_seqZ)%list_elem_of_fmap.
    apply template_path_inj in Heq; lia.
Qed.

Lemma refused_write_keeps_earlier_files_witness :
  ∃ σ' fs',
    generate_all_templates
      (λ p, bool_decide (p = "./outputs/Serum_T03.syx"%string))
      {| base_messages := [0; 1]%nat |} 5 PER_TEMPLATE CONTINUOUS None
      "Serum" None 1 false
      (EMBEDDED_MSGS, {| files := ∅; directories := ∅ |})
    = (inl (IOError ("Failed to write file "
                     +:+ template_path (default "./outputs"%string None)
                           "Serum" 3)),
       (σ', fs'))
    ∧ (∀ n, 1 ≤ n < 3 →
         ∃ frames,
           files fs' !! template_path (default "./outputs"%string None) "Serum" n
           = Some (concat frames)
           ∧ frames_of_template {| base_messages := [0; 1]%nat |} n PER_TEMPLATE
               CONTINUOUS None 1 false frames)
    ∧ (∀ n, 3 ≤ n ≤ 15 →
         files fs' !! template_path (default "./outputs"%string None) "Serum" n
         = files {| files := ∅; directories := ∅ |}
             !! template_path (default "./outputs"%string None) "Serum" n).
Proof.
  apply (refused_write_keeps_earlier_files
           (λ p, bool_decide (p = "./outputs/Serum_T03.syx"%string))
           {| base_messages := [0; 1]%nat |} 5 3 PER_TEMPLATE CONTINUOUS None
           "Serum" None 1 false EMBEDDED_MSGS {| files := ∅; directories := ∅ |}).
  - apply generator_ok_EMBEDDED_MSGS.
  - lia.
  - lia.
  - discriminate.
  - reflexivity.
  - intros n Hn. assert (n = 1 ∨ n = 2) as [-> | ->] by lia; reflexivity.
  - reflexivity.
Defined.
